(** * bad-server: the customer, order and upload controllers

    A shallow embedding of [backend/src/controllers/order.ts], of the
    customers controller and of [backend/src/controllers/upload.ts], with
    the properties of the query sanitizer, the search matcher, the
    aggregation pipeline of [getOrders] and the order-creation validator.

    Conventions of the embedding.
    - A JavaScript string is the [string] of the bytes of its UTF-8
      encoding; [JsString.chars] reads its code points, and the length of
      a string is the number of its UTF-16 code units.
    - A JavaScript number is a [jsnum]: NaN, the two infinities, or a finite
      value, kept as the rational it denotes.  Comparison, [Math.floor] and
      [Math.min] are exact on doubles, so they are computed on the rational.
    - Prices, totals and the other numbers of stored documents and of the
      request body are integers; their sum is rounded as the sum of two
      doubles is ([JsNum.add]), which changes nothing below 2^53.
    - [Number(...)] and [new Date(...)] applied to request input are
      parameters of the development ([Number_], [Date_parse]), and so are
      the case folding of the pattern matcher outside ASCII and the
      patterns outside the fragment that is given a meaning here.
    - A MongoDB collection is a list of documents in natural order; a
      JavaScript [Set] is a [gset].
    - A handler is a function from the database (and the file system, for
      uploads) to an outcome and the database it leaves behind. *)

From Stdlib Require Import ZArith QArith Qround Ascii String List Lia Sorted.
From stdpp Require Import base decidable option list numbers strings gmap.

Local Open Scope string_scope.
Local Open Scope Z_scope.

(** ** The pattern matcher

    The matching of a pattern is done by the database ([$regex], a RegExp
    in a filter).  What it leaves to the engine that runs it, and what the
    sources do not fix, is taken as a parameter: the case folding of the
    [i] option outside ASCII, and which of the line breaks [.] leaves out. *)
Class Matcher : Type := {
  (** The case folding of a character outside ASCII: two characters match
      each other under [i] when they fold to the same character. *)
  foldCase : N -> N;
  (** Whether [.] leaves the character out; asked of line breaks only. *)
  lineTerminator : N -> bool;
}.

(** ** JavaScript strings *)

Module JsString.

(** A run of bytes outside ASCII, read as UTF-8: a lead byte with its
    continuation bytes gives the code point, unless the encoding is
    overlong, of a surrogate or beyond U+10FFFF; a byte that starts no such
    sequence gives U+FFFD. *)
Definition continuation (b : N) : bool := ((128 <=? b) && (b <? 192))%N.

Definition replacement : N := 65533.

Fixpoint decodeRun (bs : list N) : list N :=
  match bs with
  | [] => []
  | b0 :: r =>
      match r with
      | b1 :: r1 =>
          if ((194 <=? b0) && (b0 <? 224))%N && continuation b1
          then ((b0 - 192) * 64 + (b1 - 128))%N :: decodeRun r1
          else
            match r1 with
            | b2 :: r2 =>
                let c3 := ((b0 - 224) * 4096 + (b1 - 128) * 64 + (b2 - 128))%N in
                if ((224 <=? b0) && (b0 <? 240))%N
                   && continuation b1 && continuation b2
                   && (2048 <=? c3)%N
                   && negb ((55296 <=? c3) && (c3 <? 57344))%N
                then c3 :: decodeRun r2
                else
                  match r2 with
                  | b3 :: r3 =>
                      let c4 := ((b0 - 240) * 262144 + (b1 - 128) * 4096
                                 + (b2 - 128) * 64 + (b3 - 128))%N in
                      if ((240 <=? b0) && (b0 <? 245))%N
                         && continuation b1 && continuation b2 && continuation b3
                         && ((65536 <=? c4) && (c4 <? 1114112))%N
                      then c4 :: decodeRun r3
                      else replacement :: decodeRun r
                  | [] => replacement :: decodeRun r
                  end
            | [] => replacement :: decodeRun r
            end
      | [] => [replacement]
      end
  end.

(** The code points of a string.  An ASCII byte is its own code point and
    ends the run of bytes before it; [run] holds that run, last byte
    first. *)
Fixpoint chars_go (run : list N) (s : string) : list N :=
  match s with
  | EmptyString => decodeRun (rev run)
  | String c s' =>
      let b := N_of_ascii c in
      if (b <? 128)%N
      then (decodeRun (rev run) ++ b :: chars_go [] s')%list
      else chars_go (b :: run) s'
  end.

Definition chars (s : string) : list N := chars_go [] s.

(** UTF-16 code units of a code point. *)
Definition units (c : N) : Z := if (c <? 65536)%N then 1 else 2.

(** [String.prototype.length]: the number of UTF-16 code units. *)
Definition length (s : string) : Z :=
  foldr (fun c n => units c + n) 0 (chars s).

(** The encodings of the WhiteSpace and LineTerminator code points, which
    [trim] removes: U+0009 to U+000D, U+0020, U+00A0, U+1680, U+2000 to
    U+200A, U+2028, U+2029, U+202F, U+205F, U+3000 and U+FEFF. *)
Definition whiteSpace : list (list ascii) :=
  map (map ascii_of_N)
    [[9]; [10]; [11]; [12]; [13]; [32]; [194; 160]; [225; 154; 128];
     [226; 128; 128]; [226; 128; 129]; [226; 128; 130]; [226; 128; 131];
     [226; 128; 132]; [226; 128; 133]; [226; 128; 134]; [226; 128; 135];
     [226; 128; 136]; [226; 128; 137]; [226; 128; 138];
     [226; 128; 168]; [226; 128; 169]; [226; 128; 175];
     [226; 129; 159]; [227; 128; 128]; [239; 187; 191]]%N.

Fixpoint starts_with (w l : list ascii) : bool :=
  match w, l with
  | [], _ => true
  | a :: w', b :: l' => Ascii.eqb a b && starts_with w' l'
  | _ :: _, [] => false
  end.

(** [l] without the sequence of [ws] that it starts with, if any. *)
Definition stripOne (ws : list (list ascii)) (l : list ascii)
    : option (list ascii) :=
  (fun w => drop (List.length w) l) <$> List.find (fun w => starts_with w l) ws.

(** [l] without the sequences of [ws] that it starts with; the fuel is the
    number of sequences that may be removed. *)
Fixpoint dropLeading (ws : list (list ascii)) (fuel : nat) (l : list ascii)
    : list ascii :=
  match fuel with
  | O => l
  | S n =>
      match stripOne ws l with
      | Some r => dropLeading ws n r
      | None => l
      end
  end.

Definition trimStartL (l : list ascii) : list ascii :=
  dropLeading whiteSpace (List.length l) l.

(** At the end, the sequences are read from the last byte backwards. *)
Definition trimEndL (l : list ascii) : list ascii :=
  rev (dropLeading (map (@rev ascii) whiteSpace) (List.length l) (rev l)).

Definition trimL (l : list ascii) : list ascii := trimEndL (trimStartL l).

(** [String.prototype.trim]. *)
Definition trim (s : string) : string :=
  string_of_list_ascii (trimL (list_ascii_of_string s)).

Section with_matcher.
Context `{Matcher}.

(** Canonicalisation of the [i] option: an ASCII letter is read as its
    capital, another ASCII character as itself, and any other character
    as the engine folds it. *)
Definition canonicalize (c : N) : N :=
  if (c <? 128)%N
  then (if ((97 <=? c) && (c <=? 122))%N then (c - 32)%N else c)
  else foldCase c.

Definition eqb_ci (a b : N) : bool :=
  N.eqb (canonicalize a) (canonicalize b).

Fixpoint prefix_chars (s t : list N) : bool :=
  match s, t with
  | [], _ => true
  | a :: s', b :: t' => eqb_ci a b && prefix_chars s' t'
  | _ :: _, [] => false
  end.

Fixpoint contains_chars (s t : list N) : bool :=
  prefix_chars s t ||
  match t with
  | [] => false
  | _ :: t' => contains_chars s t'
  end.

(** [t] starts with [s], letter case ignored. *)
Definition prefix_ci (s t : string) : bool :=
  prefix_chars (chars s) (chars t).

(** [s] occurs in [t] as a substring, letter case ignored. *)
Definition contains_ci (s t : string) : bool :=
  contains_chars (chars s) (chars t).

End with_matcher.

(** A string is truthy when it is not empty. *)
Definition truthy (s : string) : bool :=
  match s with EmptyString => false | _ => true end.

End JsString.

(** ** Regular expressions

    The fragment of the pattern language that the controllers can be traced
    on: literal characters, [.], identity escapes of syntax characters and
    the greedy quantifiers [*], [+], [?].  A pattern that uses anything else
    (groups, classes, alternation, anchors, braces, other escapes, lazy
    quantifiers) is reported as [OutsideFragment]; what it means is asked
    of the runtime. *)

Module RegExp.

Inductive atom : Type :=
| AChar (c : N)         (* a literal or an escaped syntax character *)
| AAny.                 (* [.] *)

Inductive quant : Type := QOne | QStar | QPlus | QOpt.

Definition pattern : Type := list (atom * quant).

Inductive compiled : Type :=
| Compiled (p : pattern)
| SyntaxError (msg : string)
| OutsideFragment.

(** SyntaxCharacter of the pattern grammar: [^ $ \ . * + ? ( ) [ ] { } |]. *)
Definition syntax_chars : list N :=
  map N_of_ascii
    ["."; "*"; "+"; "?"; "^"; "$"; "{"; "}"; "("; ")"; "|"; "["; "]"; "\"]%char.

Definition is_syntax (c : N) : bool :=
  existsb (N.eqb c) syntax_chars.

Definition is_syntax_char (c : ascii) : bool := is_syntax (N_of_ascii c).

Definition quant_of (c : N) : option quant :=
  if N.eqb c 42 then Some QStar            (* [*] *)
  else if N.eqb c 43 then Some QPlus       (* [+] *)
  else if N.eqb c 63 then Some QOpt        (* [?] *)
  else None.

(** The atom read last and not yet quantified is [last]; [acc] holds the
    finished terms in reverse; [esc] says a backslash was just read and
    [quantified] that a quantifier was. *)
Definition flush (last : option atom) (acc : pattern) : pattern :=
  match last with
  | Some a => (a, QOne) :: acc
  | None => acc
  end.

Fixpoint compile_go (s : list N) (esc quantified : bool)
    (last : option atom) (acc : pattern) : compiled :=
  match s with
  | [] =>
      if esc then SyntaxError "\ at end of pattern"
      else Compiled (rev (flush last acc))
  | c :: s' =>
      if esc then
        if is_syntax c
        then compile_go s' false false (Some (AChar c)) acc
        else OutsideFragment
      else if N.eqb c 92 then              (* [\] *)
        compile_go s' true false None (flush last acc)
      else
        match quant_of c with
        | Some q =>
            match last with
            | Some a => compile_go s' false true None ((a, q) :: acc)
            | None =>
                if quantified then OutsideFragment
                else SyntaxError "Nothing to repeat"
            end
        | None =>
            if N.eqb c 46 then             (* [.] *)
              compile_go s' false false (Some AAny) (flush last acc)
            else if is_syntax c then OutsideFragment
            else compile_go s' false false (Some (AChar c)) (flush last acc)
        end
  end.

(** [new RegExp(source, 'i')], for a source of the fragment. *)
Definition compile (source : string) : compiled :=
  compile_go (JsString.chars source) false false None [].

(** The pattern that matches the characters of [s] one by one. *)
Fixpoint literal_chars (s : list N) : pattern :=
  match s with
  | [] => []
  | c :: s' => (AChar c, QOne) :: literal_chars s'
  end.

Definition literal (s : string) : pattern := literal_chars (JsString.chars s).

(** The characters that an engine may count as line terminators: LF, VT,
    FF, CR, U+0085, U+2028 and U+2029. *)
Definition lineBreaks : list N := [10; 11; 12; 13; 133; 8232; 8233]%N.

Section with_matcher.
Context `{Matcher}.

(** [.] matches every character but a line terminator. *)
Definition atom_matches (a : atom) (c : N) : bool :=
  match a with
  | AChar x => JsString.eqb_ci x c
  | AAny =>
      if existsb (N.eqb c) lineBreaks then negb (lineTerminator c) else true
  end.

(** [star a k t]: [a] repeated zero or more times, then [k]. *)
Fixpoint star (a : atom) (k : list N -> bool) (t : list N) : bool :=
  k t ||
  match t with
  | [] => false
  | c :: t' => atom_matches a c && star a k t'
  end.

Definition one (a : atom) (k : list N -> bool) (t : list N) : bool :=
  match t with
  | [] => false
  | c :: t' => atom_matches a c && k t'
  end.

(** The pattern matches a prefix of [t]. *)
Fixpoint match_here (p : pattern) : list N -> bool :=
  match p with
  | [] => fun _ => true
  | (a, q) :: p' =>
      let k := match_here p' in
      match q with
      | QOne => one a k
      | QStar => star a k
      | QPlus => one a (star a k)
      | QOpt => fun t => one a k t || k t
      end
  end.

(** The pattern matches somewhere in [t]. *)
Fixpoint test_chars (p : pattern) (t : list N) : bool :=
  match_here p t ||
  match t with
  | [] => false
  | _ :: t' => test_chars p t'
  end.

(** [RegExp.prototype.test] without the [g] and [y] flags, and the
    [$regex] operator. *)
Definition test (p : pattern) (t : string) : bool :=
  test_chars p (JsString.chars t).

End with_matcher.

End RegExp.

(** [const escapeRegex = (s) => s.replace(/[.*+?^${}()|[\]\\]/g, '\\$&')]:
    a backslash goes before every character of the class. *)
Fixpoint escapeRegex (s : string) : string :=
  match s with
  | EmptyString => EmptyString
  | String c s' =>
      if RegExp.is_syntax_char c
      then String "\" (String c (escapeRegex s'))
      else String c (escapeRegex s')
  end.

(** The same on code points. *)
Fixpoint escape_chars (l : list N) : list N :=
  match l with
  | [] => []
  | c :: l' =>
      if RegExp.is_syntax c
      then 92%N :: c :: escape_chars l'
      else c :: escape_chars l'
  end.

(** A text without syntax characters of the pattern grammar. *)
Fixpoint plainText (s : string) : bool :=
  match s with
  | EmptyString => true
  | String c s' => negb (RegExp.is_syntax_char c) && plainText s'
  end.

(** Modelled from the spec: [../utils/escapeRegExp], imported by both
    controllers, is not among the sources.  The spec says the search matcher
    "escapes every regex metacharacter literally", which is what the local
    [escapeRegex] of order.ts does. *)
Definition escapeRegExp (s : string) : string := escapeRegex s.

(** ** JavaScript numbers *)

Inductive jsnum : Type :=
| NaN
| PosInf
| NegInf
| Finite (q : Q).

Module JsNum.

Definition of_Z (z : Z) : jsnum := Finite (inject_Z z).

(** [Number.isFinite]. *)
Definition isFinite (n : jsnum) : bool :=
  match n with Finite _ => true | _ => false end.

(** [Number.isNaN]. *)
Definition isNaN (n : jsnum) : bool :=
  match n with NaN => true | _ => false end.

(** [n > z]. *)
Definition gtb (n : jsnum) (z : Z) : bool :=
  match n with
  | Finite q => negb (Qle_bool q (inject_Z z))
  | PosInf => true
  | NaN | NegInf => false
  end.

(** [Math.floor], applied by the controllers to finite numbers only. *)
Definition floor (n : jsnum) : Z :=
  match n with Finite q => Qfloor q | _ => 0 end.

(** [z === n] for an integer-valued field [z] of a stored document. *)
Definition eqb_Z (z : Z) (n : jsnum) : bool :=
  match n with Finite q => Qeq_bool (inject_Z z) q | _ => false end.

(** The double nearest to an integer, ties going to the even significand.
    An integer of magnitude up to 2^53 is a double; beyond that, the 53
    leading bits are kept. *)
Definition double (z : Z) : Z :=
  let a := Z.abs z in
  if a <? 2 ^ 53 then z
  else
    let e := Z.log2 a - 52 in
    let q := a / 2 ^ e in
    let r := a mod 2 ^ e in
    let half := 2 ^ (e - 1) in
    let q' := if (half <? r) || ((r =? half) && Z.odd q) then q + 1 else q in
    Z.sgn z * (q' * 2 ^ e).

(** [a + b] on integer-valued numbers: the double nearest to the sum (a
    sum of magnitude 2^1024 or more, which is infinite, is not given a
    meaning). *)
Definition add (a b : Z) : Z := double (a + b).

(** [Math.ceil(a / b)] for integers [0 <= a] and [0 <= b]: a division by
    zero gives NaN for [0 / 0] and Infinity otherwise. *)
Definition ceil_div (a b : Z) : jsnum :=
  if b =? 0 then (if a =? 0 then NaN else PosInf)
  else of_Z ((a + b - 1) / b).

End JsNum.

(** ** Requests, errors and outcomes *)

(** A MongoDB ObjectId is a 96-bit number. *)
Abbreviation ObjectId := N (only parsing).

(** A route parameter that stands for an identity: the ObjectId that the
    cast of the text gives, or a text that does not cast, with the message
    of the CastError. *)
Inductive IdParam : Type :=
| IdOf (id : ObjectId)
| NotAnId (castMessage : string).

Coercion IdOf : N >-> IdParam.
Bind Scope N_scope with IdParam.

(** A value of [req.query]: a string, an array of strings or a nested
    object. An absent parameter is [None : option qvalue]. *)
Inductive qvalue : Type :=
| QStr (s : string)
| QArr (l : list string)
| QObj.

(** A scalar of [req.body]. *)
Inductive jsval : Type :=
| VUndefined
| VNull
| VBool (b : bool)
| VNumber (z : Z)
| VString (s : string).

Inductive error : Type :=
| BadRequestError (message : string)
| NotFoundError (message : string)
| OtherError (name message : string)   (* SyntaxError, TypeError, MongoServerError *)
| OutsideModel.                        (* a pattern that a runtime gives no meaning *)

(** Modelled from the spec: the error classes of [../errors] are not among
    the sources.  The spec gives each kind "an HTTP status implied by the
    error kind", and the comment in [getOrderCurrentUserByNumber] names 404
    for not-found against 403; errors of no kind end as 500. *)
Definition statusCode (e : error) : Z :=
  match e with
  | BadRequestError _ => 400
  | NotFoundError _ => 404
  | OtherError _ _ | OutsideModel => 500
  end.

(** What a handler does with the request: [res.status(c).json(body)], or
    [next(e)] (a [throw] inside [try] ends in [next(e)] as well). *)
Inductive outcome (A : Type) : Type :=
| Send (status : Z) (body : A)
| Next (e : error).
Arguments Send {A} status body.
Arguments Next {A} e.

(** Validation steps: a value, or the error the handler leaves with. *)
Inductive checked (A : Type) : Type :=
| Pass (a : A)
| Reject (e : error).
Arguments Pass {A} a.
Arguments Reject {A} e.

#[export] Instance checked_ret : MRet checked := fun _ a => Pass a.
#[export] Instance checked_bind : MBind checked := fun _ _ f m =>
  match m with
  | Pass a => f a
  | Reject e => Reject e
  end.

Definition finish {A} (m : checked (outcome A)) : outcome A :=
  match m with
  | Pass o => o
  | Reject e => Next e
  end.

(** ** Documents *)

Record IProduct : Type := {
  product_id : ObjectId;
  title : string;
  price : option Z;             (* null: not for sale *)
}.

Record IOrder : Type := {
  order_id : ObjectId;
  orderNumber : Z;
  status : string;
  totalAmount : Z;
  products : list ObjectId;
  customer : ObjectId;
  createdAt : Z;                (* milliseconds since the epoch *)
  deliveryAddress : string;
  payment : string;
  phone : string;
  email : string;
  comment : string;
}.

Record IUser : Type := {
  user_id : ObjectId;
  name : string;
  user_createdAt : Z;
  lastOrderDate : option Z;
  user_totalAmount : Z;
  orderCount : Z;
  user_orders : list ObjectId;
  lastOrder : option ObjectId;
}.

Record Db : Type := {
  db_products : list IProduct;
  db_orders : list IOrder;
  db_users : list IUser;
}.

(** The fields [createOrder] passes to [new Order(...)]. *)
Record NewOrder : Type := {
  new_totalAmount : Z;
  new_products : list ObjectId;
  new_payment : string;
  new_phone : string;
  new_email : string;
  new_comment : string;
  new_customer : ObjectId;
  new_deliveryAddress : string;
}.

(** What the Order model adds on [save]. *)
Record Generated : Type := {
  gen_id : ObjectId;
  gen_orderNumber : Z;
  gen_status : string;
  gen_createdAt : Z;
}.

(** Image metadata read by [sharp]. *)
Record Metadata : Type := {
  width : option Z;
  height : option Z;
}.

(** ** The runtime

    What the controllers call and the repository does not define. *)
Class Runtime : Type := {
  (** The engine that matches patterns. *)
  matcher :: Matcher;
  (** [new RegExp(source, 'i')] for a source outside the fragment of
      [RegExp]: the test of the pattern on a text, or the error thrown. *)
  RegExp_other : string -> checked (string -> bool);
  (** [Number(v)] for a value of the query string. *)
  Number_ : qvalue -> jsnum;
  (** [new Date(s).getTime()], [None] for an invalid date. *)
  Date_parse : string -> option Z;
  (** Offset of the server's local time from UTC, in milliseconds. *)
  LocalTZA : Z;
  (** [sanitizeHtml(s, { allowedTags: [], allowedAttributes: {} })]. *)
  sanitizeHtml : string -> string;
  (** Schema validation of the Order model: the message of the
      ValidationError, if any. *)
  Order_validate : NewOrder -> option string;
  (** The fields the Order model generates for a new document. *)
  Order_generate : list IOrder -> NewOrder -> Generated;
  (** [sharp(path).metadata()], [None] when it rejects. *)
  sharp_metadata : string -> option Metadata;
  (** Mongoose's cast of a route parameter to the Number type of
      [orderNumber]; [None] is a CastError. *)
  Number_cast : string -> option jsnum;
  (** [process.env.UPLOAD_PATH] and [process.env.UPLOAD_PATH_TEMP]. *)
  UPLOAD_PATH : option string;
  UPLOAD_PATH_TEMP : option string;
}.

(** ** Sorting

    [$sort] and the [sort] option: documents are ordered by one field, by
    BSON comparison (null, then numbers, then strings), ascending for [1]
    and descending for [-1].  Documents with equal keys keep their order. *)

Module Sort.

Inductive key : Type :=
| KNull
| KNum (z : Z)
| KStr (s : string).

Definition key_leb (a b : key) : bool :=
  match a, b with
  | KNull, _ => true
  | KNum _, KNull => false
  | KNum x, KNum y => x <=? y
  | KNum _, KStr _ => true
  | KStr _, (KNull | KNum _) => false
  | KStr x, KStr y => String.leb x y
  end.

Section by_key.
Context {A : Type} (key_of : A -> key) (descending : bool).

Definition before (x y : A) : bool :=
  if descending then key_leb (key_of y) (key_of x)
  else key_leb (key_of x) (key_of y).

Fixpoint insert (x : A) (l : list A) : list A :=
  match l with
  | [] => [x]
  | y :: l' => if before x y then x :: l else y :: insert x l'
  end.

Definition sort (l : list A) : list A := foldr insert [] l.
End by_key.

End Sort.

(** ** The query sanitizer

    The two list handlers that sanitize ([getOrders] and [getCustomers])
    contain the same text for [safePage], [safeLimit], [safeSortField],
    [safeSortOrder] and [safeSearch]; it is embedded once. *)

Record Range (A : Type) : Type := {
  gte : option A;               (* [$gte] *)
  lte : option A;               (* [$lte] *)
}.
Arguments gte {A} r.
Arguments lte {A} r.

Definition no_range {A} : Range A := {| gte := None; lte := None |}.
(** [{ ...r, $gte: x }] and [{ ...r, $lte: x }]. *)
Definition with_gte {A} (r : Range A) (x : A) : Range A :=
  {| gte := Some x; lte := lte r |}.
Definition with_lte {A} (r : Range A) (x : A) : Range A :=
  {| gte := gte r; lte := Some x |}.

Definition in_range_Z (r : Range Z) (v : Z) : bool :=
  match gte r with Some g => g <=? v | None => true end &&
  match lte r with Some l => v <=? l | None => true end.

Definition in_range_Q (r : Range Q) (v : Z) : bool :=
  match gte r with Some g => Qle_bool g (inject_Z v) | None => true end &&
  match lte r with Some l => Qle_bool (inject_Z v) l | None => true end.

(** The numeric value of a finite number. *)
Definition finite_value (n : jsnum) : option Q :=
  match n with Finite q => Some q | _ => None end.

(** The response of a list handler. *)
Record Pagination : Type := {
  total : Z;
  totalPages : jsnum;
  currentPage : jsnum;
  pageSize : jsnum;
}.

Record Page (A : Type) : Type := {
  docs : list A;
  pagination : Pagination;
}.
Arguments docs {A} p.
Arguments pagination {A} p.

Section Sanitizer.
Context `{Runtime}.

Definition MAX_LIMIT : Z := 10.

(** A destructured parameter with a numeric default, under [Number]. *)
Definition Number_or (default : Z) (v : option qvalue) : jsnum :=
  match v with
  | None => JsNum.of_Z default
  | Some x => Number_ x
  end.

Definition safePage (page : option qvalue) : Z :=
  let n := Number_or 1 page in
  if JsNum.isFinite n && JsNum.gtb n 0 then JsNum.floor n else 1.

Definition safeLimit (limit : option qvalue) : Z :=
  let n := Number_or 10 limit in
  if JsNum.isFinite n && JsNum.gtb n 0
  then Z.min (JsNum.floor n) MAX_LIMIT
  else 10.

Definition safeSortField (allowedSortFields : gset string)
    (sortField : option qvalue) : string :=
  match sortField with
  | None => "createdAt"
  | Some (QStr f) =>
      if bool_decide (f ∈ allowedSortFields) then f else "createdAt"
  | Some _ => "createdAt"
  end.

Definition safeSortOrder (sortOrder : option qvalue) : string :=
  match sortOrder with
  | Some (QStr o) =>
      if String.eqb o "asc" || String.eqb o "desc" then o else "desc"
  | _ => "desc"
  end.

Definition safeSearch (search : option qvalue) : checked (option string) :=
  match search with
  | None => Pass None
  | Some (QStr s) =>
      let t := JsString.trim s in
      if 50 <? JsString.length t
      then Reject (BadRequestError "Слишком длинный search")
      else Pass (Some t)
  | Some _ => Reject (BadRequestError "Некорректный search")
  end.

(** A numeric bound: [Number(v)] has to be finite. *)
Definition numberBound (field : string) (r : Range Q) (v : option qvalue)
    (set : Range Q -> Q -> Range Q) : checked (Range Q) :=
  match v with
  | None => Pass r
  | Some x =>
      match finite_value (Number_ x) with
      | Some n => Pass (set r n)
      | None => Reject (BadRequestError ("Некорректный " ++ field))
      end
  end.

(** A date bound: a string that [new Date] accepts; [adjust] is what the
    handler does to the date before it stores it. *)
Definition dateBound (field : string) (r : Range Z) (v : option qvalue)
    (adjust : Z -> Z) (set : Range Z -> Z -> Range Z) : checked (Range Z) :=
  match v with
  | None => Pass r
  | Some (QStr s) =>
      match Date_parse s with
      | Some d => Pass (set r (adjust d))
      | None => Reject (BadRequestError ("Некорректный " ++ field))
      end
  | Some _ => Reject (BadRequestError ("Некорректный " ++ field))
  end.

Definition msPerDay : Z := 86400000.

(** [d.setHours(23, 59, 59, 999)]: the last millisecond of the day that
    [d] falls on in local time. *)
Definition setHours_23_59_59_999 (d : Z) : Z :=
  ((d + LocalTZA) / msPerDay) * msPerDay
  + (23 * 3600000 + 59 * 60000 + 59 * 1000 + 999) - LocalTZA.

(** The search predicate over a text field:
    [new RegExp(escapeRegExp(safeSearch), 'i')].  An escaped text is
    always a pattern of the fragment ([searchRegex_literal] below), so the
    last two cases do not occur. *)
Definition searchRegex (safeSearch : string) : checked RegExp.pattern :=
  match RegExp.compile (escapeRegExp safeSearch) with
  | RegExp.Compiled p => Pass p
  | RegExp.SyntaxError m => Reject (OtherError "SyntaxError" m)
  | RegExp.OutsideFragment => Reject OutsideModel
  end.

End Sanitizer.

(** ** controllers/order.ts *)

Record OrdersQuery : Type := {
  q_page : option qvalue;
  q_limit : option qvalue;
  q_sortField : option qvalue;
  q_sortOrder : option qvalue;
  q_status : option qvalue;
  q_totalAmountFrom : option qvalue;
  q_totalAmountTo : option qvalue;
  q_orderDateFrom : option qvalue;
  q_orderDateTo : option qvalue;
  q_search : option qvalue;
}.

(** [filters] of [getOrders]. *)
Record OrderFilters : Type := {
  f_status : option string;
  f_totalAmount : Range Q;
  f_createdAt : Range Z;
}.

(** A document of the pipeline after the two [$lookup] and [$unwind]
    stages: the order with one product and its customer embedded. *)
Record OrderRow : Type := {
  row_order : IOrder;
  row_product : IProduct;
  row_customer : IUser;
}.

(** A document produced by the [$group] stage of the data pipeline. *)
Record GroupedOrder : Type := {
  g_id : ObjectId;
  g_orderNumber : Z;
  g_status : string;
  g_totalAmount : Z;
  g_products : list IProduct;
  g_customer : IUser;
  g_createdAt : Z;
}.

Section OrderController.
Context `{Runtime}.

Definition allowedSortFields : gset string :=
  {[ "createdAt"; "totalAmount"; "orderNumber"; "status" ]}.

Definition allowedStatuses : list string :=
  ["completed"; "pending"; "created"; "cancelled"].

Definition statusFilter (v : option qvalue) : checked (option string) :=
  match v with
  | None => Pass None
  | Some (QStr s) =>
      if bool_decide (s ∈ allowedStatuses) then Pass (Some s)
      else Reject (BadRequestError "Некорректный status")
  | Some _ => Reject (BadRequestError "Некорректный status")
  end.

(** The part of [getOrders] that builds [filters]. *)
Definition orderFilters (q : OrdersQuery) : checked OrderFilters :=
  st ← statusFilter (q_status q);
  a1 ← numberBound "totalAmountFrom" no_range (q_totalAmountFrom q) with_gte;
  a2 ← numberBound "totalAmountTo" a1 (q_totalAmountTo q) with_lte;
  d1 ← dateBound "orderDateFrom" no_range (q_orderDateFrom q) id with_gte;
  d2 ← dateBound "orderDateTo" d1 (q_orderDateTo q) id with_lte;
  mret {| f_status := st; f_totalAmount := a2; f_createdAt := d2 |}.

(** [{ $match: filters }]. *)
Definition matchFilters (f : OrderFilters) (o : IOrder) : bool :=
  match f_status f with
  | Some s => String.eqb (status o) s
  | None => true
  end
  && in_range_Q (f_totalAmount f) (totalAmount o)
  && in_range_Z (f_createdAt f) (createdAt o).

(** The two [$lookup] stages. *)
Definition lookupProducts (db : Db) (o : IOrder) : list IProduct :=
  filter (fun p => product_id p ∈ products o) (db_products db).

Definition lookupCustomer (db : Db) (o : IOrder) : list IUser :=
  filter (fun u => user_id u = customer o) (db_users db).

(** [$unwind: '$customer'] then [$unwind: '$products']. *)
Definition unwind (db : Db) (o : IOrder) : list OrderRow :=
  c ← lookupCustomer db o;
  p ← lookupProducts db o;
  [ {| row_order := o; row_product := p; row_customer := c |} ].

(** [{ $match: { $or: searchConditions } }], when there is a search. *)
Definition searchStage (safeSearch : option string)
    : checked (OrderRow -> bool) :=
  match safeSearch with
  | None => Pass (fun _ => true)
  | Some s =>
      if JsString.truthy s then
        re ← searchRegex s;
        let searchNumber := Number_ (QStr s) in
        mret (fun r =>
          RegExp.test re (title (row_product r))
          || (negb (JsNum.isNaN searchNumber)
              && JsNum.eqb_Z (orderNumber (row_order r)) searchNumber))
      else Pass (fun _ => true)
  end.

Definition basePipeline (db : Db) (f : OrderFilters)
    (searchCond : OrderRow -> bool) : list OrderRow :=
  filter (fun r => searchCond r = true)
    (filter (fun o => matchFilters f o = true) (db_orders db) ≫= unwind db).

(** [{ $sort: sort }]. *)
Definition sortKey (field : string) (r : OrderRow) : Sort.key :=
  let o := row_order r in
  if String.eqb field "createdAt" then Sort.KNum (createdAt o)
  else if String.eqb field "totalAmount" then Sort.KNum (totalAmount o)
  else if String.eqb field "orderNumber" then Sort.KNum (orderNumber o)
  else if String.eqb field "status" then Sort.KStr (status o)
  else Sort.KNull.

Definition sortStage (field order : string) : list OrderRow -> list OrderRow :=
  Sort.sort (sortKey field) (String.eqb order "desc").

(** [$group] by [_id]: a row joins the group of its order, or opens a new
    group after the existing ones. *)
Section group.
Context {G : Type} (open : OrderRow -> G) (push : G -> OrderRow -> G)
        (group_id : G -> ObjectId).

Fixpoint addRow (r : OrderRow) (gs : list G) : list G :=
  match gs with
  | [] => [open r]
  | g :: gs' =>
      if decide (group_id g = order_id (row_order r))
      then push g r :: gs'
      else g :: addRow r gs'
  end.

Definition groupStage (rows : list OrderRow) : list G :=
  fold_left (fun gs r => addRow r gs) rows [].
End group.

(** The [$group] of the data pipeline: [$first] of the scalar fields and
    of the customer, [$push] of the products. *)
Definition openOrder (r : OrderRow) : GroupedOrder :=
  let o := row_order r in
  {| g_id := order_id o;
     g_orderNumber := orderNumber o;
     g_status := status o;
     g_totalAmount := totalAmount o;
     g_products := [row_product r];
     g_customer := row_customer r;
     g_createdAt := createdAt o |}.

Definition pushProduct (g : GroupedOrder) (r : OrderRow) : GroupedOrder :=
  {| g_id := g_id g;
     g_orderNumber := g_orderNumber g;
     g_status := g_status g;
     g_totalAmount := g_totalAmount g;
     g_products := g_products g ++ [row_product r];
     g_customer := g_customer g;
     g_createdAt := g_createdAt g |}.

Definition dataPipeline (base : list OrderRow) (field order : string)
    (page limit : Z) : list GroupedOrder :=
  groupStage openOrder pushProduct g_id
    (take (Z.to_nat limit)
       (drop (Z.to_nat ((page - 1) * limit)) (sortStage field order base))).

(** [{ $group: { _id: '$_id' } }, { $count: 'total' }]: no document when
    there is no group. *)
Definition countPipeline (base : list OrderRow) : list Z :=
  let groups :=
    groupStage (fun r => order_id (row_order r)) (fun g _ => g) id base in
  match groups with
  | [] => []
  | _ => [Z.of_nat (length groups)]
  end.

(** [totalAgg?.[0]?.total ?? 0]. *)
Definition totalOf (totalAgg : list Z) : Z := default 0 (head totalAgg).

(** [getOrders].  The database rejects [$limit: 0]. *)
Definition getOrders (db : Db) (q : OrdersQuery)
    : outcome (Page GroupedOrder) :=
  finish (
    let page := safePage (q_page q) in
    let limit := safeLimit (q_limit q) in
    let field := safeSortField allowedSortFields (q_sortField q) in
    let order := safeSortOrder (q_sortOrder q) in
    search ← safeSearch (q_search q);
    filters ← orderFilters q;
    cond ← searchStage search;
    let base := basePipeline db filters cond in
    if limit =? 0
    then Reject (OtherError "MongoServerError" "the limit must be positive")
    else
      let orders := dataPipeline base field order page limit in
      let totalOrders := totalOf (countPipeline base) in
      mret (Send 200
        {| docs := orders;
           pagination :=
             {| total := totalOrders;
                totalPages := JsNum.ceil_div totalOrders limit;
                currentPage := JsNum.of_Z page;
                pageSize := JsNum.of_Z limit |} |})).

(** *** getOrdersCurrentUser *)

(** [ToString] of a query value, as [new RegExp(v, 'i')] reads it. *)
Definition toString_q (v : qvalue) : string :=
  match v with
  | QStr s => s
  | QArr l => String.concat "," l
  | QObj => "[object Object]"
  end.

Definition truthy_q (v : option qvalue) : bool :=
  match v with
  | None => false
  | Some (QStr s) => JsString.truthy s
  | Some _ => true
  end.

Definition findProduct (ps : list IProduct) (id : ObjectId) : option IProduct :=
  List.find (fun p => N.eqb (product_id p) id) ps.

Definition findOrderById (os : list IOrder) (id : ObjectId) : option IOrder :=
  List.find (fun o => N.eqb (order_id o) id) os.

Definition findUserById (us : list IUser) (id : ObjectId) : option IUser :=
  List.find (fun u => N.eqb (user_id u) id) us.

(** [populate]: the documents the references resolve to, in the order of
    the references; a reference that resolves to nothing is dropped. *)
Definition populateOrders (db : Db) (u : IUser) : list IOrder :=
  omap (findOrderById (db_orders db)) (user_orders u).

Definition populateProducts (db : Db) (o : IOrder) : list IProduct :=
  omap (findProduct (db_products db)) (products o).

Record UserOrdersQuery : Type := {
  uq_search : option qvalue;
  uq_page : option qvalue;
  uq_limit : option qvalue;
}.

(** The response of [getOrdersCurrentUser] without [totalPages] and with
    the orders as they are before [slice]: [totalPages] and the bounds of
    the slice are a quotient and a product of the raw [Number(page)] and
    [Number(limit)], which the rational reading of a number does not give
    exactly. *)
Record UserOrders : Type := {
  uo_filtered : list IOrder;
  uo_totalOrders : Z;
  uo_currentPage : jsnum;
  uo_pageSize : jsnum;
}.

(** [new RegExp(search as string, 'i')]: the pattern is the raw text.
    The result is the test of the pattern on a text. *)
Definition rawRegex (search : qvalue) : checked (string -> bool) :=
  match RegExp.compile (toString_q search) with
  | RegExp.Compiled p => Pass (RegExp.test p)
  | RegExp.SyntaxError m => Reject (OtherError "SyntaxError" m)
  | RegExp.OutsideFragment => RegExp_other (toString_q search)
  end.

Definition searchOrders (db : Db) (search : option qvalue)
    (orders : list IOrder) : checked (list IOrder) :=
  match search with
  | Some v =>
      if truthy_q search then
        searchRegex ← rawRegex v;
        let searchNumber := Number_ v in
        let found :=
          filter (fun p => searchRegex (title p) = true)
                 (db_products db) in
        let productIds := map product_id found in
        mret (filter (fun order =>
          let matchesProductTitle :=
            existsb (fun product =>
                       existsb (fun id => N.eqb id (product_id product))
                               productIds)
                    (populateProducts db order) in
          let matchesOrderNumber :=
            negb (JsNum.isNaN searchNumber)
            && JsNum.eqb_Z (orderNumber order) searchNumber in
          matchesOrderNumber || matchesProductTitle = true) orders)
      else Pass orders
  | None => Pass orders
  end.

Definition getOrdersCurrentUser (db : Db) (userId : ObjectId)
    (q : UserOrdersQuery) : outcome UserOrders :=
  finish (
    user ← match findUserById (db_users db) userId with
           | Some u => Pass u
           | None => Reject (NotFoundError
                       "Пользователь по заданному id отсутствует в базе")
           end;
    orders ← searchOrders db (uq_search q) (populateOrders db user);
    mret (Send 200
      {| uo_filtered := orders;
         uo_totalOrders := Z.of_nat (length orders);
         uo_currentPage := Number_or 1 (uq_page q);
         uo_pageSize := Number_or 5 (uq_limit q) |})).

(** *** getOrderCurrentUserByNumber *)

Definition orderNotFound : error :=
  NotFoundError "Заказ по заданному id отсутствует в базе".

(** [Order.findOne({ orderNumber })]. *)
Definition findOrderByNumber (os : list IOrder) (n : jsnum) : option IOrder :=
  List.find (fun o => JsNum.eqb_Z (orderNumber o) n) os.

(** [populate] leaves [null] for a customer that does not exist, and
    [order.customer._id] then throws a TypeError. *)
Definition getOrderCurrentUserByNumber (db : Db) (userId : ObjectId)
    (orderNumberParam : string) : outcome IOrder :=
  match Number_cast orderNumberParam with
  | None => Next (BadRequestError "Передан не валидный ID заказа")
  | Some n =>
      match findOrderByNumber (db_orders db) n with
      | None => Next orderNotFound
      | Some order =>
          match findUserById (db_users db) (customer order) with
          | None =>
              Next (OtherError "TypeError"
                      "Cannot read properties of null (reading '_id')")
          | Some c =>
              if negb (N.eqb (user_id c) userId)
              then Next (NotFoundError
                           "Заказ по заданному id отсутствует в базе")
              else Send 200 order
          end
      end
  end.

(** *** createOrder *)

(** [id.toString()]: 24 hexadecimal digits. *)
Definition hexDigit (d : N) : ascii :=
  if (d <? 10)%N then ascii_of_N (48 + d) else ascii_of_N (87 + d).

Fixpoint hexDigits (n : nat) (x : N) : string :=
  match n with
  | O => EmptyString
  | S n' => hexDigits n' (x / 16)%N ++ String (hexDigit (x mod 16)%N) EmptyString
  end.

Definition idString (id : ObjectId) : string := hexDigits 24 id.

Definition is_digit (c : ascii) : bool :=
  let n := nat_of_ascii c in ((48 <=? n) && (n <=? 57))%nat.

Fixpoint all_digits (s : string) : bool :=
  match s with
  | EmptyString => true
  | String c s' => is_digit c && all_digits s'
  end.

(** [/^\+?\d{10,15}$/.test(s)]. *)
Definition phonePattern (s : string) : bool :=
  let digits := match s with
                | String "+"%char r => r
                | _ => s
                end in
  all_digits digits
  && (10 <=? JsString.length digits) && (JsString.length digits <=? 15).

Record OrderBody : Type := {
  b_address : string;
  b_payment : string;
  b_phone : jsval;
  b_total : jsval;
  b_email : string;
  b_items : option (list ObjectId);     (* [None]: not an array *)
  b_comment : option string;
}.

Definition MAX_ITEMS : Z := 50.

(** [Product.find({ _id: { $in: items } })]. *)
Definition findProductsIn (db : Db) (items : list ObjectId) : list IProduct :=
  filter (fun p => product_id p ∈ items) (db_products db).

(** The body of [items.forEach]: the product of one id, or the error thrown. *)
Definition resolveItem (found : list IProduct) (id : ObjectId) : checked IProduct :=
  match findProduct found id with
  | None => Reject (BadRequestError ("Товар с id " ++ idString id ++ " не найден"))
  | Some product =>
      match price product with
      | None =>
          Reject (BadRequestError ("Товар с id " ++ idString id ++ " не продается"))
      | Some _ => Pass product
      end
  end.

Fixpoint forEachItem (found : list IProduct) (items : list ObjectId)
    : checked (list IProduct) :=
  match items with
  | [] => Pass []
  | id :: rest =>
      product ← resolveItem found id;
      basket ← forEachItem found rest;
      mret (product :: basket)
  end.

(** [basket.reduce((a, c) => a + c.price, 0)]; [a + null] is [a]. *)
Definition totalBasket (basket : list IProduct) : Z :=
  fold_left (fun a c => JsNum.add a (default 0 (price c))) basket 0.

(** Everything [createOrder] does before [new Order]: the checks, in the
    order of the source, and the fields of the new document.  The test
    [totalBasket !== total] holds unless [total] is the number
    [totalBasket]. *)
Definition validateOrder (db : Db) (userId : ObjectId) (body : OrderBody)
    : checked NewOrder :=
  items ← match b_items body with
          | Some l => Pass l
          | None => Reject (BadRequestError "items должен быть массивом")
          end;
  _ ← (if (Z.of_nat (length items) =? 0) || (MAX_ITEMS <? Z.of_nat (length items))
       then Reject (BadRequestError "Некорректное количество товаров (1-50)")
       else Pass tt);
  phone ← match b_phone body with
          | VString s => Pass s
          | _ => Reject (BadRequestError "Телефон должен быть строкой")
          end;
  let normalizedPhone := JsString.trim phone in
  _ ← (if 20 <? JsString.length normalizedPhone
       then Reject (BadRequestError "Слишком длинный телефон")
       else Pass tt);
  _ ← (if negb (phonePattern normalizedPhone)
       then Reject (BadRequestError "Некорректный телефон")
       else Pass tt);
  let found := findProductsIn db items in
  _ ← (if negb (length found =? length items)%nat
       then Reject (BadRequestError "Товар не найден")
       else Pass tt);
  basket ← forEachItem found items;
  total ← match b_total body with
          | VNumber t =>
              if t =? totalBasket basket then Pass t
              else Reject (BadRequestError "Неверная сумма заказа")
          | _ => Reject (BadRequestError "Неверная сумма заказа")
          end;
  let safeComment := sanitizeHtml (default "" (b_comment body)) in
  mret {| new_totalAmount := total;
          new_products := items;
          new_payment := b_payment body;
          new_phone := normalizedPhone;
          new_email := b_email body;
          new_comment := safeComment;
          new_customer := userId;
          new_deliveryAddress := b_address body |}.

(** The document [save] writes. *)
Definition orderDocument (g : Generated) (o : NewOrder) : IOrder :=
  {| order_id := gen_id g;
     orderNumber := gen_orderNumber g;
     status := gen_status g;
     totalAmount := new_totalAmount o;
     products := new_products o;
     customer := new_customer o;
     createdAt := gen_createdAt g;
     deliveryAddress := new_deliveryAddress o;
     payment := new_payment o;
     phone := new_phone o;
     email := new_email o;
     comment := new_comment o |}.

Definition insertOrder (db : Db) (doc : IOrder) : Db :=
  {| db_products := db_products db;
     db_orders := db_orders db ++ [doc];
     db_users := db_users db |}.

(** [createOrder]: the outcome and the database afterwards.  A
    ValidationError of [save] becomes a BadRequestError. *)
Definition createOrder (db : Db) (userId : ObjectId) (body : OrderBody)
    : outcome IOrder * Db :=
  match validateOrder db userId body with
  | Reject e => (Next e, db)
  | Pass newOrder =>
      match Order_validate newOrder with
      | Some message => (Next (BadRequestError message), db)
      | None =>
          let doc := orderDocument (Order_generate (db_orders db) newOrder) newOrder in
          (Send 200 doc, insertOrder db doc)
      end
  end.

End OrderController.

(** ** The customers controller *)

Record CustomersQuery : Type := {
  c_page : option qvalue;
  c_limit : option qvalue;
  c_sortField : option qvalue;
  c_sortOrder : option qvalue;
  c_registrationDateFrom : option qvalue;
  c_registrationDateTo : option qvalue;
  c_lastOrderDateFrom : option qvalue;
  c_lastOrderDateTo : option qvalue;
  c_totalAmountFrom : option qvalue;
  c_totalAmountTo : option qvalue;
  c_orderCountFrom : option qvalue;
  c_orderCountTo : option qvalue;
  c_search : option qvalue;
}.

(** [filters] of [getCustomers]; [f_or] is the [$or] of the search: the
    pattern for [name] and the ids for [lastOrder]. *)
Record CustomerFilters : Type := {
  f_userCreatedAt : Range Z;
  f_lastOrderDate : Range Z;
  f_userTotalAmount : Range Q;
  f_orderCount : Range Q;
  f_or : option (RegExp.pattern * list ObjectId);
}.

(** The update that [findByIdAndUpdate] makes of [req.body], which the
    handler passes on whole: for each field of a customer the value that
    the body sets, or [None] when the body does not name the field.  A
    date and the last order can be set to [null].  The identity is not
    among the fields: the database refuses an update that changes it. *)
Record CustomerPatch : Type := {
  patch_name : option string;
  patch_createdAt : option Z;
  patch_lastOrderDate : option (option Z);
  patch_totalAmount : option Z;
  patch_orderCount : option Z;
  patch_orders : option (list ObjectId);
  patch_lastOrder : option (option ObjectId);
}.

Section CustomersController.
Context `{Runtime}.

Definition allowedCustomerSortFields : gset string :=
  {[ "createdAt"; "totalAmount"; "orderCount"; "lastOrderDate"; "name" ]}.

(** The range part of [filters]. *)
Definition customerRanges (q : CustomersQuery)
    : checked (Range Z * Range Z * Range Q * Range Q) :=
  r1 ← dateBound "registrationDateFrom" no_range
         (c_registrationDateFrom q) id with_gte;
  r2 ← dateBound "registrationDateTo" r1
         (c_registrationDateTo q) setHours_23_59_59_999 with_lte;
  l1 ← dateBound "lastOrderDateFrom" no_range
         (c_lastOrderDateFrom q) id with_gte;
  l2 ← dateBound "lastOrderDateTo" l1
         (c_lastOrderDateTo q) setHours_23_59_59_999 with_lte;
  a1 ← numberBound "totalAmountFrom" no_range (c_totalAmountFrom q) with_gte;
  a2 ← numberBound "totalAmountTo" a1 (c_totalAmountTo q) with_lte;
  n1 ← numberBound "orderCountFrom" no_range (c_orderCountFrom q) with_gte;
  n2 ← numberBound "orderCountTo" n1 (c_orderCountTo q) with_lte;
  mret (r2, l2, a2, n2).

(** [Order.find({ deliveryAddress: searchRegex }, '_id').limit(50)]. *)
Definition ordersByAddress (db : Db) (re : RegExp.pattern) : list ObjectId :=
  map order_id
    (take 50 (filter (fun o => RegExp.test re (deliveryAddress o) = true)
                     (db_orders db))).

Definition customerSearch (db : Db) (safeSearch : option string)
    : checked (option (RegExp.pattern * list ObjectId)) :=
  match safeSearch with
  | None => Pass None
  | Some s =>
      if JsString.truthy s then
        re ← searchRegex s;
        mret (Some (re, ordersByAddress db re))
      else Pass None
  end.

Definition customerFilters (db : Db) (q : CustomersQuery)
    : checked CustomerFilters :=
  search ← safeSearch (c_search q);
  ranges ← customerRanges q;
  or ← customerSearch db search;
  let '(r, l, a, n) := ranges in
  mret {| f_userCreatedAt := r; f_lastOrderDate := l;
          f_userTotalAmount := a; f_orderCount := n; f_or := or |}.

(** A range on a field that a document may lack matches nothing there. *)
Definition in_range_opt (r : Range Z) (v : option Z) : bool :=
  match gte r, lte r with
  | None, None => true
  | _, _ => match v with Some x => in_range_Z r x | None => false end
  end.

Definition matchCustomer (f : CustomerFilters) (u : IUser) : bool :=
  in_range_Z (f_userCreatedAt f) (user_createdAt u)
  && in_range_opt (f_lastOrderDate f) (lastOrderDate u)
  && in_range_Q (f_userTotalAmount f) (user_totalAmount u)
  && in_range_Q (f_orderCount f) (orderCount u)
  && match f_or f with
     | None => true
     | Some (re, orderIds) =>
         RegExp.test re (name u)
         || match lastOrder u with
            | Some id => bool_decide (id ∈ orderIds)
            | None => false
            end
     end.

Definition customerSortKey (field : string) (u : IUser) : Sort.key :=
  if String.eqb field "createdAt" then Sort.KNum (user_createdAt u)
  else if String.eqb field "totalAmount" then Sort.KNum (user_totalAmount u)
  else if String.eqb field "orderCount" then Sort.KNum (orderCount u)
  else if String.eqb field "lastOrderDate" then
    match lastOrderDate u with Some d => Sort.KNum d | None => Sort.KNull end
  else if String.eqb field "name" then Sort.KStr (name u)
  else Sort.KNull.

(** The [limit] option of [find]: zero means no limit. *)
Definition findLimit {A} (limit : Z) (l : list A) : list A :=
  if limit =? 0 then l else take (Z.to_nat limit) l.

Definition getCustomers (db : Db) (q : CustomersQuery) : outcome (Page IUser) :=
  finish (
    let page := safePage (c_page q) in
    let limit := safeLimit (c_limit q) in
    let field := safeSortField allowedCustomerSortFields (c_sortField q) in
    let order := safeSortOrder (c_sortOrder q) in
    filters ← customerFilters db q;
    let matching := filter (fun u => matchCustomer filters u = true) (db_users db) in
    let users :=
      findLimit limit
        (drop (Z.to_nat ((page - 1) * limit))
           (Sort.sort (customerSortKey field) (String.eqb order "desc") matching)) in
    let totalUsers := Z.of_nat (length matching) in
    mret (Send 200
      {| docs := users;
         pagination :=
           {| total := totalUsers;
              totalPages := JsNum.ceil_div totalUsers limit;
              currentPage := JsNum.of_Z page;
              pageSize := JsNum.of_Z limit |} |})).

(** The three handlers by id pass a CastError on as it is. *)
Definition castError (castMessage : string) : error :=
  OtherError "CastError" castMessage.

(** [getCustomerById]: [findById] without [orFail]; the body is the
    document or [null]. *)
Definition getCustomerById (db : Db) (id : IdParam) : outcome (option IUser) :=
  match id with
  | NotAnId m => Next (castError m)
  | IdOf id => Send 200 (findUserById (db_users db) id)
  end.

Definition customerNotFound : error :=
  NotFoundError "Пользователь по заданному id отсутствует в базе".

Definition applyPatch (patch : CustomerPatch) (u : IUser) : IUser :=
  {| user_id := user_id u;
     name := default (name u) (patch_name patch);
     user_createdAt := default (user_createdAt u) (patch_createdAt patch);
     lastOrderDate := default (lastOrderDate u) (patch_lastOrderDate patch);
     user_totalAmount := default (user_totalAmount u) (patch_totalAmount patch);
     orderCount := default (orderCount u) (patch_orderCount patch);
     user_orders := default (user_orders u) (patch_orders patch);
     lastOrder := default (lastOrder u) (patch_lastOrder patch) |}.

Definition withUsers (db : Db) (us : list IUser) : Db :=
  {| db_products := db_products db; db_orders := db_orders db; db_users := us |}.

(** [findByIdAndUpdate(id, req.body, { new: true }).orFail(...)]. *)
Definition updateCustomer (db : Db) (id : IdParam) (patch : CustomerPatch)
    : outcome IUser * Db :=
  match id with
  | NotAnId m => (Next (castError m), db)
  | IdOf id =>
      match findUserById (db_users db) id with
      | None => (Next customerNotFound, db)
      | Some u =>
          let updatedUser := applyPatch patch u in
          (Send 200 updatedUser,
           withUsers db
             (map (fun x => if N.eqb (user_id x) id then updatedUser else x)
                  (db_users db)))
      end
  end.

(** [findByIdAndDelete(id).orFail(...)]. *)
Definition deleteCustomer (db : Db) (id : IdParam) : outcome IUser * Db :=
  match id with
  | NotAnId m => (Next (castError m), db)
  | IdOf id =>
      match findUserById (db_users db) id with
      | None => (Next customerNotFound, db)
      | Some deletedUser =>
          (Send 200 deletedUser,
           withUsers db (filter (fun x => user_id x ≠ id) (db_users db)))
      end
  end.

End CustomersController.

(** ** controllers/upload.ts *)

(** [req.file], as the upload middleware leaves it. *)
Record File : Type := {
  file_size : option Z;
  file_path : string;
  file_filename : string;
  file_originalname : string;
}.

Inductive FsEvent : Type :=
| Unlink (path : string)          (* [fs.unlink(path)] *)
| ReadMetadata (path : string).   (* [sharp(path).metadata()] *)

(** The files on disk and the calls made so far, latest last. *)
Record Fs : Type := {
  fs_files : list string;
  fs_log : list FsEvent;
}.

Record Uploaded : Type := {
  fileName : string;
  originalName : string;
}.

(** [limits.fileSize] of the upload middleware (middlewares/file.ts). *)
Definition fileSizeLimit : Z := 10 * 1024 * 1024.

Section UploadController.
Context `{Runtime}.

Definition MIN_FILE_SIZE_BYTES : Z := 2 * 1024.
Definition MIN_FILE_SIZE_STRICT : Z := MIN_FILE_SIZE_BYTES + 1.

(** [fs.unlink(path).catch(() => {})]: the file is gone afterwards, and a
    failure is ignored. *)
Definition unlink (path : string) (fs : Fs) : Fs :=
  {| fs_files := filter (fun p => p ≠ path) (fs_files fs);
     fs_log := fs_log fs ++ [Unlink path] |}.

Definition readMetadata (path : string) (fs : Fs) : option Metadata * Fs :=
  (sharp_metadata path,
   {| fs_files := fs_files fs; fs_log := fs_log fs ++ [ReadMetadata path] |}).

(** A dimension is usable when it is neither missing nor zero. *)
Definition truthy_dim (d : option Z) : bool :=
  match d with Some z => negb (z =? 0) | None => false end.

(** [base.replace(/^\/+|\/+$/g, '')]. *)
Fixpoint stripLeadingSlashes (s : string) : string :=
  match s with
  | String "/"%char s' => stripLeadingSlashes s'
  | _ => s
  end.

Fixpoint stripTrailingSlashes (s : string) : string :=
  match s with
  | EmptyString => EmptyString
  | String c s' =>
      match stripTrailingSlashes s' with
      | EmptyString => if Ascii.eqb c "/" then EmptyString else String c EmptyString
      | t => String c t
      end
  end.

(** [v || rest] for a variable of the environment. *)
Definition orElse (v : option string) (rest : string) : string :=
  match v with
  | Some p => if JsString.truthy p then p else rest
  | None => rest
  end.

(** [process.env.UPLOAD_PATH || process.env.UPLOAD_PATH_TEMP || '']. *)
Definition uploadBase : string :=
  orElse UPLOAD_PATH (orElse UPLOAD_PATH_TEMP "").

Definition normalizedBase : string :=
  let base := uploadBase in
  if JsString.truthy base
  then "/" ++ stripTrailingSlashes (stripLeadingSlashes base)
  else "".

Definition uploadFile (file : option File) (fs : Fs) : outcome Uploaded * Fs :=
  match file with
  | None => (Next (BadRequestError "Файл не загружен"), fs)
  | Some file =>
      if default 0 (file_size file) <? MIN_FILE_SIZE_STRICT then
        let fs1 := if JsString.truthy (file_path file)
                   then unlink (file_path file) fs else fs in
        (Next (BadRequestError "Слишком маленький файл"), fs1)
      else
        match readMetadata (file_path file) fs with
        | (None, fs1) =>
            (Next (BadRequestError "Некорректное изображение"),
             unlink (file_path file) fs1)
        | (Some meta, fs1) =>
            if negb (truthy_dim (width meta)) || negb (truthy_dim (height meta))
            then (Next (BadRequestError "Некорректное изображение"),
                  unlink (file_path file) fs1)
            else
              (Send 201
                 {| fileName := normalizedBase ++ "/" ++ file_filename file;
                    originalName := file_originalname file |},
               fs1)
        end
  end.

End UploadController.

(** ** Words of the specification

    Definitions that follow the words of the specification, to state the
    properties against. *)

Section SpecWords.
Context `{Runtime}.

(** "the sum of catalog prices", one term per entry of [items], added in
    the order of the entries as numbers are added. *)
Definition catalogPrice (db : Db) (id : ObjectId) : Z :=
  default 0 (findProduct (db_products db) id ≫= price).

Definition catalogTotal (db : Db) (items : list ObjectId) : Z :=
  fold_left (fun a id => JsNum.add a (catalogPrice db id)) items 0.

(** An id that "resolves to a sellable product". *)
Definition sellable (db : Db) (id : ObjectId) : Prop :=
  ∃ p, findProduct (db_products db) id = Some p ∧ is_Some (price p).

(** The validation failures of [createOrder] that the specification lists. *)
Inductive ValidationFailure (db : Db) (body : OrderBody) : Prop :=
| ItemsNotArray :
    b_items body = None → ValidationFailure db body
| ItemsWrongSize items :
    b_items body = Some items →
    (length items = 0 ∨ 50 < length items)%nat →
    ValidationFailure db body
| PhoneInvalid :
    (∀ s, b_phone body = VString s → phonePattern (JsString.trim s) = false) →
    ValidationFailure db body
| ProductUnresolved items id :
    b_items body = Some items → id ∈ items →
    findProduct (db_products db) id = None →
    ValidationFailure db body
| ProductPriceNull items id p :
    b_items body = Some items → id ∈ items →
    findProduct (db_products db) id = Some p → price p = None →
    ValidationFailure db body
| TotalMismatch items :
    b_items body = Some items →
    b_total body ≠ VNumber (catalogTotal db items) →
    ValidationFailure db body.

(** The orders that the data pipeline returns on the pages [1..n], by
    identity. *)
Definition pagesOrderIds (base : list OrderRow) (field order : string)
    (limit : Z) (n : nat) : list ObjectId :=
  p ← seq 1 n;
  g_id <$> dataPipeline base field order (Z.of_nat p) limit.

(** "the number of distinct orders that would appear across all pages". *)
Definition distinctOrders (ids : list ObjectId) : Z :=
  Z.of_nat (length (remove_dups ids)).

End SpecWords.

(** ** A runtime for the examples

    [Number] on strings of decimal digits (anything else in the examples is
    not a numeric literal and gives NaN), [new Date] on [YYYY-MM-DD] (UTC
    midnight of that day), a server clock on UTC, a model that accepts
    every order and numbers the orders in sequence. *)

Module Example.

Fixpoint digitsValue (s : string) (acc : Z) : option Z :=
  match s with
  | EmptyString => Some acc
  | String c s' =>
      if is_digit c
      then digitsValue s' (10 * acc + (Z.of_nat (nat_of_ascii c) - 48))
      else None
  end.

Definition numberOfString (s : string) : jsnum :=
  match digitsValue s 0 with
  | Some z => JsNum.of_Z z
  | None => NaN
  end.

Definition number (v : qvalue) : jsnum :=
  match v with
  | QStr s => numberOfString s
  | QArr l => numberOfString (String.concat "," l)
  | QObj => NaN
  end.

(** Days from 1970-01-01 to the civil date [y-m-d]. *)
Definition daysFromCivil (y m d : Z) : Z :=
  let y' := if m <=? 2 then y - 1 else y in
  let era := y' / 400 in
  let yoe := y' - era * 400 in
  let mp := (m + 9) mod 12 in
  let doy := (153 * mp + 2) / 5 + d - 1 in
  let doe := yoe * 365 + yoe / 4 - yoe / 100 + doy in
  era * 146097 + doe - 719468.

(** [Date.UTC(y, m - 1, d, h, mi, s, ms)]. *)
Definition utc (y m d h mi s ms : Z) : Z :=
  daysFromCivil y m d * 86400000 + h * 3600000 + mi * 60000 + s * 1000 + ms.

Definition daysInMonth (y m : Z) : Z :=
  if m =? 2 then
    if ((y mod 4 =? 0) && negb (y mod 100 =? 0)) || (y mod 400 =? 0)
    then 29 else 28
  else if (m =? 4) || (m =? 6) || (m =? 9) || (m =? 11) then 30 else 31.

Definition dateParse (s : string) : option Z :=
  match s with
  | String y1 (String y2 (String y3 (String y4 (String "-"
      (String m1 (String m2 (String "-" (String d1 (String d2 EmptyString))))))))) =>
      y ← digitsValue (String y1 (String y2 (String y3 (String y4 EmptyString)))) 0;
      m ← digitsValue (String m1 (String m2 EmptyString)) 0;
      d ← digitsValue (String d1 (String d2 EmptyString)) 0;
      if (1 <=? m) && (m <=? 12) && (1 <=? d) && (d <=? daysInMonth y m)
      then Some (utc y m d 0 0 0 0)
      else None
  | _ => None
  end.

(** An engine that folds the Cyrillic letters as well, and for which the
    line feed is the only line terminator. *)
Definition engine : Matcher :=
  {| foldCase := fun c =>
       if ((1072 <=? c) && (c <=? 1103))%N then (c - 32)%N   (* а..я *)
       else if (c =? 1105)%N then 1025%N                           (* ё *)
       else c;
     lineTerminator := fun c => (c =? 10)%N |}.

(** Outside the fragment, the example engine knows the alternation of
    plain texts, each of which may be anchored at the start, at the end or
    at both, as in [ab|zz] and [^abc$]; it gives no meaning to other
    patterns. *)
Fixpoint alternatives (cur : string) (s : string) : list string :=
  match s with
  | EmptyString => [cur]
  | String c s' =>
      if Ascii.eqb c "|" then cur :: alternatives "" s'
      else alternatives (cur ++ String c "") s'
  end.

(** An alternative without its anchors, and whether it had them. *)
Definition unanchor (alt : string) : bool * bool * string :=
  let '(atStart, rest) :=
    match alt with
    | String "^"%char r => (true, r)
    | _ => (false, alt)
    end in
  match rev (list_ascii_of_string rest) with
  | "$"%char :: r => (atStart, true, string_of_list_ascii (rev r))
  | _ => (atStart, false, rest)
  end.

Definition matchAlternative (alt t : string) : bool :=
  let '(atStart, atEnd, text) := unanchor alt in
  let a := JsString.chars text in
  let u := JsString.chars t in
  match atStart, atEnd with
  | true, true =>
      JsString.prefix_chars (H:=engine) a u && (length a =? length u)%nat
  | true, false => JsString.prefix_chars (H:=engine) a u
  | false, true => JsString.prefix_chars (H:=engine) (rev a) (rev u)
  | false, false => JsString.contains_chars (H:=engine) a u
  end.

Definition otherRegExp (source : string) : checked (string -> bool) :=
  let alts := alternatives "" source in
  if forallb (fun alt => plainText (unanchor alt).2) alts
  then Pass (fun t => existsb (fun alt => matchAlternative alt t) alts)
  else Reject OutsideModel.

(** Text outside of tags. *)
Fixpoint stripTags (inTag : bool) (s : string) : string :=
  match s with
  | EmptyString => EmptyString
  | String c s' =>
      if inTag then stripTags (negb (Ascii.eqb c ">")) s'
      else if Ascii.eqb c "<" then stripTags true s'
      else String c (stripTags false s')
  end.

Definition generate (orders : list IOrder) (o : NewOrder) : Generated :=
  {| gen_id := 1000 + N.of_nat (length orders);
     gen_orderNumber := 1 + Z.of_nat (length orders);
     gen_status := "created";
     gen_createdAt := utc 2024 1 1 0 0 0 0 |}.

Definition runtime : Runtime :=
  {| matcher := engine;
     RegExp_other := otherRegExp;
     Number_ := number;
     Date_parse := dateParse;
     LocalTZA := 0;
     sanitizeHtml := stripTags false;
     Order_validate := fun _ => None;
     Order_generate := generate;
     sharp_metadata := fun _ => Some {| width := Some 640; height := Some 480 |};
     Number_cast := fun s => match numberOfString s with
                             | NaN => None
                             | n => Some n
                             end;
     UPLOAD_PATH := None;
     UPLOAD_PATH_TEMP := Some "temp" |}.

Definition product (id : ObjectId) (t : string) (p : option Z) : IProduct :=
  {| product_id := id; title := t; price := p |}.

Definition user (id : ObjectId) (n : string) (created : Z)
    (orders : list ObjectId) : IUser :=
  {| user_id := id; name := n; user_createdAt := created;
     lastOrderDate := None; user_totalAmount := 0; orderCount := 0;
     user_orders := orders; lastOrder := None |}.

Definition order (id : ObjectId) (number : Z) (created : Z)
    (ps : list ObjectId) (c : ObjectId) (amount : Z) : IOrder :=
  {| order_id := id; orderNumber := number; status := "created";
     totalAmount := amount; products := ps; customer := c;
     createdAt := created; deliveryAddress := "Main street 1";
     payment := "card"; phone := "+71234567890";
     email := "a@example.org"; comment := "" |}.

Definition body (items : list ObjectId) (total : jsval) : OrderBody :=
  {| b_address := "Main street 1"; b_payment := "card";
     b_phone := VString "+71234567890"; b_total := total;
     b_email := "a@example.org"; b_items := Some items;
     b_comment := None |}.

Definition noOrdersQuery : OrdersQuery :=
  {| q_page := None; q_limit := None; q_sortField := None; q_sortOrder := None;
     q_status := None; q_totalAmountFrom := None; q_totalAmountTo := None;
     q_orderDateFrom := None; q_orderDateTo := None; q_search := None |}.

Definition noCustomersQuery : CustomersQuery :=
  {| c_page := None; c_limit := None; c_sortField := None; c_sortOrder := None;
     c_registrationDateFrom := None; c_registrationDateTo := None;
     c_lastOrderDateFrom := None; c_lastOrderDateTo := None;
     c_totalAmountFrom := None; c_totalAmountTo := None;
     c_orderCountFrom := None; c_orderCountTo := None; c_search := None |}.

(** A catalog of two products priced 10 and 25, and one customer. *)
Definition shop : Db :=
  {| db_products := [product 1 "Lamp" (Some 10); product 2 "Chair" (Some 25)];
     db_orders := [];
     db_users := [user 7 "Ann" (utc 2023 1 1 12 0 0 0) []] |}.

(** One customer with one order of one product titled "abc"; the order and
    the customer are both dated 2023-01-01T23:59:59.998Z. *)
Definition archive : Db :=
  {| db_products := [product 3 "abc" (Some 10)];
     db_orders := [order 50 1 (utc 2023 1 1 23 59 59 998) [3%N] 7 10];
     db_users := [user 7 "Ann" (utc 2023 1 1 23 59 59 998) [50%N]] |}.

(** The same, dated 2023-01-02T00:00:00.000Z. *)
Definition archiveNextDay : Db :=
  {| db_products := [product 3 "abc" (Some 10)];
     db_orders := [order 50 1 (utc 2023 1 2 0 0 0 0) [3%N] 7 10];
     db_users := [user 7 "Ann" (utc 2023 1 2 0 0 0 0) [50%N]] |}.

(** Two orders of three products each. *)
Definition warehouse : Db :=
  {| db_products := [product 1 "Lamp" (Some 10); product 2 "Chair" (Some 25);
                     product 4 "Desk" (Some 40)];
     db_orders := [order 60 1 (utc 2023 3 2 0 0 0 0) [1%N; 2%N; 4%N] 7 75;
                   order 61 2 (utc 2023 3 1 0 0 0 0) [1%N; 2%N; 4%N] 7 75];
     db_users := [user 7 "Ann" (utc 2023 1 1 12 0 0 0) [60%N; 61%N]] |}.

(** U+00A0, the no-break space. *)
Definition nbsp : string := String "194" (String "160" "").

(** A catalog priced 2^53 and 1, with one customer. *)
Definition treasury : Db :=
  {| db_products := [product 1 "Vault" (Some (2 ^ 53)); product 2 "Key" (Some 1)];
     db_orders := [];
     db_users := [user 7 "Ann" (utc 2023 1 1 12 0 0 0) []] |}.

(** Two customers; the one order is Ann's. *)
Definition neighbours : Db :=
  {| db_products := [product 3 "abc" (Some 10)];
     db_orders := [order 50 1 (utc 2023 1 1 23 59 59 998) [3%N] 7 10];
     db_users := [user 7 "Ann" (utc 2023 1 1 23 59 59 998) [50%N];
                  user 8 "Bob" (utc 2023 2 1 0 0 0 0) []] |}.

(** A catalog with a Cyrillic title: one lamp, ordered once, and a chair
    that nobody ordered. *)
Definition lamps : Db :=
  {| db_products := [product 5 "Лампа настольная" (Some 30);
                     product 2 "Chair" (Some 25)];
     db_orders := [order 70 3 (utc 2023 5 1 0 0 0 0) [5%N] 7 30];
     db_users := [user 7 "Иван" (utc 2023 1 1 12 0 0 0) [70%N];
                  user 8 "Bob" (utc 2023 2 1 0 0 0 0) []] |}.

Definition customersSearch (search : string) : CustomersQuery :=
  {| c_page := None; c_limit := None; c_sortField := None; c_sortOrder := None;
     c_registrationDateFrom := None; c_registrationDateTo := None;
     c_lastOrderDateFrom := None; c_lastOrderDateTo := None;
     c_totalAmountFrom := None; c_totalAmountTo := None;
     c_orderCountFrom := None; c_orderCountTo := None;
     c_search := Some (QStr search) |}.

Definition userOrdersQuery (search limit : option qvalue) : UserOrdersQuery :=
  {| uq_search := search; uq_page := None; uq_limit := limit |}.

Definition ordersQuery (limit orderDateTo search : option qvalue) : OrdersQuery :=
  {| q_page := None; q_limit := limit; q_sortField := None; q_sortOrder := None;
     q_status := None; q_totalAmountFrom := None; q_totalAmountTo := None;
     q_orderDateFrom := None; q_orderDateTo := orderDateTo; q_search := search |}.

Definition customersQuery (limit registrationDateTo : option qvalue)
    : CustomersQuery :=
  {| c_page := None; c_limit := limit; c_sortField := None; c_sortOrder := None;
     c_registrationDateFrom := None; c_registrationDateTo := registrationDateTo;
     c_lastOrderDateFrom := None; c_lastOrderDateTo := None;
     c_totalAmountFrom := None; c_totalAmountTo := None;
     c_orderCountFrom := None; c_orderCountTo := None; c_search := None |}.

End Example.

(** ** controllers/order.ts: the handlers by number and by id *)

(** The first element that satisfies [P], replaced or removed: what
    [findOneAndUpdate] and [findByIdAndDelete] do to a collection. *)
Fixpoint updateFirst {A} (P : A -> bool) (f : A -> A) (l : list A) : list A :=
  match l with
  | [] => []
  | x :: l' => if P x then f x :: l' else x :: updateFirst P f l'
  end.

Fixpoint removeFirst {A} (P : A -> bool) (l : list A) : list A :=
  match l with
  | [] => []
  | x :: l' => if P x then l' else x :: removeFirst P l'
  end.

Definition withOrders (db : Db) (os : list IOrder) : Db :=
  {| db_products := db_products db; db_orders := os; db_users := db_users db |}.

(** [{ status }] applied to a document. *)
Definition withStatus (s : string) (o : IOrder) : IOrder :=
  {| order_id := order_id o;
     orderNumber := orderNumber o;
     status := s;
     totalAmount := totalAmount o;
     products := products o;
     customer := customer o;
     createdAt := createdAt o;
     deliveryAddress := deliveryAddress o;
     payment := payment o;
     phone := phone o;
     email := email o;
     comment := comment o |}.

Section OrderByKey.
Context `{Runtime}.

(** The update validator of the Order schema for [status]: the message of
    the ValidationError, if any. *)
Variable statusError : string -> option string.

(** [getOrderByNumber]: no check of the customer. *)
Definition getOrderByNumber (db : Db) (orderNumberParam : string)
    : outcome IOrder :=
  match Number_cast orderNumberParam with
  | None => Next (BadRequestError "Передан не валидный ID заказа")
  | Some n =>
      match findOrderByNumber (db_orders db) n with
      | None => Next orderNotFound
      | Some order => Send 200 order
      end
  end.

(** [updateOrder], for a body whose [status] is a string.  The query casts
    its filter, then runs the validators, then updates the first order
    with the number; [orFail] turns no order into NotFound. *)
Definition updateOrder (db : Db) (orderNumberParam : string) (newStatus : string)
    : outcome IOrder * Db :=
  match Number_cast orderNumberParam with
  | None => (Next (BadRequestError "Передан не валидный ID заказа"), db)
  | Some n =>
      match statusError newStatus with
      | Some message => (Next (BadRequestError message), db)
      | None =>
          match findOrderByNumber (db_orders db) n with
          | None => (Next orderNotFound, db)
          | Some order =>
              (Send 200 (withStatus newStatus order),
               withOrders db
                 (updateFirst (fun o => JsNum.eqb_Z (orderNumber o) n)
                              (withStatus newStatus) (db_orders db)))
          end
      end
  end.

(** [deleteOrder]: [findByIdAndDelete(req.params.id).orFail(...)]; a
    CastError becomes a BadRequestError. *)
Definition deleteOrder (db : Db) (id : IdParam) : outcome IOrder * Db :=
  match id with
  | NotAnId _ => (Next (BadRequestError "Передан не валидный ID заказа"), db)
  | IdOf id =>
      match findOrderById (db_orders db) id with
      | None => (Next orderNotFound, db)
      | Some deletedOrder =>
          (Send 200 deletedOrder,
           withOrders db
             (removeFirst (fun o => N.eqb (order_id o) id) (db_orders db)))
      end
  end.

End OrderByKey.

(** ** middlewares/file.ts *)

Module FileMiddleware.

Definition types : gset string :=
  {[ "image/png"; "image/jpg"; "image/jpeg"; "image/gif"; "image/svg+xml" ]}.

(** [fileFilter]: whether the file is taken. *)
Definition fileFilter (mimetype : string) : bool :=
  bool_decide (mimetype ∈ types).

Definition allowedExt : gset string :=
  {[ ".png"; ".jpg"; ".jpeg"; ".gif"; ".svg" ]}.

(** [String.prototype.toLowerCase], ASCII range. *)
Definition lowerChar (c : ascii) : ascii :=
  let n := nat_of_ascii c in
  if ((65 <=? n) && (n <=? 90))%nat then ascii_of_nat (n + 32) else c.

Fixpoint toLowerCase (s : string) : string :=
  match s with
  | EmptyString => EmptyString
  | String c s' => String (lowerChar c) (toLowerCase s')
  end.

(** [path.extname] (POSIX): the scan runs from the last character to the
    first; [scanned] holds the characters not yet read, last first, so the
    index of its head is the length of its tail. *)
Record ExtState : Type := {
  startDot : option nat;
  startPart : nat;
  endPos : option nat;
  matchedSlash : bool;
  preDotState : Z;
}.

Fixpoint extnameScan (scanned : list ascii) (st : ExtState) : ExtState :=
  match scanned with
  | [] => st
  | c :: rest =>
      let i := length rest in
      if Ascii.eqb c "/" then
        if negb (matchedSlash st)
        then {| startDot := startDot st; startPart := i + 1; endPos := endPos st;
                matchedSlash := matchedSlash st; preDotState := preDotState st |}
        else extnameScan rest st
      else
        let st1 :=
          match endPos st with
          | None => {| startDot := startDot st; startPart := startPart st;
                       endPos := Some (i + 1)%nat; matchedSlash := false;
                       preDotState := preDotState st |}
          | Some _ => st
          end in
        let st2 :=
          if Ascii.eqb c "." then
            match startDot st1 with
            | None => {| startDot := Some i; startPart := startPart st1;
                         endPos := endPos st1; matchedSlash := matchedSlash st1;
                         preDotState := preDotState st1 |}
            | Some _ => {| startDot := startDot st1; startPart := startPart st1;
                           endPos := endPos st1; matchedSlash := matchedSlash st1;
                           preDotState := 1 |}
            end
          else
            match startDot st1 with
            | Some _ => {| startDot := startDot st1; startPart := startPart st1;
                           endPos := endPos st1; matchedSlash := matchedSlash st1;
                           preDotState := -1 |}
            | None => st1
            end in
        extnameScan rest st2
  end.

Definition extname (path : string) : string :=
  let st := extnameScan (rev (list_ascii_of_string path))
              {| startDot := None; startPart := 0%nat; endPos := None;
                 matchedSlash := true; preDotState := 0 |} in
  match startDot st, endPos st with
  | Some d, Some e =>
      if (preDotState st =? 0)
         || ((preDotState st =? 1) && (d =? e - 1)%nat && (d =? startPart st + 1)%nat)
      then ""
      else String.substring d (e - d) path
  | _, _ => ""
  end.

(** [buffer.toString('hex')]: two digits for each byte. *)
Fixpoint toHex (bytes : list N) : string :=
  match bytes with
  | [] => ""
  | b :: bytes' => hexDigits 2 b ++ toHex bytes'
  end.

(** [filename] of the disk storage; [randomBytes] is what
    [crypto.randomBytes(16)] returns. *)
Definition filename (randomBytes : list N) (originalname : string)
    : checked string :=
  let ext := toLowerCase (extname originalname) in
  if bool_decide (ext ∈ allowedExt)
  then Pass (toHex randomBytes ++ ext)
  else Reject (OtherError "Error" "Недопустимое расширение").

End FileMiddleware.

(** ** Predicates for the properties of the pipelines *)

(** The group [g] has the scalar fields and the customer of the row [r]. *)
Definition groupHeader (r : OrderRow) (g : GroupedOrder) : Prop :=
  g_id g = order_id (row_order r)
  ∧ g_orderNumber g = orderNumber (row_order r)
  ∧ g_status g = status (row_order r)
  ∧ g_totalAmount g = totalAmount (row_order r)
  ∧ g_createdAt g = createdAt (row_order r)
  ∧ g_customer g = row_customer r.

(** The group [g] is made of rows of [rows]: its header is one of them, it
    has a product, and each of its products is the product of a row of its
    order. *)
Definition groupFromRows (rows : list OrderRow) (g : GroupedOrder) : Prop :=
  (∃ r, r ∈ rows ∧ groupHeader r g)
  ∧ g_products g ≠ []
  ∧ ∀ p, p ∈ g_products g →
      ∃ r, r ∈ rows ∧ order_id (row_order r) = g_id g ∧ row_product r = p.

(** The number of products listed on a page. *)
Definition productsListed (gs : list GroupedOrder) : nat :=
  sum_list (length <$> (g_products <$> gs)).

(** The group [g] shows the order [o] of the database. *)
Definition groupOfOrder (o : IOrder) (g : GroupedOrder) : Prop :=
  g_id g = order_id o
  ∧ g_orderNumber g = orderNumber o
  ∧ g_status g = status o
  ∧ g_totalAmount g = totalAmount o
  ∧ g_createdAt g = createdAt o
  ∧ user_id (g_customer g) = customer o.

(** * Properties *)

(** ** The search matcher *)

Section RegExpFacts.
Import RegExp.

Lemma not_syntax (c : N) :
  is_syntax c = false →
  N.eqb c 92 = false ∧ quant_of c = None ∧ N.eqb c 46 = false.
Proof.
  unfold is_syntax, quant_of. intros Hc.
  let l := eval vm_compute in syntax_chars in change syntax_chars with l in Hc.
  cbn [existsb] in Hc. repeat (apply orb_false_elim in Hc as [? Hc]).
  repeat match goal with
         | E : N.eqb c _ = false |- _ => rewrite E; clear E
         end.
  done.
Qed.

Lemma syntax_ascii (c : N) : is_syntax c = true → (c < 128)%N.
Proof.
  unfold is_syntax. intros Hc.
  let l := eval vm_compute in syntax_chars in change syntax_chars with l in Hc.
  cbn [existsb] in Hc.
  repeat (apply orb_prop in Hc as [Hc|Hc];
          [apply N.eqb_eq in Hc; subst c; by vm_compute|]).
  done.
Qed.

(** Compiling an escaped text gives the literal pattern of the text,
    whatever was read before. *)
Lemma compile_go_escape (l : list N) : ∀ quantified last acc,
  compile_go (escape_chars l) false quantified last acc
  = Compiled (rev (flush last acc) ++ literal_chars l)%list.
Proof.
  induction l as [|c l IH]; intros quantified last acc; cbn [escape_chars].
  - cbn. by rewrite app_nil_r.
  - destruct (is_syntax c) eqn:Hc.
    + cbn [compile_go]. change (N.eqb 92 92) with true. cbn match.
      rewrite Hc, IH. cbn [flush literal_chars rev]. by rewrite <- app_assoc.
    + destruct (not_syntax c Hc) as (Hb & Hq & Hd).
      cbn [compile_go]. rewrite Hb, Hq, Hd, Hc, IH.
      cbn [flush literal_chars rev]. by rewrite <- app_assoc.
Qed.

(** A run of bytes outside ASCII gives no ASCII character. *)
Lemma decodeRun_not_ascii (bs : list N) :
  Forall (fun c => (128 <= c)%N) (JsString.decodeRun bs).
Proof.
  remember (List.length bs) as n eqn:Hn.
  assert (List.length bs ≤ n)%nat as Hlen by lia. clear Hn.
  revert bs Hlen. induction n as [|n IH]; intros bs Hlen.
  { destruct bs; [constructor | cbn in Hlen; lia]. }
  destruct bs as [|b0 r]; [constructor|]. cbn [JsString.decodeRun].
  revert IH. generalize JsString.decodeRun as f. intros f IH.
  destruct r as [|b1 [|b2 [|b3 r3]]]; cbn zeta;
    repeat match goal with
    | |- Forall _ (if ?b then _ else _) => destruct b eqn:?
    | |- Forall _ (_ :: _) => constructor
    | |- Forall _ [] => constructor
    | |- Forall _ (f _) => apply IH; cbn [List.length] in *; lia
    | |- (128 <= JsString.replacement)%N => by vm_compute
    | E : _ && _ = true |- _ => apply andb_prop in E as [? ?]
    | E : (_ <=? _)%N = true |- _ => apply N.leb_le in E
    end; lia.
Qed.

Lemma escape_chars_app (l k : list N) :
  escape_chars (l ++ k) = (escape_chars l ++ escape_chars k)%list.
Proof.
  induction l as [|c l IH]; [done|]. cbn [app escape_chars].
  destruct (is_syntax c); cbn [app]; by rewrite IH.
Qed.

Lemma escape_chars_not_ascii (l : list N) :
  Forall (fun c => (128 <= c)%N) l → escape_chars l = l.
Proof.
  induction 1 as [|c l Hc _ IH]; [done|]. cbn [escape_chars].
  destruct (is_syntax c) eqn:Hs; [|by rewrite IH].
  apply syntax_ascii in Hs. lia.
Qed.

(** Escaping the bytes of a text escapes its characters. *)
Lemma chars_go_escapeRegex (s : string) : ∀ run,
  JsString.chars_go run (escapeRegex s)
  = escape_chars (JsString.chars_go run s).
Proof.
  induction s as [|c s IH]; intros run; cbn [escapeRegex JsString.chars_go].
  - symmetry. apply escape_chars_not_ascii, decodeRun_not_ascii.
  - unfold is_syntax_char. destruct (is_syntax (N_of_ascii c)) eqn:Hs.
    + pose proof (syntax_ascii _ Hs) as Hlt. apply N.ltb_lt in Hlt.
      cbn [JsString.chars_go]. change (N_of_ascii "\" <? 128)%N with true.
      cbn match. rewrite Hlt. cbn [rev JsString.decodeRun app].
      rewrite escape_chars_app,
        (escape_chars_not_ascii _ (decodeRun_not_ascii _)).
      cbn [escape_chars]. rewrite Hs, IH. done.
    + cbn [JsString.chars_go]. destruct (N_of_ascii c <? 128)%N; [|apply IH].
      rewrite escape_chars_app,
        (escape_chars_not_ascii _ (decodeRun_not_ascii _)).
      cbn [escape_chars]. by rewrite Hs, IH.
Qed.

Lemma compile_escapeRegex s :
  compile (escapeRegex s) = Compiled (literal s).
Proof.
  unfold compile, literal, JsString.chars.
  by rewrite chars_go_escapeRegex, compile_go_escape.
Qed.

Context `{Matcher}.

Lemma match_here_literal (s : list N) : ∀ t,
  match_here (literal_chars s) t = JsString.prefix_chars s t.
Proof.
  induction s as [|c s IH]; intros t; [done|].
  destruct t as [|b t]; cbn; [done|]. by rewrite IH.
Qed.

Lemma test_literal s t :
  test (literal s) t = JsString.contains_ci s t.
Proof.
  unfold test, literal, JsString.contains_ci.
  induction (JsString.chars t) as [|b u IH];
    cbn [test_chars JsString.contains_chars];
    rewrite match_here_literal; [done|]. by rewrite IH.
Qed.

End RegExpFacts.

(** The search predicate of [getOrders] and [getCustomers] is the literal
    pattern of the search text: on a text field it is a case-insensitive
    substring test. *)
Lemma searchRegex_literal (s : string) :
  searchRegex s = Pass (RegExp.literal s).
Proof.
  unfold searchRegex, escapeRegExp. by rewrite compile_escapeRegex.
Qed.

Lemma searchRegex_contains `{Matcher} (s t : string) :
  ∃ re, searchRegex s = Pass re ∧ RegExp.test re t = JsString.contains_ci s t.
Proof.
  exists (RegExp.literal s). split; [apply searchRegex_literal | apply test_literal].
Qed.

(** The search stage of [getOrders] keeps a row when the product title
    contains the text, or when the text is a number and the order has that
    number. *)
Lemma searchStage_literal `{Runtime} (s : string) :
  JsString.truthy s = true →
  ∃ cond, searchStage (Some s) = Pass cond
    ∧ ∀ r, cond r
           = JsString.contains_ci s (title (row_product r))
             || (negb (JsNum.isNaN (Number_ (QStr s)))
                 && JsNum.eqb_Z (orderNumber (row_order r)) (Number_ (QStr s))).
Proof.
  intros Hs. unfold searchStage. rewrite Hs, searchRegex_literal. cbn.
  eexists. split; [reflexivity|]. intros r. cbn. by rewrite test_literal.
Qed.

(** The search of [getCustomers] uses the literal pattern for the name and
    for the delivery addresses. *)
Lemma customerSearch_literal `{Runtime} (db : Db) (s : string) :
  JsString.truthy s = true →
  customerSearch db (Some s)
  = Pass (Some (RegExp.literal s, ordersByAddress db (RegExp.literal s))).
Proof.
  intros Hs. unfold customerSearch. by rewrite Hs, searchRegex_literal.
Qed.

(** The example of the specification, on the sanitizing handlers: the
    search text [a.b*c] does not match [aXbYYc]. *)
Example search_literal_example `{Matcher} :
  ∃ re, searchRegex "a.b*c" = Pass re ∧ RegExp.test re "aXbYYc" = false
        ∧ RegExp.test re "xxA.B*Cxx" = true.
Proof. eexists. split; [apply searchRegex_literal | done]. Qed.

(** C2, on [getOrdersCurrentUser]: the search text is compiled as it comes.
    The text [a.c] does not occur in the title [abc], and the order whose
    only product has that title is returned all the same; the text [+1] is
    not a pattern at all and the request ends in a SyntaxError. *)
Theorem getOrdersCurrentUser_search_is_pattern `{Runtime} :
  JsString.contains_ci "a.c" "abc" = false
  ∧ (∃ r, getOrdersCurrentUser Example.archive 7
            (Example.userOrdersQuery (Some (QStr "a.c")) None) = Send 200 r
          ∧ uo_filtered r = db_orders Example.archive
          ∧ uo_totalOrders r = 1)
  ∧ getOrdersCurrentUser Example.archive 7
      (Example.userOrdersQuery (Some (QStr "+1")) None)
    = Next (OtherError "SyntaxError" "Nothing to repeat").
Proof.
  split; [done|]. split; [|done].
  exists {| uo_filtered := db_orders Example.archive; uo_totalOrders := 1;
            uo_currentPage := JsNum.of_Z 1; uo_pageSize := JsNum.of_Z 5 |}.
  split; [|done].
  unfold getOrdersCurrentUser, searchOrders; cbn.
  destruct (negb (JsNum.isNaN _) && JsNum.eqb_Z _ _); reflexivity.
Qed.

(** ** The page size *)

Section PageSize.
Context `{Runtime}.

Lemma Qle_bool_false (a b : Q) : Qle_bool a b = false ↔ (b < a)%Q.
Proof.
  rewrite <- not_true_iff_false, Qle_bool_iff. split.
  - apply Qnot_le_lt.
  - apply Qlt_not_le.
Qed.

(** What [safeLimit] computes from the number [Number(limit)]. *)
Lemma safeLimit_cases (limit : option qvalue) :
  match Number_or 10 limit with
  | Finite q =>
      ((q <= 0)%Q → safeLimit limit = 10)
      ∧ ((0 < q)%Q → (q <= 10)%Q → safeLimit limit = Qfloor q)
      ∧ ((10 < q)%Q → safeLimit limit = 10)
  | NaN | PosInf | NegInf => safeLimit limit = 10
  end.
Proof.
  unfold safeLimit. destruct (Number_or 10 limit) as [| | |q]; try done.
  cbn [JsNum.isFinite JsNum.gtb JsNum.floor andb]. unfold MAX_LIMIT.
  split; [|split].
  - intros Hq. apply Qle_bool_iff in Hq.
    change (inject_Z 0) with 0%Q. by rewrite Hq.
  - intros H0 H10. apply Qle_bool_false in H0.
    change (inject_Z 0) with 0%Q. rewrite H0. cbn.
    apply Z.min_l. change 10 with (Qfloor (inject_Z 10)).
    by apply Qfloor_resp_le.
  - intros H10.
    assert (0 < q)%Q as H0 by (eapply Qlt_trans; [|exact H10]; done).
    apply Qle_bool_false in H0.
    change (inject_Z 0) with 0%Q. rewrite H0. cbn.
    apply Z.min_r. change 10 with (Qfloor (inject_Z 10)).
    apply Qfloor_resp_le. by apply Qlt_le_weak.
Qed.

(** The ceiling holds for every request. *)
Lemma safeLimit_le_MAX_LIMIT (limit : option qvalue) :
  safeLimit limit <= MAX_LIMIT.
Proof.
  unfold safeLimit, MAX_LIMIT.
  destruct (_ && _); [apply Z.le_min_r | done].
Qed.

(** A limit between 0 and 1 is floored to 0, which [find] reads as no
    limit. *)
Lemma safeLimit_below_one (limit : option qvalue) (q : Q) :
  Number_or 10 limit = Finite q → (0 < q)%Q → (q < 1)%Q →
  safeLimit limit = 0.
Proof.
  intros Hn H0 H1. pose proof (safeLimit_cases limit) as Hc.
  rewrite Hn in Hc. destruct Hc as (_ & Hc & _).
  rewrite Hc; [|done|].
  - assert (Qfloor q < 1) as Hlt.
    { rewrite Zlt_Qlt. eapply Qle_lt_trans; [apply Qfloor_le|done]. }
    assert (0 <= Qfloor q) as Hge.
    { change 0 with (Qfloor (inject_Z 0)). apply Qfloor_resp_le.
      by apply Qlt_le_weak. }
    lia.
  - apply Qlt_le_weak. eapply Qlt_trans; [exact H1|done].
Qed.

Lemma findLimit_zero {A} (l : list A) : findLimit 0 l = l.
Proof. reflexivity. Qed.

(** [getOrders] and [getCustomers] report [safeLimit]. *)
Lemma getOrders_pageSize (db : Db) (q : OrdersQuery) st page :
  getOrders db q = Send st page →
  pageSize (pagination page) = JsNum.of_Z (safeLimit (q_limit q)).
Proof.
  unfold getOrders, finish.
  destruct (safeSearch _); cbn; [|done].
  destruct (orderFilters q); cbn; [|done].
  destruct (searchStage _); cbn; [|done].
  destruct (_ =? 0); cbn; [done|].
  by intros [= <- <-].
Qed.

Lemma getCustomers_pageSize (db : Db) (q : CustomersQuery) st page :
  getCustomers db q = Send st page →
  pageSize (pagination page) = JsNum.of_Z (safeLimit (c_limit q)).
Proof.
  unfold getCustomers, finish.
  destruct (customerFilters db q); cbn; [|done].
  by intros [= <- <-].
Qed.

End PageSize.

(** C3, on [getOrdersCurrentUser]: [limit] is used as it comes.  For
    [limit=100] the handlers that sanitize report a page size of 10, and
    [getOrdersCurrentUser] reports 100. *)
Theorem getOrdersCurrentUser_limit_unclamped :
  (∃ page, getOrders (H:=Example.runtime) Example.archive
             (Example.ordersQuery (Some (QStr "100")) None None) = Send 200 page
           ∧ pageSize (pagination page) = JsNum.of_Z 10)
  ∧ (∃ page, getCustomers (H:=Example.runtime) Example.archive
               (Example.customersQuery (Some (QStr "100")) None) = Send 200 page
             ∧ pageSize (pagination page) = JsNum.of_Z 10)
  ∧ (∃ r, getOrdersCurrentUser (H:=Example.runtime) Example.archive 7
            (Example.userOrdersQuery None (Some (QStr "100"))) = Send 200 r
          ∧ uo_pageSize r = JsNum.of_Z 100).
Proof. repeat split; eexists; split; reflexivity. Qed.

(** ** Upper bounds on dates *)

Section DateBounds.
Context `{Runtime}.

(** On a server whose clock is on UTC, [setHours(23, 59, 59, 999)] gives
    the last millisecond of the UTC day of the date. *)
Lemma setHours_utc (d : Z) :
  LocalTZA = 0 →
  setHours_23_59_59_999 d = d / msPerDay * msPerDay + 86399999.
Proof. unfold setHours_23_59_59_999. intros ->. rewrite Z.add_0_r. lia. Qed.

Lemma setHours_utc_midnight (day : Z) :
  LocalTZA = 0 →
  setHours_23_59_59_999 (day * msPerDay) = day * msPerDay + 86399999.
Proof.
  intros Hutc. rewrite (setHours_utc _ Hutc).
  unfold msPerDay. by rewrite Z.div_mul.
Qed.

(** With that bound, the instants kept are those before the next
    midnight. *)
Lemma end_of_day_bound (day v : Z) :
  LocalTZA = 0 →
  v <= setHours_23_59_59_999 (day * msPerDay) ↔ v < (day + 1) * msPerDay.
Proof.
  intros Hutc. rewrite (setHours_utc_midnight _ Hutc). unfold msPerDay. lia.
Qed.

(** [getCustomers] stores the end of the day as the upper bound of
    [createdAt]; [getOrders] stores the date as it is parsed. *)
Lemma registrationDateTo_bound (r : Range Z) (s : string) (d : Z) :
  Date_parse s = Some d →
  dateBound "registrationDateTo" r (Some (QStr s)) setHours_23_59_59_999 with_lte
  = Pass (with_lte r (setHours_23_59_59_999 d)).
Proof. unfold dateBound. by intros ->. Qed.

Lemma orderDateTo_bound (r : Range Z) (s : string) (d : Z) :
  Date_parse s = Some d →
  dateBound "orderDateTo" r (Some (QStr s)) id with_lte = Pass (with_lte r d).
Proof. unfold dateBound. by intros ->. Qed.

End DateBounds.

(** The same date on a server three hours east of UTC: the bound is
    2023-01-01T20:59:59.999Z. *)
Example setHours_utc_plus_3 :
  setHours_23_59_59_999
    (H := {| matcher := Example.engine;
             RegExp_other := fun _ => Reject OutsideModel;
             Number_ := Example.number; Date_parse := Example.dateParse;
             LocalTZA := 3 * 3600000;
             sanitizeHtml := Example.stripTags false;
             Order_validate := fun _ => None;
             Order_generate := Example.generate;
             sharp_metadata := fun _ => None;
             Number_cast := fun _ => None;
             UPLOAD_PATH := None; UPLOAD_PATH_TEMP := None |})
    (Example.utc 2023 1 1 0 0 0 0)
  = Example.utc 2023 1 1 20 59 59 999.
Proof. reflexivity. Qed.

(** C4, on [getOrders]: [orderDateTo] is compared as it is parsed, the
    start of the day.  With the upper bound 2023-01-01 on a UTC server,
    [getCustomers] returns the customer registered at
    2023-01-01T23:59:59.998Z and not the one registered at
    2023-01-02T00:00:00.000Z; [getOrders] leaves out the order created at
    2023-01-01T23:59:59.998Z. *)
Theorem getOrders_orderDateTo_start_of_day :
  (∃ page, getCustomers (H:=Example.runtime) Example.archive
             (Example.customersQuery None (Some (QStr "2023-01-01")))
           = Send 200 page
           ∧ docs page = db_users Example.archive
           ∧ total (pagination page) = 1)
  ∧ (∃ page, getCustomers (H:=Example.runtime) Example.archiveNextDay
               (Example.customersQuery None (Some (QStr "2023-01-01")))
             = Send 200 page
             ∧ docs page = [] ∧ total (pagination page) = 0)
  ∧ (∃ page, getOrders (H:=Example.runtime) Example.archive
               (Example.ordersQuery None (Some (QStr "2023-01-01")) None)
             = Send 200 page
             ∧ docs page = [] ∧ total (pagination page) = 0)
  ∧ (∃ page, getOrders (H:=Example.runtime) Example.archive
               (Example.ordersQuery None None None)
             = Send 200 page
             ∧ g_id <$> docs page = [50%N] ∧ total (pagination page) = 1).
Proof. repeat split; eexists; (split; [reflexivity|]); split; reflexivity. Qed.

(** ** Orders of other customers *)

(** C8, on [getOrderCurrentUserByNumber]: the order of a customer that
    was deleted.  [deleteCustomer] leaves the orders of the customer in
    the collection; when another user then asks for such an order, the
    customer it references resolves to nothing, reading its identity
    throws, and the request ends in a TypeError with status 500, where a
    number that no order has gives NotFound with status 404.  Before
    the deletion the same request was answered with that NotFound. *)
Theorem getOrderCurrentUserByNumber_deleted_customer :
  ∃ ann db',
    deleteCustomer Example.neighbours 7 = (Send 200 ann, db')
    ∧ db_orders db' = db_orders Example.neighbours
    ∧ (∃ o, findOrderByNumber (db_orders db') (JsNum.of_Z 1) = Some o
            ∧ customer o ≠ 8%N)
    ∧ getOrderCurrentUserByNumber (H:=Example.runtime) Example.neighbours 8 "1"
      = Next orderNotFound
    ∧ getOrderCurrentUserByNumber (H:=Example.runtime) db' 8 "1"
      = Next (OtherError "TypeError"
                "Cannot read properties of null (reading '_id')")
    ∧ getOrderCurrentUserByNumber (H:=Example.runtime) db' 8 "2"
      = Next orderNotFound
    ∧ statusCode (OtherError "TypeError"
                    "Cannot read properties of null (reading '_id')") = 500
    ∧ statusCode orderNotFound = 404.
Proof.
  do 2 eexists. split; [reflexivity|]. split_and!; try done.
  eexists. split; [reflexivity|]. done.
Qed.

(** The owner gets the order. *)
Example getOrderCurrentUserByNumber_owner :
  ∃ o, getOrderCurrentUserByNumber (H:=Example.runtime) Example.archive 7 "1"
       = Send 200 o ∧ order_id o = 50%N.
Proof. eexists. split; reflexivity. Qed.

(** ** Customers by id *)

(** C9.  For an id that no user has, [getCustomerById] sends status 200
    with a null body, and [updateCustomer] and [deleteCustomer] fail with
    NotFound and leave the database as it is. *)
Theorem customer_by_id_not_found_policies
    (db : Db) (id : ObjectId) (patch : CustomerPatch) :
  findUserById (db_users db) id = None →
  getCustomerById db id = Send 200 None
  ∧ updateCustomer db id patch = (Next customerNotFound, db)
  ∧ deleteCustomer db id = (Next customerNotFound, db)
  ∧ statusCode customerNotFound = 404.
Proof.
  intros Hid. unfold getCustomerById, updateCustomer, deleteCustomer.
  by rewrite Hid.
Qed.

Lemma customer_by_id_not_found_policies_witness :
  getCustomerById Example.shop 9 = Send 200 None
  ∧ updateCustomer Example.shop 9
      {| patch_name := Some "Bob"; patch_createdAt := None;
         patch_lastOrderDate := None; patch_totalAmount := None;
         patch_orderCount := None; patch_orders := None;
         patch_lastOrder := None |}
    = (Next customerNotFound, Example.shop)
  ∧ deleteCustomer Example.shop 9
    = (Next customerNotFound, Example.shop)
  ∧ statusCode customerNotFound = 404.
Proof.
  apply (customer_by_id_not_found_policies Example.shop 9%N). reflexivity.
Defined.

(** ** Uploads *)

(** C10.  A file of at most 2048 bytes is rejected with BadRequest; its
    temporary file is unlinked and is not on disk afterwards, and the only
    call made is that [unlink]: the metadata of the image is not read. *)
Theorem uploadFile_rejects_small_files `{Runtime} (file : File) (fs : Fs) :
  default 0 (file_size file) <= 2048 →
  file_path file ≠ "" →
  ∃ fs',
    uploadFile (Some file) fs
    = (Next (BadRequestError "Слишком маленький файл"), fs')
    ∧ (file_path file ∉ fs_files fs')
    ∧ fs_log fs' = (fs_log fs ++ [Unlink (file_path file)])%list.
Proof.
  intros Hsize Hpath. unfold uploadFile, MIN_FILE_SIZE_STRICT, MIN_FILE_SIZE_BYTES.
  destruct (Z.ltb_spec (default 0 (file_size file)) (2 * 1024 + 1)) as [_|?]; [|lia].
  destruct (file_path file) as [|c p] eqn:Hp; [done|]. cbn [JsString.truthy].
  eexists. split; [reflexivity|]. split; [|done].
  cbn. rewrite list_elem_of_filter. by intros [Hne _].
Qed.

Lemma uploadFile_rejects_small_files_witness :
  ∃ fs',
    uploadFile (H:=Example.runtime)
      (Some {| file_size := Some 2048; file_path := "temp/ab12.png";
               file_filename := "ab12.png"; file_originalname := "cat.png" |})
      {| fs_files := ["temp/ab12.png"]; fs_log := [] |}
    = (Next (BadRequestError "Слишком маленький файл"), fs')
    ∧ ("temp/ab12.png" ∉ fs_files fs')
    ∧ fs_log fs' = [Unlink "temp/ab12.png"].
Proof.
  apply (uploadFile_rejects_small_files (H:=Example.runtime)
           {| file_size := Some 2048; file_path := "temp/ab12.png";
              file_filename := "ab12.png"; file_originalname := "cat.png" |}
           {| fs_files := ["temp/ab12.png"]; fs_log := [] |}).
  - cbn. lia.
  - discriminate.
Defined.

(** The bound is exact: with 2049 bytes the metadata is read. *)
Example uploadFile_2049_bytes :
  uploadFile (H:=Example.runtime)
    (Some {| file_size := Some 2049; file_path := "temp/ab12.png";
             file_filename := "ab12.png"; file_originalname := "cat.png" |})
    {| fs_files := ["temp/ab12.png"]; fs_log := [] |}
  = (Send 201 {| fileName := "/temp/ab12.png"; originalName := "cat.png" |},
     {| fs_files := ["temp/ab12.png"];
        fs_log := [ReadMetadata "temp/ab12.png"] |}).
Proof. reflexivity. Qed.

(** The sizes that pass both bounds: above 2048 bytes, up to 10 MiB. *)
Example upload_size_window :
  MIN_FILE_SIZE_STRICT = 2049 ∧ fileSizeLimit = 10485760
  ∧ MIN_FILE_SIZE_STRICT < fileSizeLimit.
Proof. done. Qed.

(** ** Order creation *)

Section CreateOrder.
Context `{Runtime}.

(** An ASCII character at the head of a string counts for one code
    unit. *)
Lemma length_ascii_cons (c : ascii) (s : string) :
  (N_of_ascii c < 128)%N →
  JsString.length (String c s) = 1 + JsString.length s.
Proof.
  intros Hc. unfold JsString.length, JsString.chars.
  cbn [JsString.chars_go]. apply N.ltb_lt in Hc as Hb. rewrite Hb.
  cbn [rev JsString.decodeRun app foldr]. unfold JsString.units at 1.
  destruct (N.ltb_spec (N_of_ascii c) 65536); [done|lia].
Qed.

(** A pattern match bounds the length: an optional sign and at most 15
    digits. *)
Lemma phonePattern_length (s : string) :
  phonePattern s = true → JsString.length s <= 16.
Proof.
  unfold phonePattern.
  intros Hp. apply andb_prop in Hp as [_ Hp]. apply Z.leb_le in Hp.
  revert Hp. destruct s as [|c s']; [lia|].
  destruct (Ascii.eqb_spec c "+") as [->|Hc].
  - rewrite length_ascii_cons by (by vm_compute). lia.
  - assert (match c with
            | "+"%char => s'
            | _ => String c s'
            end = String c s') as ->; [|lia].
    destruct c as [[] [] [] [] [] [] [] []]; try reflexivity. by destruct Hc.
Qed.

(** Among the products found for [items], an id of [items] finds what it
    finds in the catalog. *)
Lemma findProduct_found (ps : list IProduct) (items : list ObjectId) (id : ObjectId) :
  id ∈ items →
  findProduct (filter (fun p => product_id p ∈ items) ps) id = findProduct ps id.
Proof.
  intros Hid. unfold findProduct.
  induction ps as [|p ps IH]; [done|].
  rewrite filter_cons. cbn [List.find].
  destruct (N.eqb_spec (product_id p) id) as [Heq|Hne].
  - rewrite decide_True by (by rewrite Heq).
    cbn [List.find]. by rewrite (proj2 (N.eqb_eq _ _) Heq).
  - case_decide; [|done].
    cbn [List.find]. by rewrite (proj2 (N.eqb_neq _ _) Hne).
Qed.

Lemma findProduct_Some (ps : list IProduct) (id : ObjectId) (p : IProduct) :
  findProduct ps id = Some p → p ∈ ps ∧ product_id p = id.
Proof.
  unfold findProduct. intros Hf. apply find_some in Hf as [Hin Heq].
  split; [by apply list_elem_of_In | by apply N.eqb_eq].
Qed.

Lemma findProduct_None (ps : list IProduct) (id : ObjectId) :
  findProduct ps id = None → id ∉ product_id <$> ps.
Proof.
  unfold findProduct. intros Hf Hin.
  apply list_elem_of_fmap in Hin as (p & -> & Hp).
  apply list_elem_of_In in Hp.
  pose proof (find_none _ _ Hf p Hp) as Hn. cbn in Hn.
  by rewrite N.eqb_refl in Hn.
Qed.

(** What a completed [forEach] says about the items. *)
Lemma forEachItem_Pass (found : list IProduct) (items : list ObjectId)
    (basket : list IProduct) :
  forEachItem found items = Pass basket →
  Forall2 (fun id p => findProduct found id = Some p ∧ is_Some (price p))
          items basket.
Proof.
  revert basket. induction items as [|id items IH]; intros basket; cbn.
  - intros [= <-]. constructor.
  - unfold resolveItem.
    destruct (findProduct found id) as [p|] eqn:Hf; cbn; [|done].
    destruct (price p) as [z|] eqn:Hp; cbn; [|done].
    destruct (forEachItem found items) as [b|]; cbn; [|done].
    intros [= <-]. constructor; [|by apply IH].
    split; [done|]. rewrite Hp. by eexists.
Qed.

Lemma forEachItem_sellable (found : list IProduct) (items : list ObjectId) :
  Forall (fun id => ∃ p, findProduct found id = Some p ∧ is_Some (price p)) items →
  ∃ basket, forEachItem found items = Pass basket.
Proof.
  induction 1 as [|id items (p & Hf & [z Hz]) _ [basket IH]]; cbn.
  - by eexists.
  - unfold resolveItem. rewrite Hf, Hz. cbn. rewrite IH. cbn. by eexists.
Qed.

(** The total of a basket that resolves [items] from the products found for
    them is the sum of the catalog prices of [items]. *)
Lemma totalBasket_catalogTotal (db : Db) (all items : list ObjectId)
    (basket : list IProduct) :
  items ⊆ all →
  Forall2 (fun id p => findProduct (findProductsIn db all) id = Some p
                       ∧ is_Some (price p)) items basket →
  totalBasket basket = catalogTotal db items.
Proof.
  unfold totalBasket, catalogTotal.
  intros Hsub HF.
  enough (∀ a0,
    fold_left (fun a c => JsNum.add a (default 0 (price c))) basket a0
    = fold_left (fun a id => JsNum.add a (catalogPrice db id)) items a0)
    as Hgen by apply Hgen.
  induction HF as [|id p items basket [Hf _] _ IH]; intros a0; [done|].
  cbn [fold_left]. unfold findProductsIn in Hf.
  rewrite findProduct_found in Hf by set_solver.
  unfold catalogPrice at 2. rewrite Hf. cbn [mbind option_bind].
  apply IH. set_solver.
Qed.

(** The shape of a request that passes every check. *)
Lemma validateOrder_Pass (db : Db) (userId : ObjectId) (body : OrderBody)
    (o : NewOrder) :
  validateOrder db userId body = Pass o →
  ∃ items phone basket,
    b_items body = Some items
    ∧ (1 <= length items <= 50)%nat
    ∧ b_phone body = VString phone
    ∧ phonePattern (JsString.trim phone) = true
    ∧ length (findProductsIn db items) = length items
    ∧ forEachItem (findProductsIn db items) items = Pass basket
    ∧ b_total body = VNumber (totalBasket basket)
    ∧ new_totalAmount o = totalBasket basket
    ∧ new_products o = items
    ∧ new_customer o = userId.
Proof.
  unfold validateOrder, MAX_ITEMS.
  destruct (b_items body) as [items|]; cbn; [|done].
  destruct (Z.eqb_spec (Z.of_nat (length items)) 0) as [?|Hlen0]; cbn; [done|].
  destruct (Z.ltb_spec 50 (Z.of_nat (length items))) as [?|Hlen50]; cbn; [done|].
  destruct (b_phone body) as [| | | |phone]; cbn; try done.
  destruct (20 <? _); cbn; [done|].
  destruct (phonePattern _) eqn:Hphone; cbn; [|done].
  destruct (Nat.eqb_spec (length (findProductsIn db items)) (length items))
    as [Hfound|?]; cbn; [|done].
  destruct (forEachItem _ items) as [basket|] eqn:Hbasket; cbn; [|done].
  destruct (b_total body) as [| | |t|]; cbn; try done.
  destruct (Z.eqb_spec t (totalBasket basket)) as [->|?]; cbn; [|done].
  intros [= <-]. exists items, phone, basket. cbn.
  repeat split; try done; lia.
Qed.

Lemma forEachItem_Pass_elem (db : Db) (items : list ObjectId)
    (basket : list IProduct) (id : ObjectId) :
  forEachItem (findProductsIn db items) items = Pass basket →
  id ∈ items →
  ∃ p, findProduct (db_products db) id = Some p ∧ is_Some (price p).
Proof.
  intros Hb Hid. apply forEachItem_Pass in Hb.
  assert (∀ l b,
    Forall2 (fun id p => findProduct (findProductsIn db items) id = Some p
                         ∧ is_Some (price p)) l b →
    id ∈ l →
    ∃ p, findProduct (findProductsIn db items) id = Some p ∧ is_Some (price p))
    as Hgen.
  { induction 1 as [|x p l b Hx _ IH]; intros Hin; [by apply elem_of_nil in Hin|].
    apply elem_of_cons in Hin as [->|Hin]; [by exists p | by apply IH]. }
  destruct (Hgen _ _ Hb Hid) as (p & Hf & Hp).
  exists p. split; [|done].
  unfold findProductsIn in Hf. by rewrite findProduct_found in Hf.
Qed.

(** Distinct ids that are all in the catalog are found one product each. *)
Lemma findProductsIn_length (db : Db) (items : list ObjectId) :
  NoDup (product_id <$> db_products db) →
  NoDup items →
  (∀ id, id ∈ items → id ∈ product_id <$> db_products db) →
  length (findProductsIn db items) = length items.
Proof.
  intros Hcat Hitems Hin. unfold findProductsIn.
  rewrite <- (length_fmap product_id). apply Permutation_length.
  apply NoDup_Permutation; [|done|].
  - eapply sublist_NoDup; [exact Hcat|]. apply fmap_sublist, sublist_filter.
  - intros x. rewrite list_elem_of_fmap. split.
    + intros (p & -> & Hp). by apply list_elem_of_filter in Hp as [? _].
    + intros Hx. destruct (proj1 (list_elem_of_fmap _ _ _) (Hin x Hx))
        as (p & -> & Hp).
      exists p. split; [done|]. by apply list_elem_of_filter.
Qed.

(** With an id repeated in [items], fewer products are found than there are
    items. *)
Lemma findProductsIn_length_dup (db : Db) (items : list ObjectId) :
  NoDup (product_id <$> db_products db) →
  ¬ NoDup items →
  length (findProductsIn db items) ≠ length items.
Proof.
  intros Hcat Hdup Hlen. apply Hdup.
  assert (NoDup (product_id <$> findProductsIn db items)) as Hfound.
  { eapply sublist_NoDup; [exact Hcat|]. apply fmap_sublist, sublist_filter. }
  assert (product_id <$> findProductsIn db items ⊆+ items) as Hsub.
  { apply NoDup_submseteq; [done|]. intros x.
    rewrite list_elem_of_fmap. intros (p & -> & Hp).
    by apply list_elem_of_filter in Hp as [? _]. }
  eapply NoDup_Permutation_proper; [|exact Hfound].
  symmetry. apply submseteq_length_Permutation; [done|].
  rewrite length_fmap. lia.
Qed.

End CreateOrder.

(** The examples of the specification: items priced 10 and 25. *)
Example createOrder_total_34 :
  createOrder (H:=Example.runtime) Example.shop 7
    (Example.body [1%N; 2%N] (VNumber 34))
  = (Next (BadRequestError "Неверная сумма заказа"), Example.shop).
Proof. reflexivity. Qed.

Example createOrder_total_35 :
  ∃ doc, createOrder (H:=Example.runtime) Example.shop 7
           (Example.body [1%N; 2%N] (VNumber 35))
         = (Send 200 doc, insertOrder Example.shop doc)
         ∧ totalAmount doc = 35 ∧ products doc = [1%N; 2%N].
Proof. eexists. split; [reflexivity|]. split; reflexivity. Qed.

(** A total sent as a string is not the number. *)
Example createOrder_total_string :
  createOrder (H:=Example.runtime) Example.shop 7
    (Example.body [1%N; 2%N] (VString "35"))
  = (Next (BadRequestError "Неверная сумма заказа"), Example.shop).
Proof. reflexivity. Qed.

(** C1, on [createOrder]: the comparison of the totals is not reached
    when an id is repeated.  Products 1 and 2 are for sale at 10 and 25;
    the items 1, 2, 1 all resolve to sellable products and the claimed
    total 45 is the sum of their catalog prices, and the request fails as
    if a product were missing and nothing is written.  Without the
    repetition the comparison decides: the items 1, 2 with the total 35
    are written as an order with that total, and with the total 34 they
    are refused. *)
Theorem createOrder_agreeing_total_refused :
  Forall (sellable Example.warehouse) [1%N; 2%N; 1%N]
  ∧ catalogTotal Example.warehouse [1%N; 2%N; 1%N] = 45
  ∧ createOrder (H:=Example.runtime) Example.warehouse 7
      (Example.body [1%N; 2%N; 1%N] (VNumber 45))
    = (Next (BadRequestError "Товар не найден"), Example.warehouse)
  ∧ (∃ doc db',
       createOrder (H:=Example.runtime) Example.warehouse 7
         (Example.body [1%N; 2%N] (VNumber 35)) = (Send 200 doc, db')
       ∧ db_orders db' = (db_orders Example.warehouse ++ [doc])%list
       ∧ totalAmount doc = 35 ∧ products doc = [1%N; 2%N])
  ∧ createOrder (H:=Example.runtime) Example.warehouse 7
      (Example.body [1%N; 2%N] (VNumber 34))
    = (Next (BadRequestError "Неверная сумма заказа"), Example.warehouse).
Proof.
  split_and!; try done.
  - repeat constructor; eexists; (split; [reflexivity|]); by eexists.
  - do 2 eexists. split; [reflexivity|]. done.
Qed.

(** An id repeated in [items] fails the comparison of the two lengths,
    whatever the products and the total are. *)
Lemma createOrder_repeated_id_not_found `{Runtime} (db : Db) (userId : ObjectId)
    (body : OrderBody) (items : list ObjectId) (phone : string) :
  b_items body = Some items →
  (1 <= length items <= 50)%nat →
  b_phone body = VString phone →
  phonePattern (JsString.trim phone) = true →
  NoDup (product_id <$> db_products db) →
  ¬ NoDup items →
  createOrder db userId body = (Next (BadRequestError "Товар не найден"), db).
Proof.
  intros Hitems Hlen Hphone Hpat Hcat Hdup.
  pose proof (phonePattern_length _ Hpat) as Hshort.
  pose proof (findProductsIn_length_dup db items Hcat Hdup) as Hfound.
  unfold createOrder, validateOrder, MAX_ITEMS. rewrite Hitems. cbn.
  destruct (Z.eqb_spec (Z.of_nat (length items)) 0); [lia|].
  destruct (Z.ltb_spec 50 (Z.of_nat (length items))); [lia|]. cbn.
  rewrite Hphone. cbn.
  destruct (Z.ltb_spec 20 (JsString.length (JsString.trim phone))); [lia|]. cbn.
  rewrite Hpat. cbn.
  by destruct (Nat.eqb_spec (length (findProductsIn db items)) (length items)).
Qed.

(** C5, on [createOrder]: the same product twice.  Product 1 is for sale at
    10, the claimed total 20 is the sum with one term per entry, and the
    request fails as if a product were missing; nothing is written. *)
Theorem createOrder_repeated_id :
  Forall (sellable Example.shop) [1%N; 1%N]
  ∧ catalogTotal Example.shop [1%N; 1%N] = 20
  ∧ createOrder (H:=Example.runtime) Example.shop 7
      (Example.body [1%N; 1%N] (VNumber 20))
    = (Next (BadRequestError "Товар не найден"), Example.shop).
Proof.
  split; [|done].
  repeat constructor; eexists; (split; [reflexivity|]); by eexists.
Qed.

(** C7.  Each validation failure that the specification lists makes
    [createOrder] end in an error, and whenever [createOrder] ends in an
    error the database is the one it started from: nothing is written. *)
Theorem createOrder_failure_writes_nothing `{Runtime} (db : Db)
    (userId : ObjectId) (body : OrderBody) :
  (ValidationFailure db body → ∃ e, createOrder db userId body = (Next e, db))
  ∧ (∀ e db', createOrder db userId body = (Next e, db') → db' = db).
Proof.
  split.
  - intros Hfail. unfold createOrder.
    destruct (validateOrder db userId body) as [o|e] eqn:Hv; [|by eexists].
    exfalso.
    apply validateOrder_Pass in Hv
      as (items & phone & basket & Hitems & Hlen & Hphone & Hpat & _ & Hb & Htotal & _).
    destruct Hfail as [Hnone|items' Hitems' Hsize|Hbad|items' id Hitems' Hid Hnf
                      |items' id p Hitems' Hid Hf Hnull|items' Hitems' Hne].
    + congruence.
    + assert (items' = items) as -> by congruence. lia.
    + specialize (Hbad phone Hphone). congruence.
    + assert (items' = items) as -> by congruence.
      destruct (forEachItem_Pass_elem _ _ _ _ Hb Hid) as (p & Hp & _). congruence.
    + assert (items' = items) as -> by congruence.
      destruct (forEachItem_Pass_elem _ _ _ _ Hb Hid) as (p' & Hp' & [z Hz]).
      congruence.
    + assert (items' = items) as -> by congruence.
      apply Hne. rewrite Htotal. f_equal.
      by eapply totalBasket_catalogTotal, forEachItem_Pass.
  - intros e db'. unfold createOrder.
    destruct (validateOrder db userId body); [|by intros [= _ <-]].
    destruct (Order_validate _); [by intros [= _ <-]|done].
Qed.

Lemma createOrder_failure_writes_nothing_witness :
  ∃ e, createOrder (H:=Example.runtime) Example.shop 7
         (Example.body [1%N; 2%N] (VNumber 34)) = (Next e, Example.shop).
Proof.
  apply (createOrder_failure_writes_nothing (H:=Example.runtime)
           Example.shop 7%N (Example.body [1%N; 2%N] (VNumber 34))).
  by apply (TotalMismatch _ _ [1%N; 2%N]).
Defined.

(** One request for each failure of the list. *)
Example createOrder_failures :
  let run := createOrder (H:=Example.runtime) Example.shop 7 in
  let body items phone total :=
    {| b_address := "Main street 1"; b_payment := "card";
       b_phone := phone; b_total := total; b_email := "a@example.org";
       b_items := items; b_comment := None |} in
  run (body None (VString "+71234567890") (VNumber 35))
    = (Next (BadRequestError "items должен быть массивом"), Example.shop)
  ∧ run (body (Some []) (VString "+71234567890") (VNumber 0))
    = (Next (BadRequestError "Некорректное количество товаров (1-50)"), Example.shop)
  ∧ run (body (Some [1%N; 2%N]) (VNumber 123) (VNumber 35))
    = (Next (BadRequestError "Телефон должен быть строкой"), Example.shop)
  ∧ run (body (Some [1%N; 2%N]) (VString "123") (VNumber 35))
    = (Next (BadRequestError "Некорректный телефон"), Example.shop)
  ∧ run (body (Some [1%N; 9%N]) (VString "+1234567890") (VNumber 35))
    = (Next (BadRequestError "Товар не найден"), Example.shop)
  ∧ run (body (Some [1%N; 2%N]) (VString " +1234567890 ") (VNumber 35))
    = (Send 200
         (orderDocument (Example.generate [] (Build_NewOrder 35 [1%N; 2%N] "card"
                           "+1234567890" "a@example.org" "" 7%N "Main street 1"))
            (Build_NewOrder 35 [1%N; 2%N] "card" "+1234567890" "a@example.org" ""
               7%N "Main street 1")),
       insertOrder Example.shop
         (orderDocument (Example.generate [] (Build_NewOrder 35 [1%N; 2%N] "card"
                           "+1234567890" "a@example.org" "" 7%N "Main street 1"))
            (Build_NewOrder 35 [1%N; 2%N] "card" "+1234567890" "a@example.org" ""
               7%N "Main street 1"))).
Proof. repeat split. Qed.

(** ** The two pipelines of getOrders *)

Section Sorting.
Context {A : Type} (key_of : A → Sort.key) (descending : bool).

Lemma insert_Permutation (x : A) (l : list A) :
  Sort.insert key_of descending x l ≡ₚ x :: l.
Proof.
  induction l as [|y l IH]; cbn; [done|].
  destruct (Sort.before _ _ _ _); [done|].
  rewrite IH. apply perm_swap.
Qed.

Lemma sort_Permutation (l : list A) : Sort.sort key_of descending l ≡ₚ l.
Proof.
  unfold Sort.sort. induction l as [|x l IH]; cbn; [done|].
  by rewrite insert_Permutation, IH.
Qed.

End Sorting.

(** Cutting a list into [n] pages of [limit] entries loses nothing when the
    pages are enough for its length. *)
Lemma pages_cover {A} (l : list A) (limit n : nat) (x : A) :
  (0 < limit)%nat → (length l ≤ n * limit)%nat →
  x ∈ l ↔ ∃ p, p ∈ seq 1 n ∧ x ∈ take limit (drop ((p - 1) * limit) l).
Proof.
  intros Hlimit Hlen. split.
  - intros (i & Hi)%list_elem_of_lookup.
    pose proof (lookup_lt_Some _ _ _ Hi) as Hlt.
    exists (S (i / limit)). split.
    + apply elem_of_seq.
      assert (i / limit < n)%nat; [|lia].
      apply Nat.Div0.div_lt_upper_bound. lia.
    + apply elem_of_take. exists (i mod limit)%nat. split.
      * rewrite lookup_drop. rewrite <- Hi. f_equal.
        pose proof (Nat.div_mod_eq i limit). lia.
      * apply Nat.mod_upper_bound. lia.
  - intros (p & _ & (j & Hj & _)%elem_of_take).
    rewrite lookup_drop in Hj. by eapply list_elem_of_lookup_2.
Qed.

Section Grouping.
Context {G : Type} (open : OrderRow → G) (push : G → OrderRow → G)
        (group_id : G → ObjectId).
Hypothesis open_id : ∀ r, group_id (open r) = order_id (row_order r).
Hypothesis push_id : ∀ g r, group_id (push g r) = group_id g.

(** A row whose order has a group leaves the identities as they are; any
    other row adds its own at the end. *)
Lemma addRow_ids (r : OrderRow) (gs : list G) :
  group_id <$> addRow open push group_id r gs
  = if decide (order_id (row_order r) ∈ group_id <$> gs)
    then group_id <$> gs
    else ((group_id <$> gs) ++ [order_id (row_order r)])%list.
Proof.
  induction gs as [|g gs IH]; cbn.
  - rewrite decide_False by apply not_elem_of_nil. by rewrite open_id.
  - destruct (decide (group_id g = order_id (row_order r))) as [Heq|Hne]; cbn.
    + rewrite decide_True by (rewrite Heq; apply list_elem_of_here).
      by rewrite push_id.
    + rewrite IH. destruct (decide (_ ∈ group_id <$> gs)) as [Hin|Hnin].
      * by rewrite decide_True by (by apply list_elem_of_further).
      * rewrite decide_False; [done|].
        intros [?|?]%elem_of_cons; congruence.
Qed.

Lemma fold_addRow_ids (rows : list OrderRow) : ∀ gs,
  NoDup (group_id <$> gs) →
  NoDup (group_id <$> fold_left (fun gs r => addRow open push group_id r gs) rows gs)
  ∧ ∀ x, x ∈ group_id <$> fold_left (fun gs r => addRow open push group_id r gs) rows gs
         ↔ x ∈ group_id <$> gs ∨ x ∈ (order_id ∘ row_order) <$> rows.
Proof.
  induction rows as [|r rows IH]; intros gs Hgs; cbn [fold_left].
  - split; [done|]. intros x. rewrite fmap_nil, elem_of_nil. tauto.
  - destruct (IH (addRow open push group_id r gs)) as [Hnd Hel].
    { rewrite addRow_ids. case_decide; [done|].
      apply NoDup_app. split_and!; [done| |apply NoDup_singleton].
      intros x Hx ->%list_elem_of_singleton. done. }
    split; [done|]. intros x. rewrite Hel, addRow_ids, fmap_cons, elem_of_cons.
    cbn. case_decide as Hin.
    + split; [tauto|]. intros [?|[->|?]]; auto.
    + rewrite elem_of_app, list_elem_of_singleton. tauto.
Qed.

Lemma groupStage_NoDup (rows : list OrderRow) :
  NoDup (group_id <$> groupStage open push group_id rows).
Proof. apply fold_addRow_ids. cbn. apply NoDup_nil_2. Qed.

Lemma groupStage_elem (rows : list OrderRow) (x : ObjectId) :
  x ∈ group_id <$> groupStage open push group_id rows
  ↔ ∃ r, r ∈ rows ∧ order_id (row_order r) = x.
Proof.
  unfold groupStage.
  rewrite (proj2 (fold_addRow_ids rows [] (NoDup_nil_2 : NoDup (group_id <$> [])))).
  rewrite fmap_nil, elem_of_nil, list_elem_of_fmap. cbn. split.
  - intros [[]|(r & -> & Hr)]. by exists r.
  - intros (r & Hr & <-). right. by exists r.
Qed.

End Grouping.

Section Pipelines.
Context `{Runtime}.

Lemma dataPipeline_ids (base : list OrderRow) (field order : string)
    (page limit : Z) (x : ObjectId) :
  x ∈ g_id <$> dataPipeline base field order page limit
  ↔ ∃ r, r ∈ take (Z.to_nat limit)
                 (drop (Z.to_nat ((page - 1) * limit)) (sortStage field order base))
         ∧ order_id (row_order r) = x.
Proof. unfold dataPipeline. by apply groupStage_elem. Qed.

(** The identities on the pages [1..n] are those of the rows of the
    shared prefix. *)
Lemma pagesOrderIds_elem (base : list OrderRow) (field order : string)
    (limit : Z) (n : nat) (x : ObjectId) :
  1 <= limit → (length base ≤ n * Z.to_nat limit)%nat →
  x ∈ pagesOrderIds base field order limit n
  ↔ ∃ r, r ∈ base ∧ order_id (row_order r) = x.
Proof.
  intros Hlimit Hlen. unfold pagesOrderIds. rewrite list_elem_of_bind.
  assert (∀ r, r ∈ base ↔ r ∈ sortStage field order base) as Hsort.
  { intros r. unfold sortStage. by rewrite sort_Permutation. }
  assert (length (sortStage field order base) ≤ n * Z.to_nat limit)%nat as Hlen'.
  { unfold sortStage. by rewrite sort_Permutation. }
  assert (∀ p, (1 ≤ p)%nat →
            Z.to_nat ((Z.of_nat p - 1) * limit) = ((p - 1) * Z.to_nat limit)%nat)
    as Hskip.
  { intros p Hp. rewrite Z2Nat.inj_mul by lia. f_equal. lia. }
  split.
  - intros (p & (r & Hr & Hid)%dataPipeline_ids & Hp%elem_of_seq).
    exists r. split; [|done]. apply Hsort.
    rewrite Hskip in Hr by lia.
    apply (pages_cover _ (Z.to_nat limit) n); [lia|done|]. exists p.
    split; [by apply elem_of_seq | done].
  - intros (r & Hr & Hid). apply Hsort in Hr.
    apply (pages_cover _ (Z.to_nat limit) n) in Hr as (p & Hp & Hr); [|lia|done].
    exists p. split; [|done]. apply dataPipeline_ids. exists r. split; [|done].
    apply elem_of_seq in Hp. by rewrite Hskip by lia.
Qed.

(** The count pipeline reports the number of groups of the prefix. *)
Lemma totalOf_countPipeline (base : list OrderRow) :
  totalOf (countPipeline base)
  = Z.of_nat (length (groupStage (fun r => order_id (row_order r))
                                 (fun g _ => g) id base)).
Proof. unfold totalOf, countPipeline. by destruct (groupStage _ _ _ base). Qed.

Lemma count_matches_pages (base : list OrderRow) (field order : string)
    (limit : Z) (n : nat) :
  1 <= limit → (length base ≤ n * Z.to_nat limit)%nat →
  totalOf (countPipeline base)
  = distinctOrders (pagesOrderIds base field order limit n).
Proof.
  intros Hlimit Hlen. rewrite totalOf_countPipeline. unfold distinctOrders.
  f_equal. apply Permutation_length.
  rewrite <- (list_fmap_id (groupStage _ _ _ base)).
  apply NoDup_Permutation.
  - by apply groupStage_NoDup.
  - apply NoDup_remove_dups.
  - intros x. rewrite elem_of_remove_dups, pagesOrderIds_elem by done.
    by apply groupStage_elem.
Qed.

(** The page size that reaches the pipeline is never negative. *)
Lemma safeLimit_nonneg (limit : option qvalue) : 0 <= safeLimit limit.
Proof.
  unfold safeLimit, MAX_LIMIT.
  destruct (Number_or 10 limit) as [| | |q]; cbn; try done.
  destruct (Qle_bool q (inject_Z 0)) eqn:Hq; cbn; [done|].
  apply Qle_bool_false in Hq. apply Z.min_glb; [|done].
  change 0 with (Qfloor (inject_Z 0)). apply Qfloor_resp_le.
  by apply Qlt_le_weak.
Qed.

End Pipelines.

(** C6.  When [getOrders] answers, its data pipeline and its count pipeline
    run on one prefix (the rows left by the filters, the joins, the
    flattening and the search), and the [totalOrders] it reports is the
    number of distinct orders on the pages [1..n] of the data pipeline, for
    every [n] that takes the pages to the end of the rows. *)
Theorem getOrders_total_is_distinct_orders `{Runtime} (db : Db)
    (q : OrdersQuery) (st : Z) (page : Page GroupedOrder) :
  getOrders db q = Send st page →
  ∃ search filters cond,
    safeSearch (q_search q) = Pass search
    ∧ orderFilters q = Pass filters
    ∧ searchStage search = Pass cond
    ∧ let base := basePipeline db filters cond in
      let field := safeSortField allowedSortFields (q_sortField q) in
      let order := safeSortOrder (q_sortOrder q) in
      let limit := safeLimit (q_limit q) in
      docs page = dataPipeline base field order (safePage (q_page q)) limit
      ∧ total (pagination page) = totalOf (countPipeline base)
      ∧ ∀ n : nat,
          (length base ≤ n * Z.to_nat limit)%nat →
          total (pagination page)
          = distinctOrders (pagesOrderIds base field order limit n).
Proof.
  unfold getOrders, finish.
  destruct (safeSearch (q_search q)) as [search|]; cbn; [|done].
  destruct (orderFilters q) as [filters|]; cbn; [|done].
  destruct (searchStage search) as [cond|] eqn:Hcond; cbn; [|done].
  destruct (Z.eqb_spec (safeLimit (q_limit q)) 0) as [|Hlimit]; cbn; [done|].
  intros [= <- <-]. exists search, filters, cond. cbn.
  split_and!; try done.
  intros n Hn. apply count_matches_pages; [|done].
  pose proof (safeLimit_nonneg (q_limit q)). lia.
Qed.

Lemma getOrders_total_is_distinct_orders_witness :
  ∃ page,
    getOrders (H:=Example.runtime) Example.warehouse
      (Example.ordersQuery (Some (QStr "2")) None None) = Send 200 page
    ∧ ∃ search filters cond,
        safeSearch None = Pass search
        ∧ orderFilters (H:=Example.runtime)
            (Example.ordersQuery (Some (QStr "2")) None None) = Pass filters
        ∧ searchStage (H:=Example.runtime) search = Pass cond
        ∧ let base := basePipeline Example.warehouse filters cond in
          let limit := safeLimit (H:=Example.runtime) (Some (QStr "2")) in
          docs page = dataPipeline base "createdAt" "desc" 1 limit
          ∧ total (pagination page) = totalOf (countPipeline base)
          ∧ ∀ n : nat,
              (length base ≤ n * Z.to_nat limit)%nat →
              total (pagination page)
              = distinctOrders (pagesOrderIds base "createdAt" "desc" limit n).
Proof.
  eexists. split; [reflexivity|].
  apply (getOrders_total_is_distinct_orders (H:=Example.runtime)
           Example.warehouse (Example.ordersQuery (Some (QStr "2")) None None)
           200).
  reflexivity.
Defined.

(** Two orders of three products with a page size of 2: six rows on three
    pages.  The first page holds the first order with two of its products;
    the pages together hold two distinct orders, which is the total. *)
Example getOrders_pages :
  ∃ page,
    getOrders (H:=Example.runtime) Example.warehouse
      (Example.ordersQuery (Some (QStr "2")) None None) = Send 200 page
    ∧ (g_id <$> docs page = [60%N])
    ∧ (length <$> (g_products <$> docs page) = [2%nat])
    ∧ pagination page
      = {| total := 2; totalPages := JsNum.of_Z 1;
           currentPage := JsNum.of_Z 1; pageSize := JsNum.of_Z 2 |}
    ∧ pagesOrderIds
        (basePipeline Example.warehouse
           {| f_status := None; f_totalAmount := no_range; f_createdAt := no_range |}
           (fun _ => true))
        "createdAt" "desc" 2 3
      = [60%N; 60%N; 61%N; 61%N].
Proof. eexists. split; [reflexivity|]. repeat split. Qed.


(** * Further properties of the controllers *)

Local Open Scope list_scope.

(** ** The sanitizer *)

Section TrimFacts.
Import JsString.

Lemma starts_with_prefix (w l : list ascii) :
  starts_with w l = true ↔ ∃ k, l = w ++ k.
Proof.
  revert l. induction w as [|a w IH]; intros l; cbn.
  - split; [by exists l | done].
  - destruct l as [|b l]; [split; [done | by intros [? ?]]|].
    rewrite andb_true_iff, IH. split.
    + intros [->%Ascii.eqb_eq [k ->]]. by exists k.
    + intros [k [= -> ->]]. split; [apply Ascii.eqb_refl | by exists k].
Qed.

Lemma stripOne_Some (ws : list (list ascii)) (l r : list ascii) :
  stripOne ws l = Some r → ∃ w, w ∈ ws ∧ l = w ++ r.
Proof.
  unfold stripOne.
  destruct (List.find _ ws) as [w|] eqn:Hw; [|done]. intros [= <-].
  apply find_some in Hw as [Hin [k ->]%starts_with_prefix].
  exists w. split; [by apply list_elem_of_In|].
  by rewrite drop_app_length.
Qed.

Lemma stripOne_None (ws : list (list ascii)) (l : list ascii) :
  stripOne ws l = None ↔ ∀ w, w ∈ ws → starts_with w l = false.
Proof.
  unfold stripOne. split.
  - destruct (List.find _ ws) eqn:Hw; [done|]. intros _ w Hin.
    by apply (find_none _ _ Hw), list_elem_of_In.
  - intros Hall. destruct (List.find _ ws) as [w|] eqn:Hw; [|done].
    apply find_some in Hw as [Hin Hw].
    apply list_elem_of_In in Hin. by rewrite (Hall w Hin) in Hw.
Qed.

(** What is left starts with none of the sequences. *)
Lemma dropLeading_done (ws : list (list ascii)) (n : nat) : ∀ l,
  (∀ w, w ∈ ws → w ≠ []) → (List.length l ≤ n)%nat →
  stripOne ws (dropLeading ws n l) = None.
Proof.
  intros l Hne. revert l. induction n as [|n IH]; intros l Hlen; cbn.
  - destruct l; [|cbn in Hlen; lia].
    apply stripOne_None. intros w Hw. specialize (Hne w Hw). by destruct w.
  - destruct (stripOne ws l) as [r|] eqn:Hr; [|done].
    apply IH. apply stripOne_Some in Hr as (w & Hw & ->).
    specialize (Hne w Hw). rewrite length_app in Hlen.
    destruct w; [done|]. cbn in Hlen. lia.
Qed.

Lemma dropLeading_None (ws : list (list ascii)) (n : nat) (l : list ascii) :
  stripOne ws l = None → dropLeading ws n l = l.
Proof. intros Hl. destruct n; cbn; [done|]. by rewrite Hl. Qed.

(** It is the end of the list it is taken from. *)
Lemma dropLeading_suffix (ws : list (list ascii)) (n : nat) : ∀ l,
  ∃ a, l = a ++ dropLeading ws n l.
Proof.
  induction n as [|n IH]; intros l; cbn; [by exists []|].
  destruct (stripOne ws l) as [r|] eqn:Hr; [|by exists []].
  apply stripOne_Some in Hr as (w & _ & ->).
  destruct (IH r) as [a Ha]. exists (w ++ a).
  by rewrite <- app_assoc, <- Ha.
Qed.

Lemma stripOne_None_prefix (ws : list (list ascii)) (l k : list ascii) :
  stripOne ws (l ++ k) = None → stripOne ws l = None.
Proof.
  rewrite !stripOne_None. intros Hall w Hw. specialize (Hall w Hw).
  destruct (starts_with w l) eqn:Hl; [|done].
  apply starts_with_prefix in Hl as [j ->].
  rewrite <- Hall. symmetry. apply starts_with_prefix.
  exists (j ++ k). by rewrite <- app_assoc.
Qed.

Lemma whiteSpace_nonempty (w : list ascii) : w ∈ whiteSpace → w ≠ [].
Proof.
  intros Hw ->. revert Hw. apply (bool_decide_unpack _). by vm_compute.
Qed.

Lemma whiteSpace_rev_nonempty (w : list ascii) :
  w ∈ map (@rev ascii) whiteSpace → w ≠ [].
Proof.
  intros Hw ->. revert Hw. apply (bool_decide_unpack _). by vm_compute.
Qed.

(** [trim] on a trimmed text removes nothing. *)
Lemma trimL_idem (l : list ascii) : trimL (trimL l) = trimL l.
Proof.
  unfold trimL, trimEndL, trimStartL.
  set (t1 := dropLeading whiteSpace (List.length l) l).
  set (u := dropLeading (map (@rev ascii) whiteSpace) (List.length t1) (rev t1)).
  assert (stripOne whiteSpace t1 = None) as H1
    by (by apply dropLeading_done; [apply whiteSpace_nonempty|]).
  assert (stripOne (map (@rev ascii) whiteSpace) u = None) as Hu.
  { apply dropLeading_done; [apply whiteSpace_rev_nonempty|].
    by rewrite length_rev. }
  destruct (dropLeading_suffix (map (@rev ascii) whiteSpace)
              (List.length t1) (rev t1)) as [a Ha]. fold u in Ha.
  assert (t1 = rev u ++ rev a) as Ht1.
  { rewrite <- (rev_involutive t1), Ha. by rewrite rev_app_distr. }
  assert (stripOne whiteSpace (rev u) = None) as H2.
  { apply (stripOne_None_prefix _ _ (rev a)). by rewrite <- Ht1. }
  rewrite (dropLeading_None _ _ _ H2), rev_involutive.
  by rewrite (dropLeading_None _ _ _ Hu).
Qed.

Lemma trim_idem (s : string) : trim (trim s) = trim s.
Proof.
  unfold trim.
  by rewrite list_ascii_of_string_of_list_ascii, trimL_idem.
Qed.

Lemma string_of_list_ascii_app (a b : list ascii) :
  string_of_list_ascii (a ++ b)
  = (string_of_list_ascii a ++ string_of_list_ascii b)%string.
Proof. induction a as [|c a IH]; [done|]. cbn. by rewrite IH. Qed.

(** [trim] takes bytes away at the two ends only. *)
Lemma trim_substring (s : string) :
  ∃ a b, s = (a ++ trim s ++ b)%string.
Proof.
  unfold trim, trimL, trimEndL, trimStartL.
  set (l := list_ascii_of_string s).
  destruct (dropLeading_suffix whiteSpace (List.length l) l) as [a Ha].
  set (t1 := dropLeading whiteSpace (List.length l) l) in *.
  destruct (dropLeading_suffix (map (@rev ascii) whiteSpace)
              (List.length t1) (rev t1)) as [b Hb].
  set (u := dropLeading _ (List.length t1) (rev t1)) in *.
  exists (string_of_list_ascii a), (string_of_list_ascii (rev b)).
  rewrite <- !string_of_list_ascii_app, <- (string_of_list_ascii_of_string s).
  fold l. f_equal. rewrite Ha at 1. f_equal.
  rewrite <- (rev_involutive t1), Hb. by rewrite rev_app_distr.
Qed.

End TrimFacts.

(** X1.  The search text that a sanitizing handler works with is the text
    of the request without the white space at its two ends: it is a part
    of that text, trimming it again changes nothing, and it has at most 50
    UTF-16 code units.  A [search] that is not a string is refused, and an
    absent one is no search. *)
Theorem safeSearch_trimmed_and_bounded (search : option qvalue) :
  match safeSearch search with
  | Pass (Some t) =>
      (∃ s a b, search = Some (QStr s) ∧ t = JsString.trim s
                ∧ s = (a ++ t ++ b)%string)
      ∧ JsString.trim t = t ∧ JsString.length t <= 50
  | Pass None => search = None
  | Reject e =>
      (∃ v, search = Some v) ∧ ∃ message, e = BadRequestError message
  end.
Proof.
  unfold safeSearch. destruct search as [[s|l|]|]; [|split; by eexists..|done].
  destruct (Z.ltb_spec 50 (JsString.length (JsString.trim s))).
  - split; by eexists.
  - split; [|split; [apply trim_idem | lia]].
    destruct (trim_substring s) as (a & b & Hs). by exists s, a, b.
Qed.

(** X2.  The field that the documents are sorted by is always one of the
    allow-list of the handler; a name outside of the list, and a value
    that is not a string, give [createdAt].  For orders the sort key of
    that field is a value of the order, never null. *)
Theorem safeSortField_allow_listed (sortField : option qvalue) :
  safeSortField allowedSortFields sortField ∈ allowedSortFields
  ∧ safeSortField allowedCustomerSortFields sortField ∈ allowedCustomerSortFields
  ∧ (∀ allowed f, f ∉ allowed →
       safeSortField allowed (Some (QStr f)) = "createdAt")
  ∧ (∀ allowed l, safeSortField allowed (Some (QArr l)) = "createdAt")
  ∧ (∀ r, sortKey (safeSortField allowedSortFields sortField) r ≠ Sort.KNull).
Proof.
  assert (∀ allowed : gset string, "createdAt" ∈ allowed →
            safeSortField allowed sortField ∈ allowed) as Hin.
  { intros allowed Hc. unfold safeSortField.
    destruct sortField as [[f|l|]|]; try done. by case_bool_decide. }
  assert ("createdAt" ∈ allowedSortFields) as Ho
    by (apply (bool_decide_unpack _); reflexivity).
  assert ("createdAt" ∈ allowedCustomerSortFields) as Hc
    by (apply (bool_decide_unpack _); reflexivity).
  split_and!; [by apply Hin | by apply Hin | | done |].
  - intros allowed f Hf. unfold safeSortField. by rewrite bool_decide_eq_false_2.
  - intros r. pose proof (Hin _ Ho) as Hf.
    remember (safeSortField allowedSortFields sortField) as f eqn:Ef. clear Ef.
    unfold allowedSortFields in Hf.
    rewrite !elem_of_union, !elem_of_singleton in Hf.
    destruct Hf as [[[-> | ->] | ->] | ->]; done.
Qed.

(** X3.  The page number: 1 when [page] is absent, not a number, infinite
    or not positive; otherwise the floor of the number, which is 0 for a
    number below 1.  It is never negative. *)
Theorem safePage_cases `{Runtime} (page : option qvalue) :
  0 <= safePage page
  ∧ match Number_or 1 page with
    | Finite q =>
        ((q <= 0)%Q → safePage page = 1)
        ∧ ((0 < q)%Q → safePage page = Qfloor q)
        ∧ ((0 < q)%Q → (q < 1)%Q → safePage page = 0)
        ∧ ((1 <= q)%Q → 1 <= safePage page)
    | NaN | PosInf | NegInf => safePage page = 1
    end
  ∧ safePage None = 1.
Proof.
  unfold safePage. split_and!; [| |done].
  - destruct (Number_or 1 page) as [| | |q]; cbn; try done.
    destruct (Qle_bool q (inject_Z 0)) eqn:Hq; cbn; [done|].
    apply Qle_bool_false in Hq.
    change 0 with (Qfloor (inject_Z 0)). apply Qfloor_resp_le.
    by apply Qlt_le_weak.
  - destruct (Number_or 1 page) as [| | |q]; cbn; try done.
    assert ((0 < q)%Q → Qle_bool q (inject_Z 0) = false) as Hpos
      by (intros ?; by apply Qle_bool_false).
    split_and!.
    + intros Hq. apply Qle_bool_iff in Hq.
      change (inject_Z 0) with 0%Q. by rewrite Hq.
    + intros Hq. by rewrite Hpos.
    + intros H0 H1. rewrite Hpos by done. cbn.
      assert (Qfloor q < 1) as Hlt.
      { rewrite Zlt_Qlt. eapply Qle_lt_trans; [apply Qfloor_le|done]. }
      assert (0 <= Qfloor q) as Hge.
      { change 0 with (Qfloor (inject_Z 0)). apply Qfloor_resp_le.
        by apply Qlt_le_weak. }
      lia.
    + intros H1. rewrite Hpos by (eapply Qlt_le_trans; [|exact H1]; done). cbn.
      change 1 with (Qfloor (inject_Z 1)). by apply Qfloor_resp_le.
Qed.

(** ** The pages of getOrders *)

Section DataGroups.

Lemma groupFromRows_mono (rows rows' : list OrderRow) (g : GroupedOrder) :
  rows ⊆ rows' → groupFromRows rows g → groupFromRows rows' g.
Proof.
  intros Hsub ((r & Hr & Hh) & Hne & Hp). split_and!; [|done|].
  - exists r. split; [by apply Hsub | done].
  - intros p Hin. destruct (Hp p Hin) as (r' & Hr' & ?). exists r'.
    split; [by apply Hsub | done].
Qed.

Lemma addRow_groupFromRows (seen : list OrderRow) (r : OrderRow)
    (gs : list GroupedOrder) :
  Forall (groupFromRows seen) gs →
  Forall (groupFromRows (seen ++ [r])) (addRow openOrder pushProduct g_id r gs).
Proof.
  assert (seen ⊆ seen ++ [r]) as Hsub by (intros x ?; apply elem_of_app; by left).
  assert (r ∈ seen ++ [r]) as Hr
    by (apply elem_of_app; right; by apply list_elem_of_singleton).
  induction 1 as [|g gs Hg Hgs IH]; cbn.
  - constructor; [|constructor]. split_and!.
    + by exists r.
    + done.
    + intros p ->%list_elem_of_singleton. by exists r.
  - case_decide as Hid.
    + constructor;
        [|eapply Forall_impl; [exact Hgs|]; intros g'; by apply groupFromRows_mono].
      destruct Hg as ((r0 & Hr0 & Hh) & Hne & Hp). split_and!.
      * exists r0. split; [by apply Hsub | done].
      * cbn. by destruct (g_products g).
      * cbn. intros p [Hin| ->%list_elem_of_singleton]%elem_of_app.
        -- destruct (Hp p Hin) as (r' & Hr' & ?). exists r'.
           split; [by apply Hsub | done].
        -- by exists r.
    + constructor; [by eapply groupFromRows_mono | done].
Qed.

Lemma fold_addRow_groupFromRows (rows : list OrderRow) : ∀ seen gs,
  Forall (groupFromRows seen) gs →
  Forall (groupFromRows (seen ++ rows))
         (fold_left (fun gs r => addRow openOrder pushProduct g_id r gs) rows gs).
Proof.
  induction rows as [|r rows IH]; intros seen gs Hgs; cbn.
  - by rewrite app_nil_r.
  - replace (seen ++ r :: rows) with ((seen ++ [r]) ++ rows)
      by (by rewrite <- app_assoc).
    apply IH. by apply addRow_groupFromRows.
Qed.

Lemma groupStage_groupFromRows (rows : list OrderRow) :
  Forall (groupFromRows rows) (groupStage openOrder pushProduct g_id rows).
Proof. apply (fold_addRow_groupFromRows rows [] []). constructor. Qed.

(** Each row adds one product to the page. *)
Lemma addRow_productsListed (r : OrderRow) (gs : list GroupedOrder) :
  productsListed (addRow openOrder pushProduct g_id r gs)
  = S (productsListed gs).
Proof.
  unfold productsListed. induction gs as [|g gs IH]; cbn; [done|].
  case_decide; cbn.
  - rewrite length_app. cbn. lia.
  - rewrite IH. lia.
Qed.

Lemma groupStage_productsListed (rows : list OrderRow) :
  productsListed (groupStage openOrder pushProduct g_id rows) = length rows.
Proof.
  unfold groupStage.
  assert (∀ gs,
    productsListed
      (fold_left (fun gs r => addRow openOrder pushProduct g_id r gs) rows gs)
    = (productsListed gs + length rows)%nat) as Hgen.
  { induction rows as [|r rows IH]; intros gs; cbn [fold_left length]; [lia|].
    rewrite IH, addRow_productsListed. lia. }
  by rewrite (Hgen []).
Qed.

(** A page with a product in every group has no more groups than
    products. *)
Lemma length_le_productsListed (gs : list GroupedOrder) :
  Forall (fun g => g_products g ≠ []) gs → (length gs ≤ productsListed gs)%nat.
Proof.
  unfold productsListed. induction 1 as [|g gs Hg _ IH]; cbn; [done|].
  destruct (g_products g); [done|]. cbn. lia.
Qed.

End DataGroups.

Section GetOrdersFacts.
Context `{Runtime}.

(** What an answer of [getOrders] is made of. *)
Lemma getOrders_Send (db : Db) (q : OrdersQuery) (st : Z)
    (page : Page GroupedOrder) :
  getOrders db q = Send st page →
  ∃ search filters cond,
    safeSearch (q_search q) = Pass search
    ∧ orderFilters q = Pass filters
    ∧ searchStage search = Pass cond
    ∧ safeLimit (q_limit q) ≠ 0
    ∧ st = 200
    ∧ docs page
      = dataPipeline (basePipeline db filters cond)
          (safeSortField allowedSortFields (q_sortField q))
          (safeSortOrder (q_sortOrder q))
          (safePage (q_page q)) (safeLimit (q_limit q))
    ∧ pagination page
      = {| total := totalOf (countPipeline (basePipeline db filters cond));
           totalPages :=
             JsNum.ceil_div (totalOf (countPipeline (basePipeline db filters cond)))
                            (safeLimit (q_limit q));
           currentPage := JsNum.of_Z (safePage (q_page q));
           pageSize := JsNum.of_Z (safeLimit (q_limit q)) |}.
Proof.
  unfold getOrders, finish.
  destruct (safeSearch (q_search q)) as [search|]; cbn; [|done].
  destruct (orderFilters q) as [filters|]; cbn; [|done].
  destruct (searchStage search) as [cond|] eqn:Hcond; cbn; [|done].
  destruct (Z.eqb_spec (safeLimit (q_limit q)) 0) as [|Hlimit]; cbn; [done|].
  intros [= <- <-]. by exists search, filters, cond.
Qed.

(** The rows of the shared prefix. *)
Lemma basePipeline_elem (db : Db) (f : OrderFilters) (cond : OrderRow → bool)
    (r : OrderRow) :
  r ∈ basePipeline db f cond →
  cond r = true
  ∧ row_order r ∈ db_orders db
  ∧ matchFilters f (row_order r) = true
  ∧ row_customer r ∈ db_users db
  ∧ user_id (row_customer r) = customer (row_order r)
  ∧ row_product r ∈ db_products db
  ∧ product_id (row_product r) ∈ products (row_order r).
Proof.
  unfold basePipeline. intros [Hcond Hr]%list_elem_of_filter.
  apply list_elem_of_bind in Hr as (o & Hr & [Hm Ho]%list_elem_of_filter).
  unfold unwind in Hr.
  apply list_elem_of_bind in Hr as (c & Hr & [Hc Hcu]%list_elem_of_filter).
  apply list_elem_of_bind in Hr as (p & Hr & [Hp Hpr]%list_elem_of_filter).
  apply list_elem_of_singleton in Hr as ->. by cbn.
Qed.

Lemma dataPipeline_rows (base : list OrderRow) (field order : string)
    (page limit : Z) :
  Forall (groupFromRows base) (dataPipeline base field order page limit).
Proof.
  unfold dataPipeline. eapply Forall_impl; [apply groupStage_groupFromRows|].
  intros g. apply groupFromRows_mono. intros r Hr.
  apply subseteq_take, subseteq_drop in Hr.
  unfold sortStage in Hr. by rewrite sort_Permutation in Hr.
Qed.

End GetOrdersFacts.

Lemma ceil_div_spec (a b : Z) :
  0 <= a → 1 <= b →
  ∃ n, JsNum.ceil_div a b = JsNum.of_Z n ∧ (n - 1) * b < a ∧ a <= n * b.
Proof.
  intros Ha Hb. unfold JsNum.ceil_div.
  destruct (Z.eqb_spec b 0); [lia|].
  exists ((a + b - 1) / b). split; [done|].
  pose proof (Z.div_mod (a + b - 1) b ltac:(lia)) as Hdm.
  pose proof (Z.mod_pos_bound (a + b - 1) b ltac:(lia)) as Hm.
  nia.
Qed.

Lemma NoDup_fmap_eq {A B} (f : A → B) (l : list A) (x y : A) :
  NoDup (f <$> l) → x ∈ l → y ∈ l → f x = f y → x = y.
Proof.
  induction l as [|a l IH]; cbn; [by intros _ ?%elem_of_nil|].
  intros [Hnin Hnd]%NoDup_cons [->|Hx]%elem_of_cons [->|Hy]%elem_of_cons Hf.
  - done.
  - destruct Hnin. rewrite Hf. by apply list_elem_of_fmap_2.
  - destruct Hnin. rewrite <- Hf. by apply list_elem_of_fmap_2.
  - by apply IH.
Qed.

(** X4.  A page of [getOrders] is cut from the flattened rows: it lists at
    most [pageSize] products over all of its orders, so at most [pageSize]
    orders, and [pageSize] is between 1 and 10; no order is on the page
    twice, and the page never holds more orders than [totalOrders]. *)
Theorem getOrders_page_bounded `{Runtime} (db : Db) (q : OrdersQuery) (st : Z)
    (page : Page GroupedOrder) :
  getOrders db q = Send st page →
  let limit := safeLimit (q_limit q) in
  1 <= limit <= 10
  ∧ pageSize (pagination page) = JsNum.of_Z limit
  ∧ NoDup (g_id <$> docs page)
  ∧ (length (docs page) ≤ productsListed (docs page))%nat
  ∧ (productsListed (docs page) ≤ Z.to_nat limit)%nat
  ∧ Z.of_nat (length (docs page)) <= total (pagination page).
Proof.
  intros (search & filters & cond & _ & _ & _ & Hlimit & _ & Hdocs & Hpag)
    %getOrders_Send. cbn zeta.
  pose proof (safeLimit_nonneg (q_limit q)).
  pose proof (safeLimit_le_MAX_LIMIT (q_limit q)). unfold MAX_LIMIT in *.
  rewrite Hdocs, Hpag. cbn [total pageSize].
  split_and!; [lia | lia | done | | | | ].
  - apply groupStage_NoDup; done.
  - apply length_le_productsListed.
    eapply Forall_impl; [apply dataPipeline_rows|]. by intros g (_ & ? & _).
  - unfold dataPipeline. rewrite groupStage_productsListed, length_take. lia.
  - rewrite totalOf_countPipeline. apply inj_le.
    rewrite <- (length_fmap g_id).
    rewrite <- (list_fmap_id (groupStage _ _ id _)).
    apply submseteq_length, NoDup_submseteq.
    + apply groupStage_NoDup; done.
    + intros x (r & Hr & Hx)%dataPipeline_ids.
      apply groupStage_elem; [done..|]. exists r. split; [|done].
      apply subseteq_take, subseteq_drop in Hr.
      unfold sortStage in Hr. by rewrite sort_Permutation in Hr.
Qed.

Lemma getOrders_page_bounded_witness :
  ∃ page,
    getOrders (H:=Example.runtime) Example.warehouse
      (Example.ordersQuery (Some (QStr "2")) None None) = Send 200 page
    ∧ let limit := safeLimit (H:=Example.runtime) (Some (QStr "2")) in
      1 <= limit <= 10
      ∧ pageSize (pagination page) = JsNum.of_Z limit
      ∧ NoDup (g_id <$> docs page)
      ∧ (length (docs page) ≤ productsListed (docs page))%nat
      ∧ (productsListed (docs page) ≤ Z.to_nat limit)%nat
      ∧ Z.of_nat (length (docs page)) <= total (pagination page).
Proof.
  eexists. split; [reflexivity|].
  apply (getOrders_page_bounded (H:=Example.runtime) Example.warehouse
           (Example.ordersQuery (Some (QStr "2")) None None) 200).
  reflexivity.
Defined.

(** X5.  [totalPages] of [getOrders] is the least number of pages of
    [pageSize] orders that hold [totalOrders] orders. *)
Theorem getOrders_totalPages `{Runtime} (db : Db) (q : OrdersQuery) (st : Z)
    (page : Page GroupedOrder) :
  getOrders db q = Send st page →
  ∃ n limit,
    totalPages (pagination page) = JsNum.of_Z n
    ∧ pageSize (pagination page) = JsNum.of_Z limit
    ∧ 0 <= n
    ∧ (n - 1) * limit < total (pagination page)
    ∧ total (pagination page) <= n * limit.
Proof.
  intros (search & filters & cond & _ & _ & _ & Hlimit & _ & _ & Hpag)
    %getOrders_Send.
  pose proof (safeLimit_nonneg (q_limit q)).
  rewrite Hpag. cbn [total pageSize totalPages].
  rewrite totalOf_countPipeline.
  destruct (ceil_div_spec
              (Z.of_nat (length (groupStage (fun r => order_id (row_order r))
                                            (fun g _ => g) id
                                            (basePipeline db filters cond))))
              (safeLimit (q_limit q))) as (n & Hn & Hlo & Hhi); [lia..|].
  exists n, (safeLimit (q_limit q)). split_and!; try done. nia.
Qed.

Lemma getOrders_totalPages_witness :
  ∃ page,
    getOrders (H:=Example.runtime) Example.warehouse
      (Example.ordersQuery (Some (QStr "2")) None None) = Send 200 page
    ∧ ∃ n limit,
        totalPages (pagination page) = JsNum.of_Z n
        ∧ pageSize (pagination page) = JsNum.of_Z limit
        ∧ 0 <= n
        ∧ (n - 1) * limit < total (pagination page)
        ∧ total (pagination page) <= n * limit.
Proof.
  eexists. split; [reflexivity|].
  apply (getOrders_totalPages (H:=Example.runtime) Example.warehouse
           (Example.ordersQuery (Some (QStr "2")) None None) 200).
  reflexivity.
Defined.

Section FilterFacts.
Context `{Runtime}.

Lemma statusFilter_Pass (v : option qvalue) (st : option string) :
  statusFilter v = Pass st →
  ∀ s, v = Some (QStr s) → st = Some s.
Proof.
  unfold statusFilter. intros Hst s ->.
  destruct (bool_decide _); [|done]. by injection Hst.
Qed.

Lemma numberBound_Pass (field : string) (r r' : Range Q) (v : option qvalue)
    (set : Range Q → Q → Range Q) :
  numberBound field r v set = Pass r' →
  match v with
  | None => r' = r
  | Some x => ∃ a, Number_ x = Finite a ∧ r' = set r a
  end.
Proof.
  unfold numberBound. destruct v as [x|]; [|by intros [= <-]].
  destruct (Number_ x) as [| | |a]; cbn; try done.
  intros [= <-]. by exists a.
Qed.

Lemma dateBound_Pass (field : string) (r r' : Range Z) (v : option qvalue)
    (adjust : Z → Z) (set : Range Z → Z → Range Z) :
  dateBound field r v adjust set = Pass r' →
  match v with
  | None => r' = r
  | Some (QStr s) => ∃ d, Date_parse s = Some d ∧ r' = set r (adjust d)
  | Some _ => False
  end.
Proof.
  unfold dateBound. destruct v as [[s|l|]|]; try done; [|by intros [= <-]].
  destruct (Date_parse s) as [d|]; [|done].
  intros [= <-]. by exists d.
Qed.

(** The bounds that [filters] holds for the parameters of the request. *)
Lemma orderFilters_Pass (q : OrdersQuery) (f : OrderFilters) :
  orderFilters q = Pass f →
  (∀ s, q_status q = Some (QStr s) → f_status f = Some s)
  ∧ (∀ v a, q_totalAmountFrom q = Some v → Number_ v = Finite a →
       gte (f_totalAmount f) = Some a)
  ∧ (∀ v a, q_totalAmountTo q = Some v → Number_ v = Finite a →
       lte (f_totalAmount f) = Some a)
  ∧ (∀ s d, q_orderDateFrom q = Some (QStr s) → Date_parse s = Some d →
       gte (f_createdAt f) = Some d)
  ∧ (∀ s d, q_orderDateTo q = Some (QStr s) → Date_parse s = Some d →
       lte (f_createdAt f) = Some d).
Proof.
  unfold orderFilters.
  destruct (statusFilter (q_status q)) as [st|] eqn:Hst; cbn; [|done].
  destruct (numberBound _ _ (q_totalAmountFrom q) _) as [a1|] eqn:Ha1; cbn; [|done].
  destruct (numberBound _ _ (q_totalAmountTo q) _) as [a2|] eqn:Ha2; cbn; [|done].
  destruct (dateBound _ _ (q_orderDateFrom q) _ _) as [d1|] eqn:Hd1; cbn; [|done].
  destruct (dateBound _ _ (q_orderDateTo q) _ _) as [d2|] eqn:Hd2; cbn; [|done].
  intros [= <-]. cbn.
  apply numberBound_Pass in Ha1, Ha2. apply dateBound_Pass in Hd1, Hd2.
  split_and!.
  - by apply statusFilter_Pass.
  - intros v a Hv Hn. rewrite Hv in Ha1. destruct Ha1 as (a' & Ha' & ->).
    destruct (q_totalAmountTo q); [destruct Ha2 as (? & _ & ->)|subst a2];
      cbn; congruence.
  - intros v a Hv Hn. rewrite Hv in Ha2. destruct Ha2 as (a' & Ha' & ->).
    cbn. congruence.
  - intros s d Hv Hn. rewrite Hv in Hd1. destruct Hd1 as (d' & Hd' & ->).
    destruct (q_orderDateTo q) as [[]|]; try done;
      [destruct Hd2 as (? & _ & ->)|subst d2]; cbn; congruence.
  - intros s d Hv Hn. rewrite Hv in Hd2. destruct Hd2 as (d' & Hd' & ->).
    cbn. congruence.
Qed.

Lemma matchFilters_true (f : OrderFilters) (o : IOrder) :
  matchFilters f o = true →
  (∀ s, f_status f = Some s → status o = s)
  ∧ (∀ a, gte (f_totalAmount f) = Some a → (a <= inject_Z (totalAmount o))%Q)
  ∧ (∀ a, lte (f_totalAmount f) = Some a → (inject_Z (totalAmount o) <= a)%Q)
  ∧ (∀ d, gte (f_createdAt f) = Some d → d <= createdAt o)
  ∧ (∀ d, lte (f_createdAt f) = Some d → createdAt o <= d).
Proof.
  unfold matchFilters, in_range_Q, in_range_Z.
  intros [[Hs [Ha1 Ha2]%andb_prop]%andb_prop [Hd1 Hd2]%andb_prop]%andb_prop.
  split_and!.
  - intros s Hf. rewrite Hf in Hs. by apply String.eqb_eq.
  - intros a Hf. rewrite Hf in Ha1. by apply Qle_bool_iff.
  - intros a Hf. rewrite Hf in Ha2. by apply Qle_bool_iff.
  - intros d Hf. rewrite Hf in Hd1. by apply Z.leb_le.
  - intros d Hf. rewrite Hf in Hd2. by apply Z.leb_le.
Qed.

End FilterFacts.

(** X6.  Every order on a page of [getOrders] shows an order of the
    database, with its own number, status, total and date and with the
    customer it references, and it is inside every bound of the request:
    the status asked for, the two amounts and the two dates. *)
Theorem getOrders_respects_filters `{Runtime} (db : Db) (q : OrdersQuery)
    (st : Z) (page : Page GroupedOrder) :
  getOrders db q = Send st page →
  Forall (fun g =>
    (∃ o, o ∈ db_orders db ∧ groupOfOrder o g)
    ∧ (∀ s, q_status q = Some (QStr s) → g_status g = s)
    ∧ (∀ v a, q_totalAmountFrom q = Some v → Number_ v = Finite a →
         (a <= inject_Z (g_totalAmount g))%Q)
    ∧ (∀ v a, q_totalAmountTo q = Some v → Number_ v = Finite a →
         (inject_Z (g_totalAmount g) <= a)%Q)
    ∧ (∀ s d, q_orderDateFrom q = Some (QStr s) → Date_parse s = Some d →
         d <= g_createdAt g)
    ∧ (∀ s d, q_orderDateTo q = Some (QStr s) → Date_parse s = Some d →
         g_createdAt g <= d))
    (docs page).
Proof.
  intros (search & filters & cond & _ & Hf & _ & _ & _ & Hdocs & _)
    %getOrders_Send.
  rewrite Hdocs. eapply Forall_impl; [apply dataPipeline_rows|].
  intros g ((r & Hr & Hid & Hnum & Hst & Ham & Hcr & Hcu) & _ & _).
  apply basePipeline_elem in Hr as (_ & Ho & Hm & _ & Hown & _ & _).
  apply orderFilters_Pass in Hf as (Fs & Fa1 & Fa2 & Fd1 & Fd2).
  apply matchFilters_true in Hm as (Ms & Ma1 & Ma2 & Md1 & Md2).
  split_and!.
  - exists (row_order r). split; [done|].
    unfold groupOfOrder. by rewrite Hid, Hnum, Hst, Ham, Hcr, Hcu.
  - intros s Hq. rewrite Hst. by apply Ms, Fs.
  - intros v a Hq Hn. rewrite Ham. by eapply Ma1, Fa1.
  - intros v a Hq Hn. rewrite Ham. by eapply Ma2, Fa2.
  - intros s d Hq Hd. rewrite Hcr. by eapply Md1, Fd1.
  - intros s d Hq Hd. rewrite Hcr. by eapply Md2, Fd2.
Qed.

Lemma getOrders_respects_filters_witness :
  ∃ page,
    getOrders (H:=Example.runtime) Example.warehouse
      (Example.ordersQuery None (Some (QStr "2023-03-01")) None) = Send 200 page
    ∧ Forall (fun g =>
        (∃ o, o ∈ db_orders Example.warehouse ∧ groupOfOrder o g)
        ∧ (∀ s, None = Some (QStr s) → g_status g = s)
        ∧ (∀ v a, None = Some v → Example.number v = Finite a →
             (a <= inject_Z (g_totalAmount g))%Q)
        ∧ (∀ v a, None = Some v → Example.number v = Finite a →
             (inject_Z (g_totalAmount g) <= a)%Q)
        ∧ (∀ s d, None = Some (QStr s) → Example.dateParse s = Some d →
             d <= g_createdAt g)
        ∧ (∀ s d, Some (QStr "2023-03-01") = Some (QStr s) →
             Example.dateParse s = Some d → g_createdAt g <= d))
        (docs page).
Proof.
  eexists. split; [reflexivity|].
  apply (getOrders_respects_filters (H:=Example.runtime) Example.warehouse
           (Example.ordersQuery None (Some (QStr "2023-03-01")) None) 200).
  reflexivity.
Defined.

(** X7.  The joins of [getOrders] are inner joins.  Every order on a page
    carries a customer that exists and at least one product, all of them
    products of the catalog; an order whose customer does not exist, or
    none of whose products exists, is on no page. *)
Theorem getOrders_inner_join `{Runtime} (db : Db) (q : OrdersQuery) (st : Z)
    (page : Page GroupedOrder) :
  getOrders db q = Send st page →
  NoDup (order_id <$> db_orders db) →
  Forall (fun g =>
    g_customer g ∈ db_users db
    ∧ g_products g ≠ []
    ∧ ∀ p, p ∈ g_products g → p ∈ db_products db)
    (docs page)
  ∧ ∀ o, o ∈ db_orders db →
      lookupCustomer db o = [] ∨ lookupProducts db o = [] →
      order_id o ∉ g_id <$> docs page.
Proof.
  intros (search & filters & cond & _ & _ & _ & _ & _ & Hdocs & _)
    %getOrders_Send Hids.
  rewrite Hdocs.
  pose proof (dataPipeline_rows (basePipeline db filters cond)
    (safeSortField allowedSortFields (q_sortField q))
    (safeSortOrder (q_sortOrder q)) (safePage (q_page q))
    (safeLimit (q_limit q))) as Hrows.
  split.
  - eapply Forall_impl; [exact Hrows|].
    intros g ((r & Hr & Hh) & Hne & Hp).
    apply basePipeline_elem in Hr as (_ & _ & _ & Hc & _).
    destruct Hh as (_ & _ & _ & _ & _ & ->). split_and!; [done..|].
    intros p (r' & Hr' & _ & <-)%Hp.
    by apply basePipeline_elem in Hr' as (_ & _ & _ & _ & _ & ? & _).
  - intros o Ho Hempty (g & Hgo & Hg)%list_elem_of_fmap.
    rewrite Forall_forall in Hrows.
    destruct (Hrows g Hg) as ((r & Hr & Hid & _) & _).
    apply basePipeline_elem in Hr as (_ & Hro & _ & Hc & Hcu & Hp & Hpr).
    assert (row_order r = o) as <-.
    { apply (NoDup_fmap_eq order_id (db_orders db)); [done..|congruence]. }
    destruct Hempty as [Hempty|Hempty].
    + assert (row_customer r ∈ lookupCustomer db (row_order r)) as Hin
        by (by apply list_elem_of_filter).
      rewrite Hempty in Hin. by apply elem_of_nil in Hin.
    + assert (row_product r ∈ lookupProducts db (row_order r)) as Hin
        by (by apply list_elem_of_filter).
      rewrite Hempty in Hin. by apply elem_of_nil in Hin.
Qed.

Lemma getOrders_inner_join_witness :
  ∃ page,
    getOrders (H:=Example.runtime) Example.warehouse
      (Example.ordersQuery None None None) = Send 200 page
    ∧ Forall (fun g =>
        g_customer g ∈ db_users Example.warehouse
        ∧ g_products g ≠ []
        ∧ ∀ p, p ∈ g_products g → p ∈ db_products Example.warehouse)
        (docs page)
    ∧ ∀ o, o ∈ db_orders Example.warehouse →
        lookupCustomer Example.warehouse o = []
        ∨ lookupProducts Example.warehouse o = [] →
        order_id o ∉ g_id <$> docs page.
Proof.
  eexists. split; [reflexivity|].
  apply (getOrders_inner_join (H:=Example.runtime) Example.warehouse
           (Example.ordersQuery None None None) 200).
  - reflexivity.
  - apply (bool_decide_unpack _). reflexivity.
Defined.

(** ** The customers list *)

Section SortedFacts.
Context {A : Type} (key_of : A → Sort.key) (descending : bool).

Lemma key_leb_total (a b : Sort.key) :
  Sort.key_leb a b = true ∨ Sort.key_leb b a = true.
Proof.
  destruct a as [|x|x], b as [|y|y]; cbn; auto.
  - destruct (Z.leb_spec x y); [by left|right]. apply Z.leb_le. lia.
  - apply String.leb_total.
Qed.

Lemma before_total (x y : A) :
  Sort.before key_of descending x y = true
  ∨ Sort.before key_of descending y x = true.
Proof.
  unfold Sort.before. destruct descending.
  - destruct (key_leb_total (key_of y) (key_of x)); auto.
  - apply key_leb_total.
Qed.

Lemma insert_Sorted (x : A) (l : list A) :
  Sorted (fun a b => Sort.before key_of descending a b = true) l →
  Sorted (fun a b => Sort.before key_of descending a b = true)
         (Sort.insert key_of descending x l).
Proof.
  induction 1 as [|y l Hl IH Hhd]; cbn.
  - by repeat constructor.
  - destruct (Sort.before key_of descending x y) eqn:Hxy.
    + constructor; [by constructor|]. by constructor.
    + constructor; [done|].
      destruct (before_total x y) as [?|Hyx]; [congruence|].
      destruct Hhd as [|z l' Hyz]; cbn.
      * by constructor.
      * destruct (Sort.before key_of descending x z); by constructor.
Qed.

Lemma sort_Sorted (l : list A) :
  Sorted (fun a b => Sort.before key_of descending a b = true)
         (Sort.sort key_of descending l).
Proof.
  unfold Sort.sort. induction l as [|x l IH]; cbn; [constructor|].
  by apply insert_Sorted.
Qed.

Lemma Sorted_drop (R : A → A → Prop) (n : nat) (l : list A) :
  Sorted R l → Sorted R (drop n l).
Proof.
  revert l. induction n as [|n IH]; intros l Hl; [done|].
  destruct l as [|x l]; [done|]. cbn. apply IH. by inversion Hl.
Qed.

Lemma Sorted_take (R : A → A → Prop) (n : nat) (l : list A) :
  Sorted R l → Sorted R (take n l).
Proof.
  revert l. induction n as [|n IH]; intros l Hl; [constructor|].
  destruct l as [|x l]; [constructor|]. cbn.
  inversion Hl as [|? ? Hl' Hhd]; subst. constructor; [by apply IH|].
  destruct n; [constructor|]. destruct Hhd; cbn; by constructor.
Qed.

End SortedFacts.

Section CustomersFacts.
Context `{Runtime}.

Lemma getCustomers_Send (db : Db) (q : CustomersQuery) (st : Z)
    (page : Page IUser) :
  getCustomers db q = Send st page →
  ∃ filters,
    customerFilters db q = Pass filters
    ∧ st = 200
    ∧ docs page
      = findLimit (safeLimit (c_limit q))
          (drop (Z.to_nat ((safePage (c_page q) - 1) * safeLimit (c_limit q)))
             (Sort.sort
                (customerSortKey
                   (safeSortField allowedCustomerSortFields (c_sortField q)))
                (String.eqb (safeSortOrder (c_sortOrder q)) "desc")
                (filter (fun u => matchCustomer filters u = true) (db_users db))))
    ∧ pagination page
      = {| total :=
             Z.of_nat (length (filter (fun u => matchCustomer filters u = true)
                                      (db_users db)));
           totalPages :=
             JsNum.ceil_div
               (Z.of_nat (length (filter (fun u => matchCustomer filters u = true)
                                         (db_users db))))
               (safeLimit (c_limit q));
           currentPage := JsNum.of_Z (safePage (c_page q));
           pageSize := JsNum.of_Z (safeLimit (c_limit q)) |}.
Proof.
  unfold getCustomers, finish.
  destruct (customerFilters db q) as [filters|]; cbn; [|done].
  intros [= <- <-]. by exists filters.
Qed.

Lemma findLimit_subseteq {A} (limit : Z) (l : list A) : findLimit limit l ⊆ l.
Proof. unfold findLimit. destruct (limit =? 0); [done|apply subseteq_take]. Qed.

(** The bounds that [filters] holds for the parameters of the request. *)
Lemma customerFilters_Pass (db : Db) (q : CustomersQuery) (f : CustomerFilters) :
  customerFilters db q = Pass f →
  (∀ s d, c_registrationDateFrom q = Some (QStr s) → Date_parse s = Some d →
     gte (f_userCreatedAt f) = Some d)
  ∧ (∀ s d, c_registrationDateTo q = Some (QStr s) → Date_parse s = Some d →
       lte (f_userCreatedAt f) = Some (setHours_23_59_59_999 d))
  ∧ (∀ s d, c_lastOrderDateFrom q = Some (QStr s) → Date_parse s = Some d →
       gte (f_lastOrderDate f) = Some d)
  ∧ (∀ s d, c_lastOrderDateTo q = Some (QStr s) → Date_parse s = Some d →
       lte (f_lastOrderDate f) = Some (setHours_23_59_59_999 d))
  ∧ (∀ v a, c_totalAmountFrom q = Some v → Number_ v = Finite a →
       gte (f_userTotalAmount f) = Some a)
  ∧ (∀ v a, c_totalAmountTo q = Some v → Number_ v = Finite a →
       lte (f_userTotalAmount f) = Some a)
  ∧ (∀ v a, c_orderCountFrom q = Some v → Number_ v = Finite a →
       gte (f_orderCount f) = Some a)
  ∧ (∀ v a, c_orderCountTo q = Some v → Number_ v = Finite a →
       lte (f_orderCount f) = Some a)
  ∧ (∀ s, c_search q = Some (QStr s) →
       JsString.truthy (JsString.trim s) = true →
       f_or f = Some (RegExp.literal (JsString.trim s),
                      ordersByAddress db (RegExp.literal (JsString.trim s)))).
Proof.
  unfold customerFilters, customerRanges.
  destruct (safeSearch (c_search q)) as [search|] eqn:Hs; cbn; [|done].
  destruct (dateBound _ _ (c_registrationDateFrom q) _ _) as [r1|] eqn:Hr1; cbn; [|done].
  destruct (dateBound _ _ (c_registrationDateTo q) _ _) as [r2|] eqn:Hr2; cbn; [|done].
  destruct (dateBound _ _ (c_lastOrderDateFrom q) _ _) as [l1|] eqn:Hl1; cbn; [|done].
  destruct (dateBound _ _ (c_lastOrderDateTo q) _ _) as [l2|] eqn:Hl2; cbn; [|done].
  destruct (numberBound _ _ (c_totalAmountFrom q) _) as [a1|] eqn:Ha1; cbn; [|done].
  destruct (numberBound _ _ (c_totalAmountTo q) _) as [a2|] eqn:Ha2; cbn; [|done].
  destruct (numberBound _ _ (c_orderCountFrom q) _) as [n1|] eqn:Hn1; cbn; [|done].
  destruct (numberBound _ _ (c_orderCountTo q) _) as [n2|] eqn:Hn2; cbn; [|done].
  destruct (customerSearch db search) as [or|] eqn:Hor; cbn; [|done].
  intros [= <-]. cbn.
  apply dateBound_Pass in Hr1, Hr2, Hl1, Hl2.
  apply numberBound_Pass in Ha1, Ha2, Hn1, Hn2.
  split_and!.
  - intros s d Hv Hd. rewrite Hv in Hr1. destruct Hr1 as (d' & Hd' & ->).
    destruct (c_registrationDateTo q) as [[]|]; try done;
      [destruct Hr2 as (? & _ & ->)|subst r2]; cbn; unfold id; congruence.
  - intros s d Hv Hd. rewrite Hv in Hr2. destruct Hr2 as (d' & Hd' & ->).
    cbn. congruence.
  - intros s d Hv Hd. rewrite Hv in Hl1. destruct Hl1 as (d' & Hd' & ->).
    destruct (c_lastOrderDateTo q) as [[]|]; try done;
      [destruct Hl2 as (? & _ & ->)|subst l2]; cbn; unfold id; congruence.
  - intros s d Hv Hd. rewrite Hv in Hl2. destruct Hl2 as (d' & Hd' & ->).
    cbn. congruence.
  - intros v a Hv Hn. rewrite Hv in Ha1. destruct Ha1 as (a' & Ha' & ->).
    destruct (c_totalAmountTo q); [destruct Ha2 as (? & _ & ->)|subst a2];
      cbn; congruence.
  - intros v a Hv Hn. rewrite Hv in Ha2. destruct Ha2 as (a' & Ha' & ->).
    cbn. congruence.
  - intros v a Hv Hn. rewrite Hv in Hn1. destruct Hn1 as (a' & Ha' & ->).
    destruct (c_orderCountTo q); [destruct Hn2 as (? & _ & ->)|subst n2];
      cbn; congruence.
  - intros v a Hv Hn. rewrite Hv in Hn2. destruct Hn2 as (a' & Ha' & ->).
    cbn. congruence.
  - intros s Hv Ht. rewrite Hv in Hs. unfold safeSearch in Hs.
    destruct (50 <? _); [done|]. injection Hs as <-.
    rewrite customerSearch_literal in Hor by done. by injection Hor as <-.
Qed.

Lemma in_range_Z_true (r : Range Z) (v : Z) :
  in_range_Z r v = true →
  (∀ d, gte r = Some d → d <= v) ∧ (∀ d, lte r = Some d → v <= d).
Proof.
  unfold in_range_Z. intros [H1 H2]%andb_prop. split.
  - intros d Hd. rewrite Hd in H1. by apply Z.leb_le.
  - intros d Hd. rewrite Hd in H2. by apply Z.leb_le.
Qed.

Lemma in_range_Q_true (r : Range Q) (v : Z) :
  in_range_Q r v = true →
  (∀ a, gte r = Some a → (a <= inject_Z v)%Q)
  ∧ (∀ a, lte r = Some a → (inject_Z v <= a)%Q).
Proof.
  unfold in_range_Q. intros [H1 H2]%andb_prop. split.
  - intros d Hd. rewrite Hd in H1. by apply Qle_bool_iff.
  - intros d Hd. rewrite Hd in H2. by apply Qle_bool_iff.
Qed.

Lemma in_range_opt_true (r : Range Z) (v : option Z) :
  in_range_opt r v = true →
  (∀ d, gte r = Some d → ∃ t, v = Some t ∧ d <= t)
  ∧ (∀ d, lte r = Some d → ∃ t, v = Some t ∧ t <= d).
Proof.
  unfold in_range_opt. intros Hr. split.
  - intros d Hd. rewrite Hd in Hr. destruct v as [t|]; [|by destruct (lte r)].
    exists t. split; [done|].
    assert (in_range_Z r t = true) as Hin by (by destruct (lte r)).
    by apply (in_range_Z_true _ _ Hin).
  - intros d Hd. rewrite Hd in Hr.
    destruct v as [t|]; [|by destruct (gte r)].
    exists t. split; [done|].
    assert (in_range_Z r t = true) as Hin by (by destruct (gte r)).
    by apply (in_range_Z_true _ _ Hin).
Qed.

End CustomersFacts.

(** X8.  Every customer that [getCustomers] returns is a user of the
    database inside every bound of the request: registered between the
    lower date and the end of the day of the upper date, with a last order
    date between its two bounds (a customer without that date is left
    out), with total and order count between their bounds; and when a
    search text is given, the text occurs in the name, or the last order is
    one of the orders whose delivery address holds the text. *)
Theorem getCustomers_respects_filters `{Runtime} (db : Db) (q : CustomersQuery)
    (st : Z) (page : Page IUser) :
  getCustomers db q = Send st page →
  Forall (fun u =>
    u ∈ db_users db
    ∧ (∀ s d, c_registrationDateFrom q = Some (QStr s) → Date_parse s = Some d →
         d <= user_createdAt u)
    ∧ (∀ s d, c_registrationDateTo q = Some (QStr s) → Date_parse s = Some d →
         user_createdAt u <= setHours_23_59_59_999 d)
    ∧ (∀ s d, c_lastOrderDateFrom q = Some (QStr s) → Date_parse s = Some d →
         ∃ t, lastOrderDate u = Some t ∧ d <= t)
    ∧ (∀ s d, c_lastOrderDateTo q = Some (QStr s) → Date_parse s = Some d →
         ∃ t, lastOrderDate u = Some t ∧ t <= setHours_23_59_59_999 d)
    ∧ (∀ v a, c_totalAmountFrom q = Some v → Number_ v = Finite a →
         (a <= inject_Z (user_totalAmount u))%Q)
    ∧ (∀ v a, c_totalAmountTo q = Some v → Number_ v = Finite a →
         (inject_Z (user_totalAmount u) <= a)%Q)
    ∧ (∀ v a, c_orderCountFrom q = Some v → Number_ v = Finite a →
         (a <= inject_Z (orderCount u))%Q)
    ∧ (∀ v a, c_orderCountTo q = Some v → Number_ v = Finite a →
         (inject_Z (orderCount u) <= a)%Q)
    ∧ (∀ s, c_search q = Some (QStr s) →
         JsString.truthy (JsString.trim s) = true →
         JsString.contains_ci (JsString.trim s) (name u) = true
         ∨ ∃ o, o ∈ db_orders db ∧ lastOrder u = Some (order_id o)
                ∧ JsString.contains_ci (JsString.trim s) (deliveryAddress o) = true))
    (docs page).
Proof.
  intros (f & Hf & _ & Hdocs & _)%getCustomers_Send.
  apply customerFilters_Pass in Hf as (F1 & F2 & F3 & F4 & F5 & F6 & F7 & F8 & F9).
  rewrite Hdocs. apply Forall_forall. intros u Hu.
  apply findLimit_subseteq, subseteq_drop in Hu.
  rewrite sort_Permutation in Hu.
  apply list_elem_of_filter in Hu as [Hm Hu]. unfold matchCustomer in Hm.
  apply andb_prop in Hm as [[[[Hc Hl]%andb_prop Ha]%andb_prop Hn]%andb_prop Hor].
  apply in_range_Z_true in Hc as [C1 C2]. apply in_range_opt_true in Hl as [L1 L2].
  apply in_range_Q_true in Ha as [A1 A2]. apply in_range_Q_true in Hn as [N1 N2].
  split_and!; [done|eauto..|].
  intros s Hs Ht. rewrite (F9 s Hs Ht) in Hor.
  apply orb_prop in Hor as [Hname|Hlast].
  - left. by rewrite test_literal in Hname.
  - right. destruct (lastOrder u) as [id|]; [|done].
    apply bool_decide_eq_true in Hlast. unfold ordersByAddress in Hlast.
    apply list_elem_of_fmap in Hlast as (o & -> & Ho).
    apply subseteq_take in Ho. apply list_elem_of_filter in Ho as [Hre Ho].
    exists o. split_and!; [done..|]. by rewrite test_literal in Hre.
Qed.

Lemma getCustomers_respects_filters_witness :
  ∃ page,
    getCustomers (H:=Example.runtime) Example.lamps
      (Example.customersSearch " ИВАН ") = Send 200 page
    ∧ name <$> docs page = ["Иван"]
    ∧ Forall (fun u =>
        u ∈ db_users Example.lamps
        ∧ (∀ s d, None = Some (QStr s) → Example.dateParse s = Some d →
             d <= user_createdAt u)
        ∧ (∀ s d, None = Some (QStr s) → Example.dateParse s = Some d →
             user_createdAt u
             <= setHours_23_59_59_999 (H:=Example.runtime) d)
        ∧ (∀ s d, None = Some (QStr s) → Example.dateParse s = Some d →
             ∃ t, lastOrderDate u = Some t ∧ d <= t)
        ∧ (∀ s d, None = Some (QStr s) → Example.dateParse s = Some d →
             ∃ t, lastOrderDate u = Some t
                  ∧ t <= setHours_23_59_59_999 (H:=Example.runtime) d)
        ∧ (∀ v a, None = Some v → Example.number v = Finite a →
             (a <= inject_Z (user_totalAmount u))%Q)
        ∧ (∀ v a, None = Some v → Example.number v = Finite a →
             (inject_Z (user_totalAmount u) <= a)%Q)
        ∧ (∀ v a, None = Some v → Example.number v = Finite a →
             (a <= inject_Z (orderCount u))%Q)
        ∧ (∀ v a, None = Some v → Example.number v = Finite a →
             (inject_Z (orderCount u) <= a)%Q)
        ∧ (∀ s, Some (QStr " ИВАН ") = Some (QStr s) →
             JsString.truthy (JsString.trim s) = true →
             JsString.contains_ci (H:=Example.engine) (JsString.trim s) (name u)
             = true
             ∨ ∃ o, o ∈ db_orders Example.lamps
                    ∧ lastOrder u = Some (order_id o)
                    ∧ JsString.contains_ci (H:=Example.engine)
                        (JsString.trim s) (deliveryAddress o) = true))
        (docs page).
Proof.
  eexists. split; [reflexivity|]. split; [reflexivity|].
  apply (getCustomers_respects_filters (H:=Example.runtime) Example.lamps
           (Example.customersSearch " ИВАН ") 200).
  reflexivity.
Defined.

(** X9.  The customers of a page come in the order of the sort: each one
    is before or level with the next under the key of the effective field
    and direction.  [totalUsers] counts the users that pass the filters of
    the request, on whatever page, so the page never holds more; with a
    page size other than 0 the page holds at most [pageSize] customers, at
    most 10, and [totalPages] is the least number of such pages that hold
    [totalUsers]. *)
Theorem getCustomers_page_sorted `{Runtime} (db : Db) (q : CustomersQuery)
    (st : Z) (page : Page IUser) :
  getCustomers db q = Send st page →
  let limit := safeLimit (c_limit q) in
  Sorted (fun a b =>
            Sort.before
              (customerSortKey
                 (safeSortField allowedCustomerSortFields (c_sortField q)))
              (String.eqb (safeSortOrder (c_sortOrder q)) "desc") a b = true)
         (docs page)
  ∧ (∃ filters,
       customerFilters db q = Pass filters
       ∧ total (pagination page)
         = Z.of_nat (length (filter (fun u => matchCustomer filters u = true)
                                    (db_users db))))
  ∧ Z.of_nat (length (docs page)) <= total (pagination page)
  ∧ pageSize (pagination page) = JsNum.of_Z limit
  ∧ (limit ≠ 0 →
     Z.of_nat (length (docs page)) <= limit <= 10
     ∧ ∃ n, totalPages (pagination page) = JsNum.of_Z n
            ∧ (n - 1) * limit < total (pagination page)
            ∧ total (pagination page) <= n * limit).
Proof.
  intros (f & Hf & _ & Hdocs & Hpag)%getCustomers_Send. cbn zeta.
  pose proof (safeLimit_nonneg (c_limit q)).
  pose proof (safeLimit_le_MAX_LIMIT (c_limit q)). unfold MAX_LIMIT in *.
  rewrite Hdocs, Hpag. cbn [total pageSize totalPages].
  split_and!.
  - unfold findLimit. destruct (_ =? 0); [|apply Sorted_take];
      apply Sorted_drop, sort_Sorted.
  - by exists f.
  - apply inj_le. unfold findLimit.
    destruct (_ =? 0); rewrite ?length_take, length_drop;
      rewrite (Permutation_length (sort_Permutation _ _ _)); lia.
  - done.
  - intros Hlimit. split.
    + unfold findLimit. destruct (Z.eqb_spec (safeLimit (c_limit q)) 0); [done|].
      rewrite length_take. lia.
    + destruct (ceil_div_spec
        (Z.of_nat (length (filter (fun u => matchCustomer f u = true) (db_users db))))
        (safeLimit (c_limit q))) as (n & Hn & ? & ?); [lia..|].
      by exists n.
Qed.

Lemma getCustomers_page_sorted_witness :
  ∃ page,
    getCustomers (H:=Example.runtime) Example.archive
      (Example.customersQuery (Some (QStr "3")) None) = Send 200 page
    ∧ let limit := safeLimit (H:=Example.runtime) (Some (QStr "3")) in
      Sorted (fun a b =>
                Sort.before (customerSortKey "createdAt") true a b = true)
             (docs page)
      ∧ (∃ filters,
           customerFilters (H:=Example.runtime) Example.archive
             (Example.customersQuery (Some (QStr "3")) None) = Pass filters
           ∧ total (pagination page)
             = Z.of_nat (length (filter
                                   (fun u => matchCustomer (H:=Example.runtime)
                                               filters u = true)
                                   (db_users Example.archive))))
      ∧ Z.of_nat (length (docs page)) <= total (pagination page)
      ∧ pageSize (pagination page) = JsNum.of_Z limit
      ∧ (limit ≠ 0 →
         Z.of_nat (length (docs page)) <= limit <= 10
         ∧ ∃ n, totalPages (pagination page) = JsNum.of_Z n
                ∧ (n - 1) * limit < total (pagination page)
                ∧ total (pagination page) <= n * limit).
Proof.
  eexists. split; [reflexivity|].
  apply (getCustomers_page_sorted (H:=Example.runtime) Example.archive
           (Example.customersQuery (Some (QStr "3")) None) 200).
  reflexivity.
Defined.

(** ** The orders of one customer *)


Lemma findUserById_Some (us : list IUser) (id : ObjectId) (u : IUser) :
  findUserById us id = Some u → u ∈ us ∧ user_id u = id.
Proof.
  unfold findUserById. intros [Hin Heq]%find_some.
  split; [by apply list_elem_of_In | by apply N.eqb_eq].
Qed.

Lemma findOrderByNumber_Some (os : list IOrder) (n : jsnum) (o : IOrder) :
  findOrderByNumber os n = Some o →
  o ∈ os ∧ JsNum.eqb_Z (orderNumber o) n = true.
Proof.
  unfold findOrderByNumber. intros [Hin Heq]%find_some.
  split; [by apply list_elem_of_In | done].
Qed.


Lemma existsb_elem_of {A} (f : A → bool) (l : list A) :
  existsb f l = true ↔ ∃ x, x ∈ l ∧ f x = true.
Proof.
  rewrite existsb_exists. split; intros (x & Hx & Hf); exists x;
    (split; [by apply list_elem_of_In | done]).
Qed.


(** With a pattern that compiles, the search keeps an order when it has
    the number that the text denotes, or when it references a product of
    the catalog whose title the pattern matches. *)
Lemma searchOrders_spec `{Runtime} (db : Db) (v : qvalue)
    (matches : string → bool) (orders : list IOrder) :
  truthy_q (Some v) = true →
  rawRegex v = Pass matches →
  ∃ filtered,
    searchOrders db (Some v) orders = Pass filtered
    ∧ ∀ o, o ∈ filtered ↔
        o ∈ orders
        ∧ ((JsNum.isNaN (Number_ v) = false
            ∧ JsNum.eqb_Z (orderNumber o) (Number_ v) = true)
           ∨ ∃ p, p ∈ db_products db
                  ∧ product_id p ∈ products o
                  ∧ matches (title p) = true).
Proof.
  intros Htruthy Hre. unfold searchOrders. rewrite Htruthy, Hre. cbn.
  eexists. split; [reflexivity|]. intros o.
  rewrite list_elem_of_filter, orb_true_iff, andb_true_iff, negb_true_iff.
  rewrite existsb_elem_of.
  split.
  - intros [Hm Ho]. split; [done|].
    destruct Hm as [Hnum|(product & Hpop & Hex)]; [by left|right].
    apply existsb_elem_of in Hex as (id & Hid & Heq). apply N.eqb_eq in Heq.
    apply list_elem_of_fmap in Hid as (p & -> & Hp).
    apply list_elem_of_filter in Hp as [Ht Hp].
    apply list_elem_of_omap in Hpop as (id & Hid & Hfind).
    apply findProduct_Some in Hfind as [_ Hfind].
    exists p. split_and!; [done| |done]. congruence.
  - intros [Ho Hm]. split; [|done].
    destruct Hm as [Hnum|(p & Hp & Hid & Ht)]; [by left|right].
    destruct (findProduct (db_products db) (product_id p)) as [product|] eqn:Hf.
    + apply findProduct_Some in Hf as Hprod. destruct Hprod as [_ Hprod].
      exists product. split.
      * apply list_elem_of_omap. by exists (product_id p).
      * apply existsb_elem_of. exists (product_id p). split.
        -- apply list_elem_of_fmap_2. by apply list_elem_of_filter.
        -- apply N.eqb_eq. congruence.
    + apply findProduct_None in Hf. destruct Hf. by apply list_elem_of_fmap_2.
Qed.


(** X11.  An order that [getOrderCurrentUserByNumber] sends is an order of
    the database with the number asked for and with the authenticated
    user as its customer, and [getOrderByNumber] sends the same order for
    the same number. *)
Theorem getOrderCurrentUserByNumber_own_order `{Runtime} (db : Db)
    (userId : ObjectId) (param : string) (st : Z) (o : IOrder) :
  getOrderCurrentUserByNumber db userId param = Send st o →
  st = 200
  ∧ o ∈ db_orders db
  ∧ customer o = userId
  ∧ (∃ n, Number_cast param = Some n ∧ JsNum.eqb_Z (orderNumber o) n = true)
  ∧ getOrderByNumber db param = Send 200 o.
Proof.
  unfold getOrderCurrentUserByNumber, getOrderByNumber.
  destruct (Number_cast param) as [n|]; [|done].
  destruct (findOrderByNumber (db_orders db) n) as [order|] eqn:Ho; [|done].
  destruct (findUserById (db_users db) (customer order)) as [c|] eqn:Hc; [|done].
  destruct (N.eqb_spec (user_id c) userId) as [Hown|]; cbn; [|done].
  intros [= <- <-].
  apply findOrderByNumber_Some in Ho as [? ?].
  apply findUserById_Some in Hc as [_ Hc].
  split_and!; try done; [congruence | by exists n].
Qed.

Lemma getOrderCurrentUserByNumber_own_order_witness :
  ∃ o,
    getOrderCurrentUserByNumber (H:=Example.runtime) Example.archive 7 "1"
    = Send 200 o
    ∧ 200 = 200
    ∧ o ∈ db_orders Example.archive
    ∧ customer o = 7%N
    ∧ (∃ n, Number_cast (Runtime:=Example.runtime) "1" = Some n
            ∧ JsNum.eqb_Z (orderNumber o) n = true)
    ∧ getOrderByNumber (H:=Example.runtime) Example.archive "1" = Send 200 o.
Proof.
  eexists. split; [reflexivity|].
  apply (getOrderCurrentUserByNumber_own_order (H:=Example.runtime)
           Example.archive 7%N "1" 200).
  reflexivity.
Defined.

(** X12.  [getOrderByNumber] answers BadRequest exactly when the number
    cannot be cast, NotFound exactly when no order has the number, and
    otherwise sends an order of the database with that number: the first
    one in the collection. *)
Theorem getOrderByNumber_cases `{Runtime} (db : Db) (param : string) :
  match Number_cast param with
  | None =>
      getOrderByNumber db param
      = Next (BadRequestError "Передан не валидный ID заказа")
  | Some n =>
      (getOrderByNumber db param = Next orderNotFound
       ∧ ∀ o, o ∈ db_orders db → JsNum.eqb_Z (orderNumber o) n = false)
      ∨ (∃ before o after,
           getOrderByNumber db param = Send 200 o
           ∧ db_orders db = before ++ o :: after
           ∧ JsNum.eqb_Z (orderNumber o) n = true
           ∧ ∀ x, x ∈ before → JsNum.eqb_Z (orderNumber x) n = false)
  end.
Proof.
  unfold getOrderByNumber, findOrderByNumber.
  destruct (Number_cast param) as [n|]; [|done].
  induction (db_orders db) as [|x l IH]; cbn.
  - left. split; [done|]. by intros o ?%elem_of_nil.
  - destruct (JsNum.eqb_Z (orderNumber x) n) eqn:Hx.
    + right. exists [], x, l. split_and!; try done. by intros ? ?%elem_of_nil.
    + destruct IH as [[Hnf Hall]|(before & o & after & Hs & -> & Ho & Hb)].
      * left. destruct (List.find _ l); [done|]. split; [done|].
        intros o [->|?]%elem_of_cons; auto.
      * right. exists (x :: before), o, after.
        destruct (List.find _ (before ++ o :: after)); [|done].
        split_and!; try done.
        intros y [->|?]%elem_of_cons; auto.
Qed.

(** ** Writing and reading orders *)

Section OrderWrites.
Context `{Runtime}.

(** The document that [createOrder] builds from a request. *)
Lemma validateOrder_fields (db : Db) (userId : ObjectId) (body : OrderBody)
    (o : NewOrder) :
  validateOrder db userId body = Pass o →
  ∃ items phone,
    b_items body = Some items
    ∧ b_phone body = VString phone
    ∧ o = {| new_totalAmount := new_totalAmount o;
             new_products := items;
             new_payment := b_payment body;
             new_phone := JsString.trim phone;
             new_email := b_email body;
             new_comment := sanitizeHtml (default "" (b_comment body));
             new_customer := userId;
             new_deliveryAddress := b_address body |}.
Proof.
  unfold validateOrder.
  destruct (b_items body) as [items|]; cbn; [|done].
  destruct (_ || _); cbn; [done|].
  destruct (b_phone body) as [| | | |phone]; cbn; try done.
  destruct (20 <? _); cbn; [done|].
  destruct (phonePattern _); cbn; [|done].
  destruct (negb _); cbn; [done|].
  destruct (forEachItem _ items) as [basket|]; cbn; [|done].
  destruct (b_total body) as [| | |t|]; cbn; try done.
  destruct (t =? _); cbn; [|done].
  intros [= <-]. by exists items, phone.
Qed.

Lemma eqb_Z_of_Z (a b : Z) : JsNum.eqb_Z a (JsNum.of_Z b) = (a =? b).
Proof.
  unfold JsNum.eqb_Z, JsNum.of_Z.
  destruct (Z.eqb_spec a b) as [->|Hne].
  - by apply Qeq_bool_iff.
  - apply not_true_is_false. intros Heq%Qeq_bool_iff.
    apply Hne. by apply inject_Z_injective.
Qed.

Lemma removeFirst_app_fresh {A} (P : A → bool) (l : list A) (x : A) :
  (∀ y, y ∈ l → P y = false) → P x = true → removeFirst P (l ++ [x]) = l.
Proof.
  intros Hl Hx. induction l as [|y l IH]; cbn; [by rewrite Hx|].
  rewrite (Hl y) by apply list_elem_of_here. f_equal.
  apply IH. intros z Hz. apply Hl. by apply list_elem_of_further.
Qed.

Lemma find_app_fresh {A} (P : A → bool) (l : list A) (x : A) :
  (∀ y, y ∈ l → P y = false) → P x = true → List.find P (l ++ [x]) = Some x.
Proof.
  intros Hl Hx. induction l as [|y l IH]; cbn; [by rewrite Hx|].
  rewrite (Hl y) by apply list_elem_of_here.
  apply IH. intros z Hz. apply Hl. by apply list_elem_of_further.
Qed.

End OrderWrites.

(** X13.  When [createOrder] sends an order, the database afterwards is
    the one before with that order added at the end of [orders]; products
    and users are untouched.  The order belongs to the authenticated user
    whatever the body says, references the submitted ids in their order
    (1 to 50 of them, each for sale), has the sum of their catalog prices,
    added as numbers are, as its total (the total of the request), a phone
    that is the trimmed phone of the request and matches the pattern, the
    sanitized comment, and the identity, number, status and date that the
    model generated. *)
Theorem createOrder_written_order `{Runtime} (db db' : Db) (userId : ObjectId)
    (body : OrderBody) (st : Z) (doc : IOrder) :
  createOrder db userId body = (Send st doc, db') →
  st = 200
  ∧ db_orders db' = db_orders db ++ [doc]
  ∧ db_products db' = db_products db
  ∧ db_users db' = db_users db
  ∧ customer doc = userId
  ∧ (∃ items, b_items body = Some items ∧ products doc = items
              ∧ (1 ≤ length items ≤ 50)%nat
              ∧ Forall (sellable db) items)
  ∧ totalAmount doc = catalogTotal db (products doc)
  ∧ b_total body = VNumber (totalAmount doc)
  ∧ (∃ p, b_phone body = VString p ∧ phone doc = JsString.trim p)
  ∧ phonePattern (phone doc) = true
  ∧ comment doc = sanitizeHtml (default "" (b_comment body))
  ∧ deliveryAddress doc = b_address body
  ∧ payment doc = b_payment body
  ∧ email doc = b_email body
  ∧ ∃ o, validateOrder db userId body = Pass o
         ∧ Order_validate o = None
         ∧ doc = orderDocument (Order_generate (db_orders db) o) o.
Proof.
  unfold createOrder.
  destruct (validateOrder db userId body) as [o|] eqn:Hv; [|done].
  destruct (Order_validate o) eqn:Hs; [done|].
  intros [= <- <- <-].
  pose proof (validateOrder_fields _ _ _ _ Hv) as (items & ph & Hi & Hp & Ho).
  apply validateOrder_Pass in Hv
    as (items' & ph' & basket & Hi' & Hlen & Hp' & Hpat & _ & Hb & Htot & Hta & _).
  assert (items' = items) as -> by congruence.
  assert (ph' = ph) as -> by congruence.
  assert (totalBasket basket = catalogTotal db items) as Hsum
    by (by eapply totalBasket_catalogTotal, forEachItem_Pass).
  cbn. rewrite Ho. cbn. split_and!; try done.
  - exists items. do 3 (split; [done|]). apply Forall_forall. intros id Hid.
    by eapply forEachItem_Pass_elem.
  - rewrite Hta. exact Hsum.
  - congruence.
  - by exists ph.
  - exists o. by rewrite <- Ho.
Qed.

Lemma createOrder_written_order_witness :
  ∃ doc db',
    createOrder (H:=Example.runtime) Example.shop 7
      (Example.body [1%N; 2%N] (VNumber 35)) = (Send 200 doc, db')
    ∧ 200 = 200
    ∧ db_orders db' = db_orders Example.shop ++ [doc]
    ∧ db_products db' = db_products Example.shop
    ∧ db_users db' = db_users Example.shop
    ∧ customer doc = 7%N
    ∧ (∃ items, Some [1%N; 2%N] = Some items ∧ products doc = items
                ∧ (1 ≤ length items ≤ 50)%nat
                ∧ Forall (sellable Example.shop) items)
    ∧ totalAmount doc = catalogTotal Example.shop (products doc)
    ∧ VNumber 35 = VNumber (totalAmount doc)
    ∧ (∃ p, VString "+71234567890" = VString p ∧ phone doc = JsString.trim p)
    ∧ phonePattern (phone doc) = true
    ∧ comment doc = Example.stripTags false ""
    ∧ deliveryAddress doc = "Main street 1"
    ∧ payment doc = "card"
    ∧ email doc = "a@example.org"
    ∧ ∃ o, validateOrder (H:=Example.runtime) Example.shop 7
             (Example.body [1%N; 2%N] (VNumber 35)) = Pass o
           ∧ Order_validate (Runtime:=Example.runtime) o = None
           ∧ doc = orderDocument (Example.generate [] o) o.
Proof.
  eexists. eexists. split; [reflexivity|].
  apply (createOrder_written_order (H:=Example.runtime) Example.shop _ 7%N
           (Example.body [1%N; 2%N] (VNumber 35)) 200).
  reflexivity.
Defined.

Section FirstMatch.
Context {A : Type} (P : A → bool).

Lemma find_split (l : list A) (x : A) :
  List.find P l = Some x →
  ∃ before after,
    l = before ++ x :: after ∧ P x = true ∧ ∀ y, y ∈ before → P y = false.
Proof.
  induction l as [|a l IH]; cbn; [done|].
  destruct (P a) eqn:Ha.
  - intros [= ->]. exists [], l. split_and!; try done. by intros ? ?%elem_of_nil.
  - intros (before & after & -> & Hx & Hb)%IH.
    exists (a :: before), after. split_and!; try done.
    intros y [->|?]%elem_of_cons; auto.
Qed.

Lemma find_middle (before after : list A) (x : A) :
  (∀ y, y ∈ before → P y = false) → P x = true →
  List.find P (before ++ x :: after) = Some x.
Proof.
  intros Hb Hx. induction before as [|a l IH]; cbn; [by rewrite Hx|].
  rewrite (Hb a) by apply list_elem_of_here.
  apply IH. intros z Hz. apply Hb. by apply list_elem_of_further.
Qed.

Lemma find_none_iff (l : list A) :
  List.find P l = None ↔ ∀ y, y ∈ l → P y = false.
Proof.
  induction l as [|a l IH]; cbn.
  - split; [by intros _ ? ?%elem_of_nil | done].
  - destruct (P a) eqn:Ha.
    + split; [done|]. intros Hl. rewrite (Hl a) in Ha; [done|].
      apply list_elem_of_here.
    + rewrite IH. split.
      * intros Hl y [->|?]%elem_of_cons; auto.
      * intros Hl y Hy. apply Hl. by apply list_elem_of_further.
Qed.

Lemma removeFirst_middle (before after : list A) (x : A) :
  (∀ y, y ∈ before → P y = false) → P x = true →
  removeFirst P (before ++ x :: after) = before ++ after.
Proof.
  intros Hb Hx. induction before as [|a l IH]; cbn; [by rewrite Hx|].
  rewrite (Hb a) by apply list_elem_of_here. f_equal.
  apply IH. intros z Hz. apply Hb. by apply list_elem_of_further.
Qed.

Lemma updateFirst_middle (f : A → A) (before after : list A) (x : A) :
  (∀ y, y ∈ before → P y = false) → P x = true →
  updateFirst P f (before ++ x :: after) = before ++ f x :: after.
Proof.
  intros Hb Hx. induction before as [|a l IH]; cbn; [by rewrite Hx|].
  rewrite (Hb a) by apply list_elem_of_here. f_equal.
  apply IH. intros z Hz. apply Hb. by apply list_elem_of_further.
Qed.

End FirstMatch.

(** X14.  [deleteOrder] fails with BadRequest, and changes nothing, when
    the route parameter does not cast to an id.  For an id, it fails with
    NotFound, and changes nothing, exactly when no order has the id.
    Otherwise it sends the first order with the id and takes that one
    document out of [orders], leaving the other orders in their order and
    products and users as they were; when the ids of the collection are
    distinct the id is then gone, so that a second [deleteOrder] fails
    with NotFound, and every other id finds what it found before. *)
Theorem deleteOrder_cases (db : Db) (param : IdParam) :
  match param with
  | NotAnId _ =>
      deleteOrder db param
      = (Next (BadRequestError "Передан не валидный ID заказа"), db)
  | IdOf id =>
      match findOrderById (db_orders db) id with
      | None =>
          deleteOrder db id = (Next orderNotFound, db)
          ∧ ∀ o, o ∈ db_orders db → order_id o ≠ id
      | Some o =>
          ∃ before after db',
            deleteOrder db id = (Send 200 o, db')
            ∧ order_id o = id
            ∧ db_orders db = before ++ o :: after
            ∧ db_orders db' = before ++ after
            ∧ db_products db' = db_products db
            ∧ db_users db' = db_users db
            ∧ (NoDup (order_id <$> db_orders db) →
               deleteOrder db' id = (Next orderNotFound, db')
               ∧ ∀ id', id' ≠ id →
                   findOrderById (db_orders db') id'
                   = findOrderById (db_orders db) id')
      end
  end.
Proof.
  destruct param as [id|m]; [|done]. unfold deleteOrder.
  destruct (findOrderById (db_orders db) id) as [o|] eqn:Hf.
  - unfold findOrderById in Hf.
    destruct (find_split _ _ _ Hf) as (before & after & Hl & Ho & Hb).
    apply N.eqb_eq in Ho.
    exists before, after, (withOrders db (before ++ after)).
    rewrite Hl, removeFirst_middle by (done || by apply N.eqb_eq).
    split_and!; try done.
    intros Hnd. rewrite fmap_app, fmap_cons in Hnd.
    apply NoDup_app in Hnd as (_ & Hba & [Hoa _]%NoDup_cons).
    assert (List.find (fun x => (order_id x =? id)%N) (before ++ after) = None)
      as Hgone.
    { apply find_none_iff. intros y [Hy|Hy]%elem_of_app; [by apply Hb|].
      apply N.eqb_neq. intros Heq. apply Hoa. rewrite Ho, <- Heq.
      by apply list_elem_of_fmap_2. }
    cbn. unfold findOrderById. rewrite Hgone. split; [done|].
    intros id' Hne.
    assert (∀ l, List.find (fun x => (order_id x =? id')%N) (l ++ o :: after)
                 = List.find (fun x => (order_id x =? id')%N) (l ++ after))
      as Hskip.
    { induction l as [|a l IH]; cbn.
      - rewrite Ho. by rewrite (proj2 (N.eqb_neq id id')) by done.
      - by rewrite IH. }
    by rewrite Hskip.
  - split; [done|]. intros o Ho Heq. unfold findOrderById in Hf.
    rewrite find_none_iff in Hf. specialize (Hf o Ho). cbn in Hf.
    by rewrite Heq, N.eqb_refl in Hf.
Qed.

Lemma createOrder_Send `{Runtime} (db db' : Db) (userId : ObjectId)
    (body : OrderBody) (st : Z) (doc : IOrder) :
  createOrder db userId body = (Send st doc, db') →
  ∃ o, validateOrder db userId body = Pass o
       ∧ Order_validate o = None
       ∧ doc = orderDocument (Order_generate (db_orders db) o) o
       ∧ db' = insertOrder db doc
       ∧ st = 200.
Proof.
  unfold createOrder.
  destruct (validateOrder db userId body) as [o|]; [|done].
  destruct (Order_validate o) eqn:Hs; [done|].
  intros [= <- <- <-]. by exists o.
Qed.

(** X15.  An order that [createOrder] has just written, under an identity
    that no earlier order has, is removed again by [deleteOrder] of that
    identity: the order is sent back and the database is the one before
    the creation. *)
Theorem createOrder_then_deleteOrder `{Runtime} (db db' : Db)
    (userId : ObjectId) (body : OrderBody) (st : Z) (doc : IOrder) :
  createOrder db userId body = (Send st doc, db') →
  (∀ o, o ∈ db_orders db → order_id o ≠ order_id doc) →
  deleteOrder db' (order_id doc) = (Send 200 doc, db).
Proof.
  unfold createOrder.
  destruct (validateOrder db userId body) as [o|]; [|done].
  destruct (Order_validate o); [done|].
  intros [= _ Hdoc <-] Hfresh. rewrite Hdoc.
  unfold deleteOrder, findOrderById. cbn [insertOrder db_orders].
  rewrite find_app_fresh.
  - rewrite removeFirst_app_fresh.
    + by destruct db.
    + intros y Hy. apply N.eqb_neq. by apply Hfresh.
    + apply N.eqb_refl.
  - intros y Hy. apply N.eqb_neq. by apply Hfresh.
  - apply N.eqb_refl.
Qed.

Lemma createOrder_then_deleteOrder_witness :
  ∃ doc db',
    createOrder (H:=Example.runtime) Example.shop 7
      (Example.body [1%N; 2%N] (VNumber 35)) = (Send 200 doc, db')
    ∧ deleteOrder db' (order_id doc) = (Send 200 doc, Example.shop).
Proof.
  eexists. eexists. split; [reflexivity|].
  apply (createOrder_then_deleteOrder (H:=Example.runtime) Example.shop _ 7%N
           (Example.body [1%N; 2%N] (VNumber 35)) 200).
  - reflexivity.
  - intros o Ho. by apply elem_of_nil in Ho.
Defined.

(** X16.  An order that [createOrder] has just written, under a number
    that no earlier order has, is what [getOrderByNumber] sends for that
    number, and what [getOrderCurrentUserByNumber] sends to the customer
    who created it; any other user gets NotFound. *)
Theorem createOrder_then_read `{Runtime} (db db' : Db) (userId : ObjectId)
    (body : OrderBody) (st : Z) (doc : IOrder) (param : string)
    (creator : IUser) :
  createOrder db userId body = (Send st doc, db') →
  (∀ o, o ∈ db_orders db → orderNumber o ≠ orderNumber doc) →
  Number_cast param = Some (JsNum.of_Z (orderNumber doc)) →
  findUserById (db_users db) userId = Some creator →
  getOrderByNumber db' param = Send 200 doc
  ∧ getOrderCurrentUserByNumber db' userId param = Send 200 doc
  ∧ ∀ other, other ≠ userId →
      getOrderCurrentUserByNumber db' other param = Next orderNotFound.
Proof.
  intros Hc Hfresh Hcast Hu.
  destruct (createOrder_Send _ _ _ _ _ _ Hc) as (o & Hv & _ & Hdoc & -> & _).
  apply validateOrder_Pass in Hv as (? & ? & ? & _ & _ & _ & _ & _ & _ & _ & _ & _ & Hnc).
  assert (customer doc = userId) as Hcust by (by rewrite Hdoc).
  assert (db_orders (insertOrder db doc) = db_orders db ++ [doc]) as Horders
    by done.
  assert (db_users (insertOrder db doc) = db_users db) as Husers by done.
  assert (findOrderByNumber (db_orders (insertOrder db doc))
            (JsNum.of_Z (orderNumber doc))
          = Some doc) as Hfind.
  { rewrite Horders. unfold findOrderByNumber. apply find_app_fresh.
    - intros y Hy. rewrite eqb_Z_of_Z. apply Z.eqb_neq. by apply Hfresh.
    - rewrite eqb_Z_of_Z. apply Z.eqb_refl. }
  apply findUserById_Some in Hu as Hid. destruct Hid as [_ Hid].
  unfold getOrderByNumber, getOrderCurrentUserByNumber.
  rewrite Hcast, Hfind, Husers, Hcust, Hu.
  split_and!; [done| |].
  - by rewrite Hid, N.eqb_refl.
  - intros other Hne. rewrite Hid.
    by rewrite (proj2 (N.eqb_neq userId other)) by done.
Qed.

Lemma createOrder_then_read_witness :
  ∃ doc db',
    createOrder (H:=Example.runtime) Example.shop 7
      (Example.body [1%N; 2%N] (VNumber 35)) = (Send 200 doc, db')
    ∧ getOrderByNumber (H:=Example.runtime) db' "1" = Send 200 doc
    ∧ getOrderCurrentUserByNumber (H:=Example.runtime) db' 7 "1" = Send 200 doc
    ∧ ∀ other, other ≠ 7%N →
        getOrderCurrentUserByNumber (H:=Example.runtime) db' other "1"
        = Next orderNotFound.
Proof.
  eexists. eexists. split; [reflexivity|].
  apply (createOrder_then_read (H:=Example.runtime) Example.shop _ 7%N
           (Example.body [1%N; 2%N] (VNumber 35)) 200 _ "1"
           (Example.user 7 "Ann" (Example.utc 2023 1 1 12 0 0 0) [])).
  - reflexivity.
  - intros o Ho. by apply elem_of_nil in Ho.
  - reflexivity.
  - reflexivity.
Defined.

(** X17.  [updateOrder] changes the status of one order and nothing else.
    When it sends an order, that is the first order with the number, with
    the new status and every other field as before; the collection keeps
    its length and its other documents, products and users are untouched,
    and [getOrderByNumber] then sends the updated order.  When it ends in
    an error the database is unchanged: BadRequest for a number that
    cannot be cast or a status that the schema refuses, NotFound when no
    order has the number. *)
Theorem updateOrder_cases `{Runtime} (statusError : string → option string)
    (db : Db) (param newStatus : string) :
  match updateOrder statusError db param newStatus with
  | (Send st updated, db') =>
      st = 200
      ∧ statusError newStatus = None
      ∧ ∃ n before order after,
          Number_cast param = Some n
          ∧ db_orders db = before ++ order :: after
          ∧ JsNum.eqb_Z (orderNumber order) n = true
          ∧ (∀ x, x ∈ before → JsNum.eqb_Z (orderNumber x) n = false)
          ∧ updated = withStatus newStatus order
          ∧ db_orders db' = before ++ updated :: after
          ∧ db_products db' = db_products db
          ∧ db_users db' = db_users db
          ∧ getOrderByNumber db' param = Send 200 updated
  | (Next e, db') =>
      db' = db
      ∧ ((Number_cast param = None
          ∧ e = BadRequestError "Передан не валидный ID заказа")
         ∨ (∃ message, statusError newStatus = Some message
                       ∧ e = BadRequestError message)
         ∨ (∃ n, Number_cast param = Some n
                 ∧ e = orderNotFound
                 ∧ ∀ o, o ∈ db_orders db → JsNum.eqb_Z (orderNumber o) n = false))
  end.
Proof.
  unfold updateOrder.
  destruct (Number_cast param) as [n|] eqn:Hn; [|by split; [|left]].
  destruct (statusError newStatus) as [message|] eqn:Hs.
  { split; [done|]. right. left. by exists message. }
  destruct (findOrderByNumber (db_orders db) n) as [order|] eqn:Hf.
  - unfold findOrderByNumber in Hf.
    destruct (find_split _ _ _ Hf) as (before & after & Hl & Ho & Hb).
    split_and!; try done.
    exists n, before, order, after. cbn [db_orders db_products db_users withOrders].
    rewrite Hl, updateFirst_middle by done.
    split_and!; try done.
    unfold getOrderByNumber. rewrite Hn. cbn [db_orders withOrders].
    unfold findOrderByNumber. by rewrite find_middle.
  - split; [done|]. right. right. exists n. split_and!; try done.
    by apply find_none_iff.
Qed.

(** ** Writing and reading customers *)


Lemma findUserById_filter (l : list IUser) (id id' : ObjectId) :
  findUserById (filter (fun x => user_id x ≠ id) l) id'
  = if N.eqb id' id then None else findUserById l id'.
Proof.
  unfold findUserById. induction l as [|x l IH].
  - cbn. by destruct (N.eqb id' id).
  - rewrite filter_cons. destruct (decide (user_id x ≠ id)) as [Hx|Hx]; cbn.
    + rewrite IH.
      destruct (N.eqb_spec (user_id x) id') as [Hx'|Hx']; [|done].
      by rewrite (proj2 (N.eqb_neq id' id)) by congruence.
    + apply dec_stable in Hx. rewrite IH.
      destruct (N.eqb_spec id' id) as [Heq|Hne]; [done|].
      by rewrite (proj2 (N.eqb_neq (user_id x) id')) by congruence.
Qed.


(** X19.  [deleteCustomer] either fails with NotFound and changes nothing,
    when no user has the id, or sends the first user with the id and
    leaves a collection in which the id is gone: [getCustomerById] then
    sends null for it, a second [deleteCustomer] fails with NotFound, and
    every other id finds what it found before.  Orders and products are
    untouched: the orders of a deleted customer stay. *)
Theorem deleteCustomer_cases (db : Db) (id : ObjectId) :
  match deleteCustomer db id with
  | (Send st deleted, db') =>
      st = 200
      ∧ findUserById (db_users db) id = Some deleted
      ∧ deleted ∈ db_users db
      ∧ user_id deleted = id
      ∧ db_users db' ⊆ db_users db
      ∧ db_orders db' = db_orders db
      ∧ db_products db' = db_products db
      ∧ getCustomerById db' id = Send 200 None
      ∧ deleteCustomer db' id = (Next customerNotFound, db')
      ∧ ∀ id', id' ≠ id → getCustomerById db' id' = getCustomerById db id'
  | (Next e, db') =>
      db' = db ∧ e = customerNotFound ∧ findUserById (db_users db) id = None
  end.
Proof.
  unfold deleteCustomer at 1.
  destruct (findUserById (db_users db) id) as [u|] eqn:Hu; [|done].
  apply findUserById_Some in Hu as Hid. destruct Hid as [Hin Hid].
  unfold getCustomerById, deleteCustomer.
  cbn [db_users db_orders db_products withUsers].
  rewrite !findUserById_filter, N.eqb_refl.
  split_and!; try done.
  - intros x Hx. by apply list_elem_of_filter in Hx as [_ ?].
  - intros id' Hne. rewrite findUserById_filter.
    by rewrite (proj2 (N.eqb_neq id' id)) by done.
Qed.

(** ** Uploads and their files *)

(** X20.  [uploadFile] never leaves the temporary file of an upload that
    it refuses, and never touches the file of one that it accepts.  With
    a file at a non-empty path, an error is a BadRequest after which the
    path is not on disk and every other file is; an accepted upload has
    more than 2048 bytes and non-zero width and height, the files on disk
    are the same, and the name sent is the normalized base, a slash and
    the stored file name. *)
Theorem uploadFile_cleans_up `{Runtime} (file : File) (fs : Fs) :
  file_path file ≠ "" →
  match uploadFile (Some file) fs with
  | (Next e, fs') =>
      (∃ message, e = BadRequestError message)
      ∧ (file_path file ∉ fs_files fs')
      ∧ ∀ p, p ≠ file_path file → p ∈ fs_files fs' ↔ p ∈ fs_files fs
  | (Send st sent, fs') =>
      st = 201
      ∧ fs_files fs' = fs_files fs
      ∧ fs_log fs' = fs_log fs ++ [ReadMetadata (file_path file)]
      ∧ 2048 < default 0 (file_size file)
      ∧ (∃ meta w h, sharp_metadata (file_path file) = Some meta
                     ∧ width meta = Some w ∧ height meta = Some h
                     ∧ w ≠ 0 ∧ h ≠ 0)
      ∧ fileName sent = (normalizedBase ++ "/" ++ file_filename file)%string
      ∧ originalName sent = file_originalname file
  end.
Proof.
  intros Hpath.
  assert (JsString.truthy (file_path file) = true) as Htruthy
    by (by destruct (file_path file)).
  assert (∀ files : list string,
    (file_path file ∉ filter (fun p => p ≠ file_path file) files)
    ∧ ∀ p, p ≠ file_path file →
        p ∈ filter (fun p => p ≠ file_path file) files ↔ p ∈ files) as Hunlink.
  { intros files. split.
    - rewrite list_elem_of_filter. by intros [Hne _].
    - intros p Hp. rewrite list_elem_of_filter. tauto. }
  unfold uploadFile, MIN_FILE_SIZE_STRICT, MIN_FILE_SIZE_BYTES.
  destruct (Z.ltb_spec (default 0 (file_size file)) (2 * 1024 + 1)) as [?|Hsize].
  { rewrite Htruthy. split; [by eexists|]. apply Hunlink. }
  unfold readMetadata, unlink, truthy_dim.
  destruct (sharp_metadata (file_path file)) as [meta|] eqn:Hmeta;
    [|split; [by eexists|]; apply Hunlink].
  destruct (width meta) as [w|] eqn:Hw; cbn [negb orb];
    [|split; [by eexists|]; apply Hunlink].
  destruct (Z.eqb_spec w 0); cbn [negb orb];
    [split; [by eexists|]; apply Hunlink|].
  destruct (height meta) as [h|] eqn:Hh; cbn [negb orb];
    [|split; [by eexists|]; apply Hunlink].
  destruct (Z.eqb_spec h 0); cbn [negb orb];
    [split; [by eexists|]; apply Hunlink|].
  cbn. split_and!; try done; try lia. by exists meta, w, h.
Qed.

Lemma uploadFile_cleans_up_witness :
  match uploadFile (H:=Example.runtime)
          (Some {| file_size := Some 4096; file_path := "temp/ab12.png";
                   file_filename := "ab12.png"; file_originalname := "cat.png" |})
          {| fs_files := ["temp/ab12.png"]; fs_log := [] |} with
  | (Next e, fs') =>
      (∃ message, e = BadRequestError message)
      ∧ ("temp/ab12.png" ∉ fs_files fs')
      ∧ ∀ p, p ≠ "temp/ab12.png" → p ∈ fs_files fs' ↔ p ∈ ["temp/ab12.png"]
  | (Send st sent, fs') =>
      st = 201
      ∧ fs_files fs' = ["temp/ab12.png"]
      ∧ fs_log fs' = [] ++ [ReadMetadata "temp/ab12.png"]
      ∧ 2048 < 4096
      ∧ (∃ meta w h,
           sharp_metadata (Runtime:=Example.runtime) "temp/ab12.png" = Some meta
           ∧ width meta = Some w ∧ height meta = Some h ∧ w ≠ 0 ∧ h ≠ 0)
      ∧ fileName sent
        = (normalizedBase (H:=Example.runtime) ++ "/" ++ "ab12.png")%string
      ∧ originalName sent = "cat.png"
  end.
Proof.
  apply (uploadFile_cleans_up (H:=Example.runtime)
           {| file_size := Some 4096; file_path := "temp/ab12.png";
              file_filename := "ab12.png"; file_originalname := "cat.png" |}
           {| fs_files := ["temp/ab12.png"]; fs_log := [] |}).
  discriminate.
Defined.

Lemma stripLeadingSlashes_cons (c : ascii) (s : string) :
  c ≠ "/"%char → stripLeadingSlashes (String c s) = String c s.
Proof.
  intros Hc. cbn. destruct c as [[] [] [] [] [] [] [] []]; done.
Qed.

(** What [stripLeadingSlashes] takes away is slashes, and what it leaves
    does not start with one. *)
Lemma stripLeadingSlashes_spec (s : string) :
  ∃ a, s = (a ++ stripLeadingSlashes s)%string
       ∧ Forall (fun c => c = "/"%char) (list_ascii_of_string a)
       ∧ ∀ t', stripLeadingSlashes s ≠ String "/" t'.
Proof.
  induction s as [|c s (a & Ha & Hall & Hno)].
  - by exists "".
  - destruct (Ascii.eqb_spec c "/") as [->|Hc].
    + exists (String "/" a). cbn [stripLeadingSlashes].
      split_and!; [|by constructor|done].
      change (String "/" a +:+ stripLeadingSlashes s)%string
        with (String "/" (a +:+ stripLeadingSlashes s)). by rewrite <- Ha.
    + exists "". rewrite stripLeadingSlashes_cons by done.
      split_and!; [done|constructor|congruence].
Qed.

Lemma stripTrailingSlashes_cons (c : ascii) (s : string) :
  c ≠ "/"%char →
  stripTrailingSlashes (String c s) = String c (stripTrailingSlashes s).
Proof.
  intros Hc. cbn. destruct (stripTrailingSlashes s); [|done].
  by rewrite (proj2 (Ascii.eqb_neq c "/")).
Qed.

(** What [stripTrailingSlashes] takes away is slashes, and what it leaves
    does not end with one. *)
Lemma stripTrailingSlashes_spec (s : string) :
  ∃ b, s = (stripTrailingSlashes s ++ b)%string
       ∧ Forall (fun c => c = "/"%char) (list_ascii_of_string b)
       ∧ ∀ t', stripTrailingSlashes s ≠ (t' ++ "/")%string.
Proof.
  induction s as [|c s (b & Hb & Hall & Hno)].
  - exists "". split_and!; [done|constructor|]. by intros [|? ?].
  - cbn [stripTrailingSlashes].
    destruct (stripTrailingSlashes s) as [|d r] eqn:Hr.
    + change ("" +:+ b)%string with b in Hb. subst b.
      destruct (Ascii.eqb_spec c "/") as [->|Hc].
      * exists (String "/" s). split_and!; [done|by constructor|].
        by intros [|? ?].
      * exists s. split_and!; [done|done|].
        intros [|e [|? ?]]; lazy [String.append]; congruence.
    + exists b. split_and!; [|done|].
      * change (String c (String d r) +:+ b)%string
          with (String c (String d r +:+ b)). by rewrite <- Hb.
      * intros [|e t']; lazy [String.append]; [congruence|].
        intros [= _ Heq]. by apply (Hno t').
Qed.

(** X21.  The base that [uploadFile] puts before the stored file name
    comes from the first of [UPLOAD_PATH] and [UPLOAD_PATH_TEMP] that is
    set to a non-empty value.  When there is none the base is empty.
    Otherwise that value is slashes, a text that neither starts nor ends
    with a slash, and slashes again, and the base is one slash followed by
    that text: for a value made of slashes only the base is the single
    slash. *)
Theorem normalizedBase_shape `{Runtime} :
  (∀ p, UPLOAD_PATH = Some p → p ≠ "" → uploadBase = p)
  ∧ (UPLOAD_PATH = None ∨ UPLOAD_PATH = Some "" →
     ∀ t, UPLOAD_PATH_TEMP = Some t → uploadBase = t)
  ∧ (UPLOAD_PATH = None ∨ UPLOAD_PATH = Some "" →
     UPLOAD_PATH_TEMP = None → uploadBase = "")
  ∧ (uploadBase = "" → normalizedBase = "")
  ∧ (uploadBase ≠ "" →
     ∃ a t b,
       uploadBase = (a ++ t ++ b)%string
       ∧ Forall (fun c => c = "/"%char) (list_ascii_of_string a)
       ∧ Forall (fun c => c = "/"%char) (list_ascii_of_string b)
       ∧ (∀ t', t ≠ String "/" t')
       ∧ (∀ t', t ≠ (t' ++ "/")%string)
       ∧ normalizedBase = String "/" t
       ∧ (Forall (fun c => c = "/"%char) (list_ascii_of_string uploadBase) →
          normalizedBase = "/")).
Proof.
  split_and!.
  - intros p Hp Hne. unfold uploadBase, orElse. rewrite Hp.
    by destruct p.
  - intros Hu t Ht. unfold uploadBase, orElse. rewrite Ht.
    destruct Hu as [-> | ->]; cbn; by destruct t.
  - intros Hu Ht. unfold uploadBase, orElse. rewrite Ht.
    by destruct Hu as [-> | ->].
  - unfold normalizedBase. by intros ->.
  - unfold normalizedBase. generalize uploadBase. intros base Hbase.
    destruct base as [|c0 base0] eqn:Eb; [done|]. rewrite <- Eb. clear Hbase.
    assert (JsString.truthy base = true) as -> by (by rewrite Eb).
    clear Eb c0 base0.
    destruct (stripLeadingSlashes_spec base) as (a & Ha & Hall & Hno).
    destruct (stripTrailingSlashes_spec (stripLeadingSlashes base))
      as (b & Hb & Hallb & Hnob).
    exists a, (stripTrailingSlashes (stripLeadingSlashes base)), b.
    assert (∀ t', stripTrailingSlashes (stripLeadingSlashes base)
                  ≠ String "/" t') as Hhead.
    { intros t'. destruct (stripLeadingSlashes base) as [|c t] eqn:Hl; [done|].
      assert (c ≠ "/"%char) as Hc by (intros ->; by apply (Hno t)).
      rewrite stripTrailingSlashes_cons by done. congruence. }
    split_and!; try done.
    + by rewrite <- Hb.
    + intros Hsl.
      assert (stripLeadingSlashes base = "") as ->; [|done].
      clear -Hsl. induction base as [|c s IH]; [done|].
      apply Forall_cons in Hsl as [-> Hsl]. cbn. by apply IH.
Qed.

(** ** The name of a stored file *)

Section FileNames.
Import FileMiddleware.

Lemma list_ascii_of_string_app (a b : string) :
  list_ascii_of_string (a ++ b)%string
  = list_ascii_of_string a ++ list_ascii_of_string b.
Proof.
  induction a as [|c a IH]; [done|].
  change (String c a +:+ b)%string with (String c (a +:+ b)). cbn.
  by rewrite IH.
Qed.

Lemma length_string_app (a b : string) :
  String.length (a ++ b)%string = (String.length a + String.length b)%nat.
Proof.
  induction a as [|c a IH]; [done|].
  change (String c a +:+ b)%string with (String c (a +:+ b)). cbn.
  by rewrite IH.
Qed.

Lemma hexDigit_not_slash (d : N) : (d < 16)%N → hexDigit d ≠ "/"%char.
Proof.
  intros Hd Heq. apply (f_equal N_of_ascii) in Heq. unfold hexDigit in Heq.
  destruct (N.ltb_spec d 10); rewrite N_ascii_embedding in Heq by lia;
    cbn in Heq; lia.
Qed.

Lemma hexDigits_chars (n : nat) (x : N) :
  ("/"%char ∉ list_ascii_of_string (hexDigits n x))
  ∧ String.length (hexDigits n x) = n.
Proof.
  revert x. induction n as [|n IH]; intros x; cbn.
  - split; [apply not_elem_of_nil | done].
  - destruct (IH (x / 16)%N) as [Hc Hl].
    rewrite list_ascii_of_string_app, length_string_app, Hl. cbn.
    split; [|lia].
    rewrite elem_of_app, list_elem_of_singleton. intros [?|Heq]; [done|].
    symmetry in Heq. revert Heq. apply hexDigit_not_slash.
    apply N.mod_lt. lia.
Qed.

Lemma toHex_chars (bytes : list N) :
  ("/"%char ∉ list_ascii_of_string (toHex bytes))
  ∧ String.length (toHex bytes) = (2 * length bytes)%nat.
Proof.
  induction bytes as [|b bytes [IHc IHl]]; cbn -[hexDigits].
  - split; [apply not_elem_of_nil | done].
  - destruct (hexDigits_chars 2 b) as [Hc Hl].
    rewrite list_ascii_of_string_app, length_string_app, Hl, IHl.
    split; [|lia]. rewrite elem_of_app. tauto.
Qed.

End FileNames.

(** X22.  The name that the upload middleware gives a stored file is made
    of the random bytes in hexadecimal, two digits for each, and the
    lower-cased extension of the original name, which is one of the five
    allowed ones; nothing else of the original name gets into it, and it
    holds no slash.  A name with any other extension is refused. *)
Theorem filename_safe (randomBytes : list N) (originalname : string) :
  match FileMiddleware.filename randomBytes originalname with
  | Pass name =>
      ∃ ext,
        ext = FileMiddleware.toLowerCase (FileMiddleware.extname originalname)
        ∧ ext ∈ [".png"; ".jpg"; ".jpeg"; ".gif"; ".svg"]
        ∧ name = (FileMiddleware.toHex randomBytes ++ ext)%string
        ∧ String.length name = (2 * length randomBytes + String.length ext)%nat
        ∧ ("/"%char ∉ list_ascii_of_string name)
  | Reject e =>
      e = OtherError "Error" "Недопустимое расширение"
      ∧ FileMiddleware.toLowerCase (FileMiddleware.extname originalname)
        ∉ [".png"; ".jpg"; ".jpeg"; ".gif"; ".svg"]
  end.
Proof.
  unfold FileMiddleware.filename.
  assert (∀ e : string,
    e ∈ FileMiddleware.allowedExt ↔ e ∈ [".png"; ".jpg"; ".jpeg"; ".gif"; ".svg"])
    as Hset.
  { intros e. unfold FileMiddleware.allowedExt.
    rewrite !elem_of_union, !elem_of_singleton, !elem_of_cons, elem_of_nil.
    tauto. }
  case_bool_decide as Hext.
  - eexists. split; [reflexivity|].
    apply Hset in Hext as Hlist.
    destruct (toHex_chars randomBytes) as [Hc Hl].
    split_and!; [done|done| |].
    + by rewrite length_string_app, Hl.
    + rewrite list_ascii_of_string_app, elem_of_app. intros [?|Hin]; [done|].
      revert Hin. generalize (FileMiddleware.toLowerCase
                                (FileMiddleware.extname originalname)) Hlist.
      intros e He. rewrite !elem_of_cons, elem_of_nil in He.
      destruct He as [->|[->|[->|[->|[->|[]]]]]]; cbn;
        rewrite !elem_of_cons, elem_of_nil; intros Hin;
        repeat (destruct Hin as [Hin|Hin]; [discriminate|]); done.
  - split; [done|]. by rewrite <- Hset.
Qed.

(** ** Escaping and searching *)

(** X23.  A text escaped by [escapeRegex] always compiles, never to a
    syntax error, and the pattern it compiles to matches a string exactly
    when the characters of the text occur in the string one after the
    other, each up to the case folding of the matcher, whatever that
    folding is outside ASCII: no character of the text keeps a meaning of
    its own. *)
Theorem escapeRegex_matches_literally `{Matcher} (s : string) :
  ∃ p,
    RegExp.compile (escapeRegex s) = RegExp.Compiled p
    ∧ ∀ t, RegExp.test p t = JsString.contains_ci s t.
Proof.
  exists (RegExp.literal s). split; [apply compile_escapeRegex|].
  intros t. apply test_literal.
Qed.

(** X24.  [escapeRegex] loses nothing: two texts with the same escaped
    form are the same text.  It leaves a text without syntax characters as
    it is, and the escaped form is at most twice as long as the text. *)
Theorem escapeRegex_injective :
  (∀ s1 s2, escapeRegex s1 = escapeRegex s2 → s1 = s2)
  ∧ (∀ s, plainText s = true → escapeRegex s = s)
  ∧ (∀ s, (String.length s ≤ String.length (escapeRegex s)
           ≤ 2 * String.length s)%nat).
Proof.
  split_and!.
  - induction s1 as [|c1 s1 IH]; intros [|c2 s2]; cbn [escapeRegex]; try done.
    + by destruct (RegExp.is_syntax_char c2).
    + by destruct (RegExp.is_syntax_char c1).
    + destruct (RegExp.is_syntax_char c1) eqn:H1,
               (RegExp.is_syntax_char c2) eqn:H2.
      * intros [= -> Heq]. f_equal. by apply IH.
      * intros [= <- _]. by vm_compute in H2.
      * intros [= -> _]. by vm_compute in H1.
      * intros [= -> Heq]. f_equal. by apply IH.
  - induction s as [|c s IH]; cbn [escapeRegex plainText]; [done|].
    intros [Hc Hs]%andb_prop. apply negb_true_iff in Hc. rewrite Hc.
    f_equal. by apply IH.
  - induction s as [|c s IH]; cbn [escapeRegex String.length]; [lia|].
    destruct (RegExp.is_syntax_char c); cbn [String.length]; lia.
Qed.

Lemma escapeRegex_plain (s : string) :
  plainText s = true → escapeRegex s = s.
Proof.
  induction s as [|c s IH]; cbn [escapeRegex plainText]; [done|].
  intros [Hc Hs]%andb_prop. apply negb_true_iff in Hc. rewrite Hc.
  f_equal. by apply IH.
Qed.

(** A text without syntax characters compiles to its literal pattern. *)
Lemma compile_plain (s : string) :
  plainText s = true → RegExp.compile s = RegExp.Compiled (RegExp.literal s).
Proof.
  intros Hs. rewrite <- (escapeRegex_plain s Hs) at 1.
  apply compile_escapeRegex.
Qed.

(** X25.  In [getOrdersCurrentUser], a search text without syntax
    characters acts as a plain text: the handler keeps an order of the
    user exactly when the order number is the number that the text
    denotes, or a product of the catalog that the order references has the
    text in its title, letter case ignored. *)
Theorem getOrdersCurrentUser_plain_search `{Runtime} (db : Db) (s : string)
    (orders : list IOrder) :
  plainText s = true →
  JsString.truthy s = true →
  ∃ filtered,
    searchOrders db (Some (QStr s)) orders = Pass filtered
    ∧ ∀ o, o ∈ filtered ↔
        o ∈ orders
        ∧ ((JsNum.isNaN (Number_ (QStr s)) = false
            ∧ JsNum.eqb_Z (orderNumber o) (Number_ (QStr s)) = true)
           ∨ ∃ p, p ∈ db_products db
                  ∧ product_id p ∈ products o
                  ∧ JsString.contains_ci s (title p) = true).
Proof.
  intros Hplain Htruthy.
  destruct (searchOrders_spec db (QStr s) (RegExp.test (RegExp.literal s))
              orders Htruthy) as (filtered & Hf & Hspec).
  { unfold rawRegex. cbn [toString_q]. by rewrite compile_plain. }
  exists filtered. split; [done|]. intros o. rewrite Hspec.
  by setoid_rewrite test_literal.
Qed.

Lemma getOrdersCurrentUser_plain_search_witness :
  ∃ filtered,
    searchOrders (H:=Example.runtime) Example.lamps (Some (QStr "лампа"))
      (db_orders Example.lamps) = Pass filtered
    ∧ ∀ o, o ∈ filtered ↔
        o ∈ db_orders Example.lamps
        ∧ ((JsNum.isNaN (Example.number (QStr "лампа")) = false
            ∧ JsNum.eqb_Z (orderNumber o) (Example.number (QStr "лампа")) = true)
           ∨ ∃ p, p ∈ db_products Example.lamps
                  ∧ product_id p ∈ products o
                  ∧ JsString.contains_ci (H:=Example.engine) "лампа" (title p)
                    = true).
Proof.
  apply (getOrdersCurrentUser_plain_search (H:=Example.runtime)
           Example.lamps "лампа" (db_orders Example.lamps));
    reflexivity.
Defined.

(** X26.  With a search text, [getOrders] lists an order with only those
    of its products that passed the search: every product on the page has
    the text in its title, letter case ignored, unless the text is a
    number and the order has that number. *)
Theorem getOrders_search_matches `{Runtime} (db : Db) (q : OrdersQuery)
    (st : Z) (page : Page GroupedOrder) (s : string) :
  getOrders db q = Send st page →
  q_search q = Some (QStr s) →
  JsString.truthy (JsString.trim s) = true →
  Forall (fun g =>
    ∀ p, p ∈ g_products g →
      JsString.contains_ci (JsString.trim s) (title p) = true
      ∨ (JsNum.isNaN (Number_ (QStr (JsString.trim s))) = false
         ∧ ∃ o, o ∈ db_orders db ∧ order_id o = g_id g
                ∧ JsNum.eqb_Z (orderNumber o) (Number_ (QStr (JsString.trim s)))
                  = true))
    (docs page).
Proof.
  intros (search & filters & cond & Hs & _ & Hcond & _ & _ & Hdocs & _)
    %getOrders_Send Hq Htruthy.
  rewrite Hq in Hs. unfold safeSearch in Hs.
  destruct (50 <? _); [done|]. injection Hs as <-.
  destruct (searchStage_literal (JsString.trim s) Htruthy) as (cond' & Hc' & Hspec).
  assert (cond' = cond) as -> by congruence.
  rewrite Hdocs. eapply Forall_impl; [apply dataPipeline_rows|].
  intros g (_ & _ & Hp) p (r & Hr & Hid & <-)%Hp.
  apply basePipeline_elem in Hr as (Hc & Ho & _).
  rewrite Hspec in Hc. apply orb_prop in Hc as [?|[Hnan Hnum]%andb_prop].
  - by left.
  - right. split; [by apply negb_true_iff|]. by exists (row_order r).
Qed.

Lemma getOrders_search_matches_witness :
  ∃ page,
    getOrders (H:=Example.runtime) Example.lamps
      (Example.ordersQuery None None (Some (QStr " лампа "))) = Send 200 page
    ∧ g_id <$> docs page = [70%N]
    ∧ Forall (fun g =>
        ∀ p, p ∈ g_products g →
          JsString.contains_ci (H:=Example.engine) (JsString.trim " лампа ")
            (title p) = true
          ∨ (JsNum.isNaN (Example.number (QStr (JsString.trim " лампа "))) = false
             ∧ ∃ o, o ∈ db_orders Example.lamps ∧ order_id o = g_id g
                    ∧ JsNum.eqb_Z (orderNumber o)
                        (Example.number (QStr (JsString.trim " лампа "))) = true))
        (docs page).
Proof.
  eexists. split; [reflexivity|]. split; [reflexivity|].
  apply (getOrders_search_matches (H:=Example.runtime) Example.lamps
           (Example.ordersQuery None None (Some (QStr " лампа "))) 200 _
           " лампа ");
    reflexivity.
Defined.

(** ** The errors of the list handlers *)

Section ListErrors.
Context `{Runtime}.

Lemma safeSearch_Reject (v : option qvalue) (e : error) :
  safeSearch v = Reject e →
  e = BadRequestError "Некорректный search"
  ∨ e = BadRequestError "Слишком длинный search".
Proof.
  unfold safeSearch. destruct v as [[s|l|]|]; try done;
    [|intros [= <-]; by left..].
  destruct (50 <? _); [|done]. intros [= <-]. by right.
Qed.

Lemma numberBound_Reject (field : string) (r : Range Q) (v : option qvalue)
    (set : Range Q → Q → Range Q) (e : error) :
  numberBound field r v set = Reject e →
  e = BadRequestError ("Некорректный " ++ field)%string
  ∧ ∃ x, v = Some x ∧ JsNum.isFinite (Number_ x) = false.
Proof.
  unfold numberBound. destruct v as [x|]; [|done].
  destruct (Number_ x) eqn:Hx; cbn; try done;
    intros [= <-]; (split; [done|]); exists x; by rewrite Hx.
Qed.

Lemma dateBound_Reject (field : string) (r : Range Z) (v : option qvalue)
    (adjust : Z → Z) (set : Range Z → Z → Range Z) (e : error) :
  dateBound field r v adjust set = Reject e →
  e = BadRequestError ("Некорректный " ++ field)%string
  ∧ ∃ x, v = Some x ∧ ∀ s, x = QStr s → Date_parse s = None.
Proof.
  unfold dateBound. destruct v as [[s|l|]|]; try done.
  - destruct (Date_parse s) eqn:Hs; [done|]. intros [= <-].
    split; [done|]. exists (QStr s). split; [done|]. by intros ? [= <-].
  - intros [= <-]. split; [done|]. by exists (QArr l).
  - intros [= <-]. split; [done|]. by exists QObj.
Qed.

Lemma searchStage_Pass (search : option string) :
  ∃ cond, searchStage search = Pass cond.
Proof.
  unfold searchStage. destruct search as [s|]; [|by eexists].
  destruct (JsString.truthy s); [|by eexists].
  rewrite searchRegex_literal. cbn. by eexists.
Qed.

End ListErrors.

(** X27.  With a page number of at least 1, [getOrders] fails in these
    ways only: with BadRequest for a [search] that is not a string or is
    longer than 50 after trimming, for a [status] outside of the four
    allowed ones, for an amount bound that is not a finite number and for
    a date bound that is not a string that parses; and with the error of
    the database when the page size is 0.  The search text never makes it
    fail, whatever characters it holds. *)
Theorem getOrders_errors `{Runtime} (db : Db) (q : OrdersQuery) (e : error) :
  1 <= safePage (q_page q) →
  getOrders db q = Next e →
  e = BadRequestError "Некорректный search"
  ∨ e = BadRequestError "Слишком длинный search"
  ∨ (e = BadRequestError "Некорректный status"
     ∧ ∃ v, q_status q = Some v ∧ ∀ s, v = QStr s → s ∉ allowedStatuses)
  ∨ (∃ field v,
       (field, Some v) ∈ [("totalAmountFrom", q_totalAmountFrom q);
                          ("totalAmountTo", q_totalAmountTo q)]
       ∧ e = BadRequestError ("Некорректный " ++ field)%string
       ∧ JsNum.isFinite (Number_ v) = false)
  ∨ (∃ field v,
       (field, Some v) ∈ [("orderDateFrom", q_orderDateFrom q);
                          ("orderDateTo", q_orderDateTo q)]
       ∧ e = BadRequestError ("Некорректный " ++ field)%string
       ∧ ∀ s, v = QStr s → Date_parse s = None)
  ∨ (e = OtherError "MongoServerError" "the limit must be positive"
     ∧ safeLimit (q_limit q) = 0).
Proof.
  intros _. unfold getOrders, finish.
  destruct (safeSearch (q_search q)) as [search|e0] eqn:Hs; cbn.
  2:{ intros [= <-]. apply safeSearch_Reject in Hs as [->| ->]; auto. }
  destruct (orderFilters q) as [filters|e0] eqn:Hf; cbn.
  2:{ intros [= <-]. do 2 right. revert Hf. unfold orderFilters.
      destruct (statusFilter (q_status q)) as [st|e1] eqn:Hst; cbn.
      2:{ intros [= <-]. left. unfold statusFilter in Hst.
          destruct (q_status q) as [[s|l|]|]; try done.
          - case_bool_decide; [done|]. injection Hst as <-.
            split; [done|]. exists (QStr s). split; [done|]. by intros ? [= <-].
          - injection Hst as <-. split; [done|]. by exists (QArr l).
          - injection Hst as <-. split; [done|]. by exists QObj. }
      destruct (numberBound _ _ (q_totalAmountFrom q) _) as [a1|e1] eqn:Ha1; cbn.
      2:{ intros [= <-]. right. left.
          apply numberBound_Reject in Ha1 as (-> & v & Hv & Hn).
          exists "totalAmountFrom", v. rewrite Hv. split_and!; try done.
          apply list_elem_of_here. }
      destruct (numberBound _ _ (q_totalAmountTo q) _) as [a2|e1] eqn:Ha2; cbn.
      2:{ intros [= <-]. right. left.
          apply numberBound_Reject in Ha2 as (-> & v & Hv & Hn).
          exists "totalAmountTo", v. rewrite Hv. split_and!; try done.
          apply list_elem_of_further, list_elem_of_here. }
      destruct (dateBound _ _ (q_orderDateFrom q) _ _) as [d1|e1] eqn:Hd1; cbn.
      2:{ intros [= <-]. right. right. left.
          apply dateBound_Reject in Hd1 as (-> & v & Hv & Hn).
          exists "orderDateFrom", v. rewrite Hv. split_and!; try done.
          apply list_elem_of_here. }
      destruct (dateBound _ _ (q_orderDateTo q) _ _) as [d2|e1] eqn:Hd2; cbn.
      2:{ intros [= <-]. right. right. left.
          apply dateBound_Reject in Hd2 as (-> & v & Hv & Hn).
          exists "orderDateTo", v. rewrite Hv. split_and!; try done.
          apply list_elem_of_further, list_elem_of_here. }
      done. }
  destruct (searchStage_Pass search) as [cond ->]. cbn.
  destruct (Z.eqb_spec (safeLimit (q_limit q)) 0) as [Hl|]; cbn; [|done].
  intros [= <-]. do 5 right. done.
Qed.

Lemma getOrders_errors_witness :
  let q := {| q_page := None; q_limit := None; q_sortField := None;
              q_sortOrder := None; q_status := Some (QStr "delivering");
              q_totalAmountFrom := None; q_totalAmountTo := None;
              q_orderDateFrom := None; q_orderDateTo := None;
              q_search := Some (QStr "+1") |} in
  let e := BadRequestError "Некорректный status" in
  e = BadRequestError "Некорректный search"
  ∨ e = BadRequestError "Слишком длинный search"
  ∨ (e = BadRequestError "Некорректный status"
     ∧ ∃ v, q_status q = Some v ∧ ∀ s, v = QStr s → s ∉ allowedStatuses)
  ∨ (∃ field v,
       (field, Some v) ∈ [("totalAmountFrom", q_totalAmountFrom q);
                          ("totalAmountTo", q_totalAmountTo q)]
       ∧ e = BadRequestError ("Некорректный " ++ field)%string
       ∧ JsNum.isFinite (Example.number v) = false)
  ∨ (∃ field v,
       (field, Some v) ∈ [("orderDateFrom", q_orderDateFrom q);
                          ("orderDateTo", q_orderDateTo q)]
       ∧ e = BadRequestError ("Некорректный " ++ field)%string
       ∧ ∀ s, v = QStr s → Example.dateParse s = None)
  ∨ (e = OtherError "MongoServerError" "the limit must be positive"
     ∧ safeLimit (H:=Example.runtime) (q_limit q) = 0).
Proof.
  apply (getOrders_errors (H:=Example.runtime) Example.archive
           {| q_page := None; q_limit := None; q_sortField := None;
              q_sortOrder := None; q_status := Some (QStr "delivering");
              q_totalAmountFrom := None; q_totalAmountTo := None;
              q_orderDateFrom := None; q_orderDateTo := None;
              q_search := Some (QStr "+1") |}
           (BadRequestError "Некорректный status")).
  - by vm_compute.
  - reflexivity.
Defined.

(** X28.  With a page number of at least 1, [getCustomers] fails with
    BadRequest only: for a [search] that is not a string or is too long,
    and for one of its eight bounds, named in the message, when a date
    does not parse or a number is not finite.  The search text never makes
    it fail, and no page size does. *)
Theorem getCustomers_errors `{Runtime} (db : Db) (q : CustomersQuery)
    (e : error) :
  1 <= safePage (c_page q) →
  getCustomers db q = Next e →
  e = BadRequestError "Некорректный search"
  ∨ e = BadRequestError "Слишком длинный search"
  ∨ ∃ field,
      field ∈ ["registrationDateFrom"; "registrationDateTo";
               "lastOrderDateFrom"; "lastOrderDateTo";
               "totalAmountFrom"; "totalAmountTo";
               "orderCountFrom"; "orderCountTo"]
      ∧ e = BadRequestError ("Некорректный " ++ field)%string.
Proof.
  intros _. unfold getCustomers, finish.
  destruct (customerFilters db q) as [f|e0] eqn:Hf; cbn; [done|].
  intros [= <-]. revert Hf. unfold customerFilters.
  destruct (safeSearch (c_search q)) as [search|e1] eqn:Hs; cbn.
  2:{ intros [= <-]. apply safeSearch_Reject in Hs as [->| ->]; auto. }
  assert (∃ or, customerSearch db search = Pass or) as [or Hor].
  { unfold customerSearch. destruct search as [s|]; [|by eexists].
    destruct (JsString.truthy s); [|by eexists].
    rewrite searchRegex_literal. cbn. by eexists. }
  destruct (customerRanges q) as [[[[r l] a] n]|e1] eqn:Hr; cbn.
  { rewrite Hor. by cbn. }
  intros [= <-]. do 2 right. revert Hr. unfold customerRanges.
  repeat match goal with
  | |- context [dateBound ?f ?r ?v ?a ?s] =>
      let E := fresh "E" in
      destruct (dateBound f r v a s) eqn:E; cbn;
      [|intros [= <-]; apply dateBound_Reject in E as [-> _];
        eexists; split; [|reflexivity];
        rewrite !elem_of_cons; tauto]
  | |- context [numberBound ?f ?r ?v ?s] =>
      let E := fresh "E" in
      destruct (numberBound f r v s) eqn:E; cbn;
      [|intros [= <-]; apply numberBound_Reject in E as [-> _];
        eexists; split; [|reflexivity];
        rewrite !elem_of_cons; tauto]
  end.
  done.
Qed.

Lemma getCustomers_errors_witness :
  let e := BadRequestError "Некорректный registrationDateTo" in
  e = BadRequestError "Некорректный search"
  ∨ e = BadRequestError "Слишком длинный search"
  ∨ ∃ field,
      field ∈ ["registrationDateFrom"; "registrationDateTo";
               "lastOrderDateFrom"; "lastOrderDateTo";
               "totalAmountFrom"; "totalAmountTo";
               "orderCountFrom"; "orderCountTo"]
      ∧ e = BadRequestError ("Некорректный " ++ field)%string.
Proof.
  apply (getCustomers_errors (H:=Example.runtime) Example.archive
           (Example.customersQuery None (Some (QStr "yesterday")))
           (BadRequestError "Некорректный registrationDateTo")).
  - by vm_compute.
  - reflexivity.
Defined.

(** ** The total of a new order *)

(** X29.  When the items are distinct ids that all resolve to sellable
    products (and the items and the phone have the right shape), the
    request is decided by the comparison of the claimed total with the sum
    of the catalog prices, added as numbers are: with any other total it
    fails with BadRequest and the database is unchanged; with that total,
    and a document that the schema accepts, the order is added at the end
    of [orders], with the sum as its total, the items as its products and
    the authenticated user as its customer. *)
Theorem createOrder_total_decides `{Runtime} (db : Db) (userId : ObjectId)
    (body : OrderBody) (items : list ObjectId) (phone : string) :
  b_items body = Some items →
  (1 <= length items <= 50)%nat →
  b_phone body = VString phone →
  phonePattern (JsString.trim phone) = true →
  NoDup (product_id <$> db_products db) →
  NoDup items →
  Forall (sellable db) items →
  (b_total body ≠ VNumber (catalogTotal db items) →
   createOrder db userId body
   = (Next (BadRequestError "Неверная сумма заказа"), db))
  ∧ (b_total body = VNumber (catalogTotal db items) →
     (∀ o, validateOrder db userId body = Pass o → Order_validate o = None) →
     ∃ doc db',
       createOrder db userId body = (Send 200 doc, db')
       ∧ db_orders db' = db_orders db ++ [doc]
       ∧ db_products db' = db_products db
       ∧ db_users db' = db_users db
       ∧ totalAmount doc = catalogTotal db items
       ∧ products doc = items
       ∧ customer doc = userId).
Proof.
  intros Hitems Hlen Hphone Hpat Hcat Hnodup Hsell.
  assert (length (findProductsIn db items) = length items) as Hfound.
  { apply findProductsIn_length; [done..|].
    intros id Hid. rewrite Forall_forall in Hsell.
    destruct (Hsell id Hid) as (p & Hp & _).
    apply findProduct_Some in Hp as [Hp <-]. by apply list_elem_of_fmap_2. }
  destruct (forEachItem_sellable (findProductsIn db items) items) as [basket Hb].
  { rewrite Forall_forall in Hsell. apply Forall_forall. intros id Hid.
    unfold findProductsIn. rewrite findProduct_found by done.
    by apply Hsell. }
  assert (totalBasket basket = catalogTotal db items) as Htotal.
  { by eapply totalBasket_catalogTotal, forEachItem_Pass. }
  pose proof (phonePattern_length _ Hpat) as Hshort.
  assert (∀ t, b_total body = VNumber t → t = catalogTotal db items →
    validateOrder db userId body
    = Pass {| new_totalAmount := t; new_products := items;
              new_payment := b_payment body;
              new_phone := JsString.trim phone;
              new_email := b_email body;
              new_comment := sanitizeHtml (default "" (b_comment body));
              new_customer := userId;
              new_deliveryAddress := b_address body |}) as Hpass.
  { intros t Ht ->. unfold validateOrder, MAX_ITEMS. rewrite Hitems. cbn.
    destruct (Z.eqb_spec (Z.of_nat (length items)) 0); [lia|].
    destruct (Z.ltb_spec 50 (Z.of_nat (length items))); [lia|]. cbn.
    rewrite Hphone. cbn.
    destruct (Z.ltb_spec 20 (JsString.length (JsString.trim phone))); [lia|]. cbn.
    rewrite Hpat, Hfound, Nat.eqb_refl. cbn. rewrite Hb. cbn.
    rewrite Ht. cbn. by rewrite Htotal, Z.eqb_refl. }
  split.
  - intros Hne. unfold createOrder, validateOrder, MAX_ITEMS. rewrite Hitems. cbn.
    destruct (Z.eqb_spec (Z.of_nat (length items)) 0); [lia|].
    destruct (Z.ltb_spec 50 (Z.of_nat (length items))); [lia|]. cbn.
    rewrite Hphone. cbn.
    destruct (Z.ltb_spec 20 (JsString.length (JsString.trim phone))); [lia|]. cbn.
    rewrite Hpat, Hfound, Nat.eqb_refl. cbn. rewrite Hb. cbn.
    destruct (b_total body) as [| | |t|]; cbn; try done.
    destruct (Z.eqb_spec t (totalBasket basket)) as [->|?]; [|done].
    by rewrite Htotal in Hne.
  - intros Htot Hschema. unfold createOrder.
    rewrite (Hpass _ Htot eq_refl).
    rewrite (Hschema _ (Hpass _ Htot eq_refl)).
    do 2 eexists. split; [reflexivity|]. done.
Qed.

Lemma createOrder_total_decides_witness :
  (VNumber 35 ≠ VNumber (catalogTotal Example.shop [1%N; 2%N]) →
   createOrder (H:=Example.runtime) Example.shop 7
     (Example.body [1%N; 2%N] (VNumber 35))
   = (Next (BadRequestError "Неверная сумма заказа"), Example.shop))
  ∧ (VNumber 35 = VNumber (catalogTotal Example.shop [1%N; 2%N]) →
     (∀ o, validateOrder (H:=Example.runtime) Example.shop 7
             (Example.body [1%N; 2%N] (VNumber 35)) = Pass o →
           Order_validate (Runtime:=Example.runtime) o = None) →
     ∃ doc db',
       createOrder (H:=Example.runtime) Example.shop 7
         (Example.body [1%N; 2%N] (VNumber 35)) = (Send 200 doc, db')
       ∧ db_orders db' = db_orders Example.shop ++ [doc]
       ∧ db_products db' = db_products Example.shop
       ∧ db_users db' = db_users Example.shop
       ∧ totalAmount doc = catalogTotal Example.shop [1%N; 2%N]
       ∧ products doc = [1%N; 2%N]
       ∧ customer doc = 7%N).
Proof.
  apply (createOrder_total_decides (H:=Example.runtime) Example.shop 7%N
           (Example.body [1%N; 2%N] (VNumber 35)) [1%N; 2%N] "+71234567890").
  - reflexivity.
  - cbn. lia.
  - reflexivity.
  - reflexivity.
  - apply (bool_decide_unpack _). reflexivity.
  - apply (bool_decide_unpack _). reflexivity.
  - repeat constructor; eexists; (split; [reflexivity|]); by eexists.
Defined.

(** ** Orders of other customers that exist *)

(** X30.  When the order exists and belongs to another customer who is
    in the database, [getOrderCurrentUserByNumber] answers with the error
    it gives when no order has the number: the same kind and the same
    message, with status 404 and not 403. *)
Theorem getOrderCurrentUserByNumber_hides_foreign_order `{Runtime}
    (db db' : Db) (userId userId' : ObjectId) (param param' : string)
    (n n' : jsnum) (order : IOrder) (owner : IUser) :
  Number_cast param = Some n →
  findOrderByNumber (db_orders db) n = Some order →
  findUserById (db_users db) (customer order) = Some owner →
  user_id owner ≠ userId →
  Number_cast param' = Some n' →
  findOrderByNumber (db_orders db') n' = None →
  getOrderCurrentUserByNumber db userId param
  = getOrderCurrentUserByNumber db' userId' param'
  ∧ (∃ e, getOrderCurrentUserByNumber db userId param = Next e
          ∧ e = orderNotFound
          ∧ statusCode e = 404 ∧ statusCode e ≠ 403).
Proof.
  intros Hn Ho Hc Hne Hn' Ho'.
  unfold getOrderCurrentUserByNumber.
  rewrite Hn, Ho, Hc, Hn', Ho'.
  apply N.eqb_neq in Hne. rewrite Hne. cbn.
  split; [done|]. by eexists.
Qed.

Lemma getOrderCurrentUserByNumber_hides_foreign_order_witness :
  getOrderCurrentUserByNumber (H:=Example.runtime) Example.archive 8 "1"
  = getOrderCurrentUserByNumber (H:=Example.runtime) Example.shop 8 "1"
  ∧ (∃ e, getOrderCurrentUserByNumber (H:=Example.runtime) Example.archive 8 "1"
          = Next e
          ∧ e = orderNotFound ∧ statusCode e = 404 ∧ statusCode e ≠ 403).
Proof.
  apply (getOrderCurrentUserByNumber_hides_foreign_order
           (H:=Example.runtime) Example.archive Example.shop 8%N 8%N "1" "1"
           (JsNum.of_Z 1) (JsNum.of_Z 1)
           (Example.order 50 1 (Example.utc 2023 1 1 23 59 59 998) [3%N] 7 10)
           (Example.user 7 "Ann" (Example.utc 2023 1 1 23 59 59 998) [50%N]));
    solve [reflexivity | by vm_compute].
Defined.

(** ** Texts outside ASCII, large numbers and texts that are not ids *)

(** A search of 26 Cyrillic letters has 26 code units, in 52 bytes, and is
    accepted; one of 51 letters is refused. *)
Example safeSearch_cyrillic :
  String.length "абвгдежзийклмнопрстуфхцчшщ" = 52%nat
  ∧ JsString.length "абвгдежзийклмнопрстуфхцчшщ" = 26
  ∧ safeSearch (Some (QStr "абвгдежзийклмнопрстуфхцчшщ"))
    = Pass (Some "абвгдежзийклмнопрстуфхцчшщ")
  ∧ safeSearch
      (Some (QStr "абвгдежзийклмнопрстуфхцчшщабвгдежзийклмнопрстуфхцчшщ"))
    = Reject (BadRequestError "Слишком длинный search").
Proof. split_and!; reflexivity. Qed.

(** With an engine that folds the Cyrillic letters, the search [лампа]
    finds the product titled [Лампа настольная], in the three list
    handlers' matcher. *)
Example search_cyrillic_case :
  JsString.contains_ci (H:=Example.engine) "лампа" "Лампа настольная" = true
  ∧ (∃ page, getOrders (H:=Example.runtime) Example.lamps
               (Example.ordersQuery None None (Some (QStr "лампа")))
             = Send 200 page
             ∧ g_id <$> docs page = [70%N] ∧ total (pagination page) = 1)
  ∧ (∃ r, getOrdersCurrentUser (H:=Example.runtime) Example.lamps 7
            (Example.userOrdersQuery (Some (QStr "ЛАМПА")) None) = Send 200 r
          ∧ uo_filtered r = db_orders Example.lamps).
Proof.
  split_and!; [reflexivity|eexists; split; [reflexivity|done]..].
Qed.

(** Patterns outside the fragment are answered by the engine: with the
    example engine, an alternation and an anchored text. *)
Example getOrdersCurrentUser_other_patterns :
  (∃ r, getOrdersCurrentUser (H:=Example.runtime) Example.archive 7
          (Example.userOrdersQuery (Some (QStr "ab|zz")) None) = Send 200 r
        ∧ uo_totalOrders r = 1)
  ∧ (∃ r, getOrdersCurrentUser (H:=Example.runtime) Example.archive 7
            (Example.userOrdersQuery (Some (QStr "^abc$")) None) = Send 200 r
          ∧ uo_totalOrders r = 1)
  ∧ (∃ r, getOrdersCurrentUser (H:=Example.runtime) Example.archive 7
            (Example.userOrdersQuery (Some (QStr "^bc$")) None) = Send 200 r
          ∧ uo_totalOrders r = 0).
Proof. split_and!; eexists; split; reflexivity. Qed.

(** A phone between no-break spaces is trimmed and accepted. *)
Example createOrder_phone_nbsp :
  ∃ doc db',
    createOrder (H:=Example.runtime) Example.shop 7
      {| b_address := "Main street 1"; b_payment := "card";
         b_phone := VString (Example.nbsp ++ "+71234567890" ++ Example.nbsp);
         b_total := VNumber 35; b_email := "a@example.org";
         b_items := Some [1%N; 2%N]; b_comment := None |}
    = (Send 200 doc, db')
    ∧ phone doc = "+71234567890"%string.
Proof. do 2 eexists. split; reflexivity. Qed.

(** Prices 2^53 and 1 add up to 2^53, as doubles do: that total is
    accepted and stored, and 2^53 + 1 is refused. *)
Example createOrder_total_rounded :
  (∃ doc db',
     createOrder (H:=Example.runtime) Example.treasury 7
       (Example.body [1%N; 2%N] (VNumber (2 ^ 53))) = (Send 200 doc, db')
     ∧ totalAmount doc = 2 ^ 53)
  ∧ createOrder (H:=Example.runtime) Example.treasury 7
      (Example.body [1%N; 2%N] (VNumber (2 ^ 53 + 1)))
    = (Next (BadRequestError "Неверная сумма заказа"), Example.treasury).
Proof. split; [do 2 eexists; split; reflexivity | reflexivity]. Qed.

(** A route parameter that is not an id: BadRequest from [deleteOrder],
    the CastError itself from the customer handlers. *)
Example handlers_by_id_cast (db : Db) (m : string) (patch : CustomerPatch) :
  deleteOrder db (NotAnId m)
  = (Next (BadRequestError "Передан не валидный ID заказа"), db)
  ∧ getCustomerById db (NotAnId m) = Next (castError m)
  ∧ updateCustomer db (NotAnId m) patch = (Next (castError m), db)
  ∧ deleteCustomer db (NotAnId m) = (Next (castError m), db)
  ∧ statusCode (castError m) = 500.
Proof. done. Qed.

(** With [UPLOAD_PATH] set to a single slash the base is a slash, and the
    name sent starts with two. *)
Example uploadFile_base_slash :
  uploadFile
    (H := {| matcher := Example.engine;
             RegExp_other := Example.otherRegExp;
             Number_ := Example.number; Date_parse := Example.dateParse;
             LocalTZA := 0;
             sanitizeHtml := Example.stripTags false;
             Order_validate := fun _ => None;
             Order_generate := Example.generate;
             sharp_metadata :=
               fun _ => Some {| width := Some 640; height := Some 480 |};
             Number_cast := fun _ => None;
             UPLOAD_PATH := Some "/"; UPLOAD_PATH_TEMP := Some "temp" |})
    (Some {| file_size := Some 4096; file_path := "temp/ab12.png";
             file_filename := "ab12.png"; file_originalname := "cat.png" |})
    {| fs_files := ["temp/ab12.png"]; fs_log := [] |}
  = (Send 201 {| fileName := "//ab12.png"; originalName := "cat.png" |},
     {| fs_files := ["temp/ab12.png"];
        fs_log := [ReadMetadata "temp/ab12.png"] |}).
Proof. reflexivity. Qed.
